(** * Availability board: users, tags, busy slots and the free-users query

    A shallow embedding of [src/users/users.service.ts] and
    [src/availability/availability.service.ts], over a relational model of
    the four tables of the migration ([User], [Tag], [UserTag], [BusySlot])
    and of the Prisma client calls the two services issue. *)

From Stdlib Require Import List String ZArith NArith Bool Lia Ascii.
From Stdlib Require Import Permutation.
Import ListNotations.
Local Open Scope Z_scope.

Set Implicit Arguments.

(** ** JavaScript strings

    A JavaScript string is a sequence of UTF-16 code units. *)

Module JS.

Definition jsstring := list N.

Definition lit (s : string) : jsstring :=
  map N_of_ascii (list_ascii_of_string s).

Definition jsstring_dec : forall a b : jsstring, {a = b} + {a <> b} :=
  list_eq_dec N.eq_dec.

Definition eqs (a b : jsstring) : bool :=
  if jsstring_dec a b then true else false.

(** ECMAScript [WhiteSpace] and [LineTerminator] code points, the ones
    [String.prototype.trim] strips. *)
Definition isWhiteSpace (c : N) : bool :=
  ((9 <=? c) && (c <=? 13) || (c =? 32) || (c =? 160) || (c =? 5760)
   || (8192 <=? c) && (c <=? 8202) || (c =? 8232) || (c =? 8233)
   || (c =? 8239) || (c =? 8287) || (c =? 12288) || (c =? 65279))%N.

Fixpoint trimStart (s : jsstring) : jsstring :=
  match s with
  | [] => []
  | c :: r => if isWhiteSpace c then trimStart r else s
  end.

Definition trimEnd (s : jsstring) : jsstring := rev (trimStart (rev s)).

Definition trim (s : jsstring) : jsstring := trimEnd (trimStart s).

(** [s.split(sep)] for a one-code-unit separator: never empty, the empty
    string gives one empty piece. *)
Fixpoint split (sep : N) (s : jsstring) : list jsstring :=
  match s with
  | [] => [[]]
  | c :: r =>
      if (c =? sep)%N then [] :: split sep r
      else match split sep r with
           | p :: ps => (c :: p) :: ps
           | [] => [[c]]
           end
  end.

(** Truthiness of a string: the empty string is falsy. *)
Definition truthy (s : jsstring) : bool :=
  match s with [] => false | _ => true end.

(** [!value?.trim()] on a possibly undefined string. *)
Definition blank (value : option jsstring) : bool :=
  match value with
  | None => true
  | Some s => negb (truthy (trim s))
  end.

Definition comma : N := 44.

(** [l.join(sep)] for a one-code-unit separator. *)
Fixpoint join (sep : N) (l : list jsstring) : jsstring :=
  match l with
  | [] => []
  | [p] => p
  | p :: r => p ++ sep :: join sep r
  end.

Definition isHighSurrogate (c : N) : bool := ((55296 <=? c) && (c <=? 56319))%N.
Definition isLowSurrogate (c : N) : bool := ((56320 <=? c) && (c <=? 57343))%N.

(** [String.prototype.isWellFormed]: no surrogate code unit stands alone. *)
Fixpoint isWellFormed (s : jsstring) : bool :=
  match s with
  | [] => true
  | c :: r =>
      if isHighSurrogate c then
        match r with
        | d :: r' => isLowSurrogate d && isWellFormed r'
        | [] => false
        end
      else negb (isLowSurrogate c) && isWellFormed r
  end.

End JS.
Import JS.

(** ** Tag normalisation *)

(** One turn of the loop of [normalizeTags] / [normalizeTagsFromQuery]:
    the loop state is the pair of [out] and [seen]. *)
Definition normalizeStep (st : list jsstring * list jsstring) (t : jsstring)
  : list jsstring * list jsstring :=
  let '(out, seen) := st in
  let normalized := trim t in
  if negb (truthy normalized) then st
  else if existsb (eqs normalized) seen then st
  else (out ++ [normalized], seen ++ [normalized]).

Definition normalizeLoop (raw : list jsstring) : list jsstring :=
  fst (fold_left normalizeStep raw ([], [])).

(** [UsersService.normalizeTags]. *)
Definition normalizeTags (tags : list jsstring) : list jsstring :=
  normalizeLoop tags.

(** The [tags?: string | string[]] query parameter. *)
Inductive RawTags :=
| TagsAbsent
| TagsString (s : jsstring)
| TagsArray (l : list jsstring).

(** [AvailabilityService.normalizeTagsFromQuery]. *)
Definition normalizeTagsFromQuery (tags : RawTags) : list jsstring :=
  let raw :=
    match tags with
    | TagsArray l => [] ++ l
    | TagsString s => [] ++ split comma s
    | TagsAbsent => []
    end in
  normalizeLoop raw.

(** The derivation of the required-tag set in the words of the
    specification, to be compared with [normalizeTagsFromQuery]. *)
Module TagSpec.

Definition candidates (tags : RawTags) : list jsstring :=
  match tags with
  | TagsAbsent => []
  | TagsString s => split comma s
  | TagsArray l => l
  end.

(** Duplicates removed, the first occurrence kept. *)
Fixpoint keepFirst (l : list jsstring) : list jsstring :=
  match l with
  | [] => []
  | x :: r => x :: remove jsstring_dec x (keepFirst r)
  end.

Definition requiredTags (tags : RawTags) : list jsstring :=
  keepFirst (filter truthy (map trim (candidates tags))).

End TagSpec.

(** ** The Directory Store

    The tables of the migration. Instants ([TIMESTAMP(3)] columns, JavaScript
    [Date] values) are millisecond counts. *)

Record UserRow := {
  u_id : jsstring;
  u_name : jsstring;
  u_email : jsstring;
  u_phone : option jsstring;
  u_createdAt : Z;
  u_updatedAt : Z
}.

Record TagRow := { t_id : jsstring; t_name : jsstring }.

Record UserTagRow := { ut_userId : jsstring; ut_tagId : jsstring }.

Record BusySlotRow := {
  b_id : jsstring;
  b_from : Z;
  b_to : Z;
  b_reason : option jsstring;
  b_userId : jsstring;
  b_createdAt : Z
}.

(** One field per table, named as the Prisma delegates are. A table is a
    set of rows: the order of its list is the model's own, and stands for
    no order the database keeps. *)
Record Db := {
  user : list UserRow;
  tag : list TagRow;
  userTag : list UserTagRow;
  busySlot : list BusySlotRow
}.

(** The constraints the migration declares: primary keys, the two unique
    indexes and the three foreign keys. *)
Record consistent (d : Db) : Prop := {
  User_pkey : NoDup (map u_id (user d));
  User_email_key : NoDup (map u_email (user d));
  Tag_pkey : NoDup (map t_id (tag d));
  Tag_name_key : NoDup (map t_name (tag d));
  UserTag_pkey : NoDup (map (fun r => (ut_userId r, ut_tagId r)) (userTag d));
  BusySlot_pkey : NoDup (map b_id (busySlot d));
  UserTag_userId_fkey :
    forall r, In r (userTag d) -> In (ut_userId r) (map u_id (user d));
  UserTag_tagId_fkey :
    forall r, In r (userTag d) -> In (ut_tagId r) (map t_id (tag d));
  BusySlot_userId_fkey :
    forall s, In s (busySlot d) -> In (b_userId s) (map u_id (user d))
}.

(** A query result with [include: { tags: { include: { tag: true } },
    busySlots: true }]. *)
Record UserPayload := {
  p_user : UserRow;
  p_tags : list TagRow;
  p_busySlots : list BusySlotRow
}.

Definition includeRelations (d : Db) (u : UserRow) : UserPayload :=
  {| p_user := u;
     p_tags :=
       flat_map (fun r => filter (fun t => eqs (t_id t) (ut_tagId r)) (tag d))
         (filter (fun r => eqs (ut_userId r) (u_id u)) (userTag d));
     p_busySlots := filter (fun s => eqs (b_userId s) (u_id u)) (busySlot d) |}.

(** The [where] filters the services build on users. *)
#[warnings="-register-all"]
Inductive UserWhere :=
| WhereAND (l : list UserWhere)
| WhereTagsSome (name : jsstring)
    (* tags: { some: { tag: { name } } } *)
| WhereBusySlotsNone (from_lt : Z) (to_gt : Z).
    (* busySlots: { none: { from: { lt }, to: { gt } } } *)

Fixpoint satisfies (d : Db) (u : UserRow) (w : UserWhere) : bool :=
  match w with
  | WhereAND l => forallb (satisfies d u) l
  | WhereTagsSome name =>
      existsb (fun r =>
                 eqs (ut_userId r) (u_id u)
                 && existsb (fun t => eqs (t_id t) (ut_tagId r)
                                      && eqs (t_name t) name) (tag d))
        (userTag d)
  | WhereBusySlotsNone from_lt to_gt =>
      negb (existsb (fun s =>
                       eqs (b_userId s) (u_id u)
                       && (b_from s <? from_lt) && (b_to s >? to_gt))
              (busySlot d))
  end.

(** An identifier the client generates for a new row ([Tag.id],
    [BusySlot.id]) is unique in its table: the model takes one longer than
    every identifier in use. *)
Definition freshId (used : list jsstring) : jsstring :=
  repeat 99%N (S (list_max (map (@List.length N) used))).

(** ** Exceptions, the world, and asynchronous computations *)

Inductive Exception :=
| BadRequestException (message : string)
| NotFoundException (message : string)
| PrismaClientKnownRequestError (code : string).

(** [e?.code] *)
Definition code (e : Exception) : option string :=
  match e with
  | PrismaClientKnownRequestError c => Some c
  | _ => None
  end.

(** The codes the client reports: the database cannot be reached (P1001),
    a unique constraint fails (P2002), a foreign key fails (P2003), a
    record the operation needs is not found (P2025), a value does not fit
    its column (P2039). *)
Definition P1001 := PrismaClientKnownRequestError "P1001".
Definition P2002 := PrismaClientKnownRequestError "P2002".
Definition P2003 := PrismaClientKnownRequestError "P2003".
Definition P2025 := PrismaClientKnownRequestError "P2025".
Definition P2039 := PrismaClientKnownRequestError "P2039".

(** The calls a service can issue on the Prisma client. *)
Inductive StoreCall :=
| Call_transaction
| Call_user_findMany
| Call_user_create
| Call_user_findUnique
| Call_user_findUniqueOrThrow
| Call_user_update
| Call_user_delete
| Call_tag_upsert (name : jsstring)
| Call_userTag_upsert
| Call_userTag_deleteMany (names : option (list jsstring))
| Call_busySlot_deleteMany
| Call_busySlot_create.

(** What a service call runs against: the stored rows, whether the database
    can be reached, the clock, and the trace of the calls issued so far. *)
Record World := {
  store : Db;
  reachable : bool;
  now : Z;
  calls : list StoreCall
}.

Definition withStore (d : Db) (w : World) : World :=
  {| store := d; reachable := reachable w; now := now w; calls := calls w |}.

Definition record (c : StoreCall) (w : World) : World :=
  {| store := store w; reachable := reachable w; now := now w;
     calls := calls w ++ [c] |}.

Inductive Outcome (A : Type) :=
| Returned (a : A)
| Thrown (e : Exception).
Arguments Thrown {A} e.

Definition Async (A : Type) := World -> Outcome A * World.

Definition ret {A} (a : A) : Async A := fun w => (Returned a, w).

Definition throw {A} (e : Exception) : Async A := fun w => (Thrown e, w).

Definition bind {A B} (m : Async A) (k : A -> Async B) : Async B :=
  fun w =>
    match m w with
    | (Returned a, w1) => k a w1
    | (Thrown e, w1) => (Thrown e, w1)
    end.

Definition tryCatch {A} (m : Async A) (handler : Exception -> Async A)
  : Async A :=
  fun w =>
    match m w with
    | (Returned a, w1) => (Returned a, w1)
    | (Thrown e, w1) => handler e w1
    end.

Notation "x <- m ;; k" := (bind m (fun x => k))
  (at level 61, m at next level, right associativity).
Notation "m ;;; k" := (bind m (fun _ => k))
  (at level 61, right associativity).

(** [for (const x of l) { await body(x) }] *)
Fixpoint forOf {A} (l : list A) (body : A -> Async unit) : Async unit :=
  match l with
  | [] => ret tt
  | x :: r => body x ;;; forOf r body
  end.

(** A client call: traced, failing with the client's P1001 when the
    database cannot be reached, otherwise running [f] on the stored rows. *)
Definition call {A} (c : StoreCall) (f : Z -> Db -> Outcome A * Db) : Async A :=
  fun w =>
    let w1 := record c w in
    if reachable w then
      let '(r, d) := f (now w) (store w) in (r, withStore d w1)
    else (Thrown P1001, w1).

(** [prisma.$transaction(async (tx) => ...)]: the writes of a body that
    throws are rolled back. *)
Definition transaction {A} (body : Async A) : Async A :=
  fun w =>
    let w1 := record Call_transaction w in
    if reachable w then
      match body w1 with
      | (Returned a, w2) => (Returned a, w2)
      | (Thrown e, w2) => (Thrown e, withStore (store w) w2)
      end
    else (Thrown P1001, w1).

(** The strings a TEXT column keeps as the client sends them, under a
    unique index too: well formed, without U+0000, and of at most 800 code
    units, which are at most 2400 bytes of UTF-8 and fit an index entry. Of
    another string the database may store a different one (U+FFFD for a
    lone surrogate) or refuse the write. The rows of the model hold every
    string as sent, which is what the database does with text. *)
Definition isText (s : jsstring) : bool :=
  isWellFormed s && negb (existsb (N.eqb 0) s)
  && (List.length s <=? 800)%nat.

(** What the program takes from its environment for instants: from the
    JavaScript runtime [new Date(value).getTime()], with [None] for [NaN],
    and [Date.prototype.toISOString]; from the database the instants a
    TIMESTAMP(3) column of the migration accepts from the client. *)
Class DateRuntime := {
  Date_getTime : jsstring -> option Z;
  Date_toISOString : Z -> jsstring;
  Timestamp_fits : Z -> bool
}.

(** ** The Prisma client calls, on the stored rows *)

Module Prisma.

Definition setUser (l : list UserRow) (d : Db) : Db :=
  {| user := l; tag := tag d; userTag := userTag d; busySlot := busySlot d |}.
Definition setTag (l : list TagRow) (d : Db) : Db :=
  {| user := user d; tag := l; userTag := userTag d; busySlot := busySlot d |}.
Definition setUserTag (l : list UserTagRow) (d : Db) : Db :=
  {| user := user d; tag := tag d; userTag := l; busySlot := busySlot d |}.
Definition setBusySlot (l : list BusySlotRow) (d : Db) : Db :=
  {| user := user d; tag := tag d; userTag := userTag d; busySlot := l |}.

Inductive UserWhereUnique :=
| ById (id : jsstring)
| ByEmail (email : jsstring).

Definition matchesUnique (w : UserWhereUnique) (u : UserRow) : bool :=
  match w with
  | ById id => eqs (u_id u) id
  | ByEmail email => eqs (u_email u) email
  end.

Definition userExists (id : jsstring) (d : Db) : bool :=
  existsb (fun u => eqs (u_id u) id) (user d).

Definition tagExists (id : jsstring) (d : Db) : bool :=
  existsb (fun t => eqs (t_id t) id) (tag d).

Definition hasUserTag (userId tagId : jsstring) (d : Db) : bool :=
  existsb (fun r => eqs (ut_userId r) userId && eqs (ut_tagId r) tagId)
    (userTag d).

(** [findMany({ where, include })]. The services pass no [orderBy]: the
    database answers in an order of its choice, here the order of the
    table. *)
Definition userFindMany (w : UserWhere) (d : Db) : list UserPayload :=
  map (includeRelations d) (filter (fun u => satisfies d u w) (user d)).

(** [tag.upsert({ where: { name }, update: {}, create: { name } })], and
    [connectOrCreate] with the same [where] and [create]. *)
Definition tagUpsert (name : jsstring) (d : Db) : TagRow * Db :=
  match find (fun t => eqs (t_name t) name) (tag d) with
  | Some t => (t, d)
  | None =>
      let t := {| t_id := freshId (map t_id (tag d)); t_name := name |} in
      (t, setTag (tag d ++ [t]) d)
  end.

(** [userTag.upsert({ where: { userId_tagId }, update: {}, create })] *)
Definition userTagUpsert (userId tagId : jsstring) (d : Db)
  : Outcome UserTagRow * Db :=
  let r := {| ut_userId := userId; ut_tagId := tagId |} in
  if hasUserTag userId tagId d then (Returned r, d)
  else if negb (userExists userId d) || negb (tagExists tagId d)
       then (Thrown P2003, d)
       else (Returned r, setUserTag (userTag d ++ [r]) d).

(** The nested [tags: { create: [ { tag: { connectOrCreate } } ] }] of
    [user.create]. Names are compared as they are sent, which is how the
    database compares text ([isText]). *)
Fixpoint createUserTags (userId : jsstring) (names : list jsstring) (d : Db)
  : Exception + Db :=
  match names with
  | [] => inr d
  | name :: rest =>
      let '(t, d1) := tagUpsert name d in
      if hasUserTag userId (t_id t) d1 then inl P2002
      else createUserTags userId rest
             (setUserTag
                (userTag d1 ++ [{| ut_userId := userId; ut_tagId := t_id t |}])
                d1)
  end.

(** [user.create({ data: { id, name, email, phone, tags }, include })]:
    one atomic write. *)
Definition userCreate (id name email : jsstring) (phone : option jsstring)
    (tagNames : list jsstring) (now : Z) (d : Db) : Outcome UserPayload * Db :=
  if existsb (fun u => eqs (u_id u) id || eqs (u_email u) email) (user d)
  then (Thrown P2002, d)
  else
    let u := {| u_id := id; u_name := name; u_email := email;
                u_phone := phone; u_createdAt := now; u_updatedAt := now |} in
    match createUserTags id tagNames (setUser (user d ++ [u]) d) with
    | inl e => (Thrown e, d)
    | inr d2 => (Returned (includeRelations d2 u), d2)
    end.

(** The [data] of [user.update]: an undefined field is left as it is. *)
Record UserUpdateData := {
  data_name : option jsstring;
  data_email : option jsstring;
  data_phone : option jsstring
}.

(** Some field of [data] is defined: the write is not empty. *)
Definition writesField (data : UserUpdateData) : bool :=
  match data_name data, data_email data, data_phone data with
  | None, None, None => false
  | _, _, _ => true
  end.

(** The row after the write. The client sets [updatedAt] with the fields
    it writes; with none to write the row stays as it is. *)
Definition applyUpdate (data : UserUpdateData) (now : Z) (u : UserRow)
  : UserRow :=
  {| u_id := u_id u;
     u_name := match data_name data with Some n => n | None => u_name u end;
     u_email := match data_email data with Some e => e | None => u_email u end;
     u_phone := match data_phone data with
                | Some p => Some p
                | None => u_phone u
                end;
     u_createdAt := u_createdAt u;
     u_updatedAt := if writesField data then now else u_updatedAt u |}.

(** [user.update({ where: { id }, data, include })] *)
Definition userUpdate (id : jsstring) (data : UserUpdateData) (now : Z)
    (d : Db) : Outcome UserPayload * Db :=
  match find (fun u => eqs (u_id u) id) (user d) with
  | None => (Thrown P2025, d)
  | Some u0 =>
      let taken :=
        match data_email data with
        | Some e =>
            existsb (fun u => eqs (u_email u) e && negb (eqs (u_id u) id))
              (user d)
        | None => false
        end in
      if taken then (Thrown P2002, d)
      else
        let u1 := applyUpdate data now u0 in
        let d1 :=
          setUser (map (fun u => if eqs (u_id u) id then u1 else u) (user d))
            d in
        (Returned (includeRelations d1 u1), d1)
  end.

(** [user.delete({ where: { id } })]; the foreign keys cascade. *)
Definition userDelete (id : jsstring) (d : Db) : Outcome UserRow * Db :=
  match find (fun u => eqs (u_id u) id) (user d) with
  | None => (Thrown P2025, d)
  | Some u =>
      (Returned u,
       {| user := filter (fun u => negb (eqs (u_id u) id)) (user d);
          tag := tag d;
          userTag := filter (fun r => negb (eqs (ut_userId r) id)) (userTag d);
          busySlot :=
            filter (fun s => negb (eqs (b_userId s) id)) (busySlot d) |})
  end.

(** [busySlot.deleteMany({ where: { userId } })] *)
Definition busySlotDeleteMany (userId : jsstring) (d : Db) : Db :=
  setBusySlot (filter (fun s => negb (eqs (b_userId s) userId)) (busySlot d)) d.

(** [userTag.deleteMany({ where: { userId } })] *)
Definition userTagDeleteMany (userId : jsstring) (d : Db) : Db :=
  setUserTag (filter (fun r => negb (eqs (ut_userId r) userId)) (userTag d)) d.

(** [userTag.deleteMany({ where: { userId, tag: { name: { in } } } })] *)
Definition userTagDeleteManyNamed (userId : jsstring) (names : list jsstring)
    (d : Db) : Db :=
  setUserTag
    (filter (fun r =>
               negb (eqs (ut_userId r) userId
                     && existsb (fun t => eqs (t_id t) (ut_tagId r)
                                          && existsb (eqs (t_name t)) names)
                          (tag d)))
       (userTag d)) d.

(** [busySlot.create({ data: { userId, from, to, reason } })]: an instant
    the column does not accept makes the write fail. *)
Definition busySlotCreate {runtime : DateRuntime} (userId : jsstring)
    (from to : Z) (reason : option jsstring) (now : Z) (d : Db)
  : Outcome BusySlotRow * Db :=
  if negb (Timestamp_fits from && Timestamp_fits to) then (Thrown P2039, d)
  else if negb (userExists userId d) then (Thrown P2003, d)
  else
    let s := {| b_id := freshId (map b_id (busySlot d)); b_from := from;
                b_to := to; b_reason := reason; b_userId := userId;
                b_createdAt := now |} in
    (Returned s, setBusySlot (busySlot d ++ [s]) d).

(** *** The calls as the services await them *)

Definition reading {A} (f : Db -> A) : Z -> Db -> Outcome A * Db :=
  fun _ d => (Returned (f d), d).

Definition writing (f : Db -> Db) : Z -> Db -> Outcome unit * Db :=
  fun _ d => (Returned tt, f d).

Definition user_findMany (w : UserWhere) : Async (list UserPayload) :=
  call Call_user_findMany (reading (userFindMany w)).

Definition user_findUnique (w : UserWhereUnique) : Async (option UserRow) :=
  call Call_user_findUnique (reading (fun d => find (matchesUnique w) (user d))).

Definition user_findUnique_include (w : UserWhereUnique)
  : Async (option UserPayload) :=
  call Call_user_findUnique
    (reading (fun d => option_map (includeRelations d)
                         (find (matchesUnique w) (user d)))).

Definition user_findUniqueOrThrow_include (w : UserWhereUnique)
  : Async UserPayload :=
  call Call_user_findUniqueOrThrow
    (fun _ d =>
       match find (matchesUnique w) (user d) with
       | Some u => (Returned (includeRelations d u), d)
       | None => (Thrown P2025, d)
       end).

Definition user_create (id name email : jsstring) (phone : option jsstring)
    (tagNames : list jsstring) : Async UserPayload :=
  call Call_user_create (userCreate id name email phone tagNames).

Definition user_update (id : jsstring) (data : UserUpdateData)
  : Async UserPayload :=
  call Call_user_update (userUpdate id data).

Definition user_delete (id : jsstring) : Async UserRow :=
  call Call_user_delete (fun _ => userDelete id).

Definition tag_upsert (name : jsstring) : Async TagRow :=
  call (Call_tag_upsert name)
    (fun _ d => let '(t, d1) := tagUpsert name d in (Returned t, d1)).

Definition userTag_upsert (userId tagId : jsstring) : Async UserTagRow :=
  call Call_userTag_upsert (fun _ => userTagUpsert userId tagId).

Definition userTag_deleteMany (userId : jsstring) : Async unit :=
  call (Call_userTag_deleteMany None) (writing (userTagDeleteMany userId)).

Definition userTag_deleteMany_named (userId : jsstring)
    (names : list jsstring) : Async unit :=
  call (Call_userTag_deleteMany (Some names))
    (writing (userTagDeleteManyNamed userId names)).

Definition busySlot_deleteMany (userId : jsstring) : Async unit :=
  call Call_busySlot_deleteMany (writing (busySlotDeleteMany userId)).

Definition busySlot_create {runtime : DateRuntime} (userId : jsstring)
    (from to : Z) (reason : option jsstring) : Async BusySlotRow :=
  call Call_busySlot_create (busySlotCreate userId from to reason).

End Prisma.

(** ** The services *)

(** The exported types of [users.service.ts] and
    [availability.service.ts]. *)
Record BusySlot := {
  slot_id : jsstring;
  slot_from : jsstring;
  slot_to : jsstring;
  slot_reason : option jsstring
}.

Record User := {
  id : jsstring;
  name : jsstring;
  email : jsstring;
  phone : option jsstring;
  tags : list jsstring;
  busy : list BusySlot;
  createdAt : jsstring;
  updatedAt : jsstring
}.

Record CreateUserInput := {
  c_name : option jsstring;
  c_email : option jsstring;
  c_phone : option jsstring;
  c_tags : option (list jsstring)
}.

Record UpdateUserTagsInput := {
  add : option (list jsstring);
  remove : option (list jsstring)
}.

Record MarkBusyInput := {
  mb_from : option jsstring;
  mb_to : option jsstring;
  mb_reason : option jsstring
}.

Record GetFreeUsersInput := {
  q_from : option jsstring;
  q_to : option jsstring;
  q_tags : RawTags
}.

(** [x ?? []] *)
Definition orEmpty {A} (x : option (list A)) : list A :=
  match x with Some l => l | None => [] end.

Section Services.

Context {runtime : DateRuntime}.

(** [parseIsoDate], the same in both services. *)
Definition parseIsoDate (value : option jsstring) (field : string) : Async Z :=
  if blank value then throw (BadRequestException (field ++ " is required"))
  else
    match match value with Some v => Date_getTime v | None => None end with
    | None =>
        throw (BadRequestException (field ++ " must be a valid ISO datetime"))
    | Some d => ret d
    end.

Definition toApiBusySlot (s : BusySlotRow) : BusySlot :=
  {| slot_id := b_id s;
     slot_from := Date_toISOString (b_from s);
     slot_to := Date_toISOString (b_to s);
     slot_reason := b_reason s |}.

Definition toApiUser (u : UserPayload) : User :=
  {| id := u_id (p_user u);
     name := u_name (p_user u);
     email := u_email (p_user u);
     phone := u_phone (p_user u);
     tags := map t_name (p_tags u);
     busy := map toApiBusySlot (p_busySlots u);
     createdAt := Date_toISOString (u_createdAt (p_user u));
     updatedAt := Date_toISOString (u_updatedAt (p_user u)) |}.

(** *** [AvailabilityService] *)

Definition getFreeUsers (input : GetFreeUsersInput) : Async (list User) :=
  from <- parseIsoDate (q_from input) "from" ;;
  to <- parseIsoDate (q_to input) "to" ;;
  if from >=? to then throw (BadRequestException "from must be before to")
  else
    let tagFilter := normalizeTagsFromQuery (q_tags input) in
    let andTagFilters := map WhereTagsSome tagFilter in
    users <- Prisma.user_findMany
               (WhereAND (andTagFilters ++ [WhereBusySlotsNone to from])) ;;
    ret (map (fun u =>
                {| id := u_id (p_user u);
                   name := u_name (p_user u);
                   email := u_email (p_user u);
                   phone := u_phone (p_user u);
                   tags := map t_name (p_tags u);
                   busy := map (fun s =>
                                  {| slot_id := b_id s;
                                     slot_from := Date_toISOString (b_from s);
                                     slot_to := Date_toISOString (b_to s);
                                     slot_reason := b_reason s |})
                             (p_busySlots u);
                   createdAt := Date_toISOString (u_createdAt (p_user u));
                   updatedAt := Date_toISOString (u_updatedAt (p_user u)) |})
           users).

(** *** [UsersService] *)

(** [Math.random().toString(36).slice(2, 10)] is the argument. *)
Definition generateUserId (suffix : jsstring) : jsstring :=
  lit "usr_" ++ suffix.

(** The body both loops on tag names share: upsert the tag, then the
    association. *)
Definition attach (userId : jsstring) (name : jsstring) : Async unit :=
  tag <- Prisma.tag_upsert name ;;
  Prisma.userTag_upsert userId (t_id tag) ;;;
  ret tt.

Definition isP2002 (e : Exception) : bool :=
  match code e with
  | Some c => String.eqb c "P2002"
  | None => false
  end.

Definition create (suffix : jsstring) (input : CreateUserInput) : Async User :=
  if blank (c_name input) then throw (BadRequestException "name is required")
  else if blank (c_email input)
  then throw (BadRequestException "email is required")
  else
    match c_name input, c_email input with
    | Some input_name, Some input_email =>
        let id := generateUserId suffix in
        let tags := normalizeTags (orEmpty (c_tags input)) in
        tryCatch
          (created <- Prisma.user_create id input_name input_email
                        (c_phone input) tags ;;
           ret (toApiUser created))
          (fun e =>
             if negb (isP2002 e) then throw e
             else
               existing <- Prisma.user_findUnique_include
                             (Prisma.ByEmail input_email) ;;
               match existing with
               | None => throw e
               | Some existing =>
                   let existing_id := u_id (p_user existing) in
                   reset <- transaction
                     (Prisma.busySlot_deleteMany existing_id ;;;
                      Prisma.userTag_deleteMany existing_id ;;;
                      forOf tags (attach existing_id) ;;;
                      Prisma.user_update existing_id
                        {| Prisma.data_name := Some input_name;
                           Prisma.data_email := None;
                           Prisma.data_phone := c_phone input |}) ;;
                   ret (toApiUser reset)
               end)
    | _, _ => throw (BadRequestException "name is required")
    end.

Definition delete (id : jsstring) : Async unit :=
  tryCatch
    (Prisma.user_delete id ;;; ret tt)
    (fun _ => throw (NotFoundException "user not found")).

Definition updateTags (id : jsstring) (input : UpdateUserTagsInput)
  : Async User :=
  let add := normalizeTags (orEmpty (add input)) in
  let remove := normalizeTags (orEmpty (remove input)) in
  updated <- transaction
    (exists_ <- Prisma.user_findUnique (Prisma.ById id) ;;
     match exists_ with
     | None => throw (NotFoundException "user not found")
     | Some _ =>
         forOf add (attach id) ;;;
         (if (0 <? List.length remove)%nat
          then Prisma.userTag_deleteMany_named id remove
          else ret tt) ;;;
         Prisma.user_findUniqueOrThrow_include (Prisma.ById id)
     end) ;;
  ret (toApiUser updated).

Definition markBusy (id : jsstring) (input : MarkBusyInput) : Async BusySlot :=
  from <- parseIsoDate (mb_from input) "from" ;;
  to <- parseIsoDate (mb_to input) "to" ;;
  if from >=? to then throw (BadRequestException "from must be before to")
  else
    userExists <- Prisma.user_findUnique (Prisma.ById id) ;;
    match userExists with
    | None => throw (NotFoundException "user not found")
    | Some _ =>
        slot <- Prisma.busySlot_create id from to (mb_reason input) ;;
        ret {| slot_id := b_id slot;
               slot_from := Date_toISOString (b_from slot);
               slot_to := Date_toISOString (b_to slot);
               slot_reason := b_reason slot |}
    end.

End Services.

(** *** The rest of [UsersService], and the controller's [deleteUser] *)

Record UpdateUserInput := {
  up_name : option jsstring;
  up_email : option jsstring;
  up_phone : option jsstring;
  up_tags : option (list jsstring)
}.

(** The body of the reply to [DELETE /users/:id]. *)
Record DeleteReply := { deleted : bool }.

(** [x !== undefined] *)
Definition defined {A} (x : option A) : bool :=
  match x with Some _ => true | None => false end.

(** [user.findMany({ include })], with no [where]. *)
Definition user_findMany_all : Async (list UserPayload) :=
  call Call_user_findMany
    (Prisma.reading (fun d => map (includeRelations d) (user d))).

Section OtherServices.

Context {runtime : DateRuntime}.

Definition getById (id : jsstring) : Async User :=
  user <- Prisma.user_findUnique_include (Prisma.ById id) ;;
  match user with
  | None => throw (NotFoundException "user not found")
  | Some user => ret (toApiUser user)
  end.

Definition update (id : jsstring) (input : UpdateUserInput) : Async User :=
  if defined (up_name input) && blank (up_name input)
  then throw (BadRequestException "name cannot be empty")
  else if defined (up_email input) && blank (up_email input)
  then throw (BadRequestException "email cannot be empty")
  else
    (* an array is truthy, the empty one too *)
    let tags := option_map normalizeTags (up_tags input) in
    updated <- transaction
      (exists_ <- Prisma.user_findUnique (Prisma.ById id) ;;
       match exists_ with
       | None => throw (NotFoundException "user not found")
       | Some _ =>
           match tags with
           | Some tags =>
               Prisma.userTag_deleteMany id ;;;
               forOf tags (attach id)
           | None => ret tt
           end ;;;
           Prisma.user_update id
             {| Prisma.data_name := up_name input;
                Prisma.data_email := up_email input;
                Prisma.data_phone := up_phone input |}
       end) ;;
    ret (toApiUser updated).

Definition listAll : Async (list User) :=
  users <- user_findMany_all ;;
  ret (map (fun u => toApiUser u) users).

(** [UsersController.deleteUser] *)
Definition deleteUser (id : jsstring) : Async DeleteReply :=
  delete id ;;;
  ret {| deleted := true |}.

End OtherServices.

(** [m] throws a bad request with this message and touches nothing. *)
Definition rejected {A} (m : Async A) (w : World) (message : string) : Prop :=
  m w = (Thrown (BadRequestException message), w).

(** A view is that of a row of the store, which can be reached. *)
Definition viewOfStored {runtime : DateRuntime} (v : User) (w : World)
  : Prop :=
  reachable w = true
  /\ exists row, In row (user (store w))
                 /\ v = toApiUser (includeRelations (store w) row).

(** The outcome of a service call whose first client call [c] finds the
    database out of reach and whose failure nothing catches. *)
Definition outOfReach {A} (c : StoreCall) (w : World) : Outcome A * World :=
  (Thrown P1001, record c w).

(** [m] never changes the stored rows, whatever its outcome. *)
Definition readOnly {A} (m : Async A) : Prop :=
  forall w o w1, m w = (o, w1) -> store w1 = store w.

(** Two views of one user that differ at most in the order of the tags and
    in the order of the busy slots. *)
Definition sameView (u u' : User) : Prop :=
  id u' = id u /\ name u' = name u /\ email u' = email u
  /\ phone u' = phone u /\ createdAt u' = createdAt u
  /\ updatedAt u' = updatedAt u
  /\ Permutation (tags u) (tags u') /\ Permutation (busy u) (busy u').

(** The same users, in some order, each with the same view. *)
Definition sameUsers (us us' : list User) : Prop :=
  exists l, Permutation us l /\ Forall2 sameView l us'.

(** Two outcomes of a query that agree but for the order of the users. *)
Definition sameAnswer (r r' : Outcome (list User) * World) : Prop :=
  match r, r' with
  | (Returned us, w1), (Returned us', w1') => sameUsers us us' /\ w1' = w1
  | (Thrown e, w1), (Thrown e', w1') => e' = e /\ w1' = w1
  | _, _ => False
  end.

(** The [where] [getFreeUsers] sends for a window and a tag specification. *)
Definition freeUsersWhere (from to : Z) (t : RawTags) : UserWhere :=
  WhereAND (map WhereTagsSome (normalizeTagsFromQuery t)
            ++ [WhereBusySlotsNone to from]).

(** What the loop [for (const name of names) attach] leaves in the store
    and in the trace when no call throws. *)
Definition attachDb (userId name : jsstring) (d : Db) : Db :=
  let '(t, d1) := Prisma.tagUpsert name d in
  snd (Prisma.userTagUpsert userId (t_id t) d1).

Definition attachAllDb (userId : jsstring) (names : list jsstring) (d : Db)
  : Db :=
  fold_left (fun d n => attachDb userId n d) names d.

Definition attachCalls (names : list jsstring) : list StoreCall :=
  flat_map (fun n => [Call_tag_upsert n; Call_userTag_upsert]) names.

(** The associations [deleteMany] drops: the user's, with a tag whose name
    is listed. *)
Definition dropped (id : jsstring) (names : list jsstring) (d : Db)
    (r : UserTagRow) : bool :=
  eqs (ut_userId r) id
  && existsb (fun t => eqs (t_id t) (ut_tagId r)
                       && existsb (eqs (t_name t)) names) (tag d).

(** The rows and the trace a successful [updateTags] leaves. *)
Definition updateTagsDb (id : jsstring) (add remove : list jsstring) (d : Db)
  : Db :=
  let d1 := attachAllDb id add d in
  if (0 <? List.length remove)%nat
  then Prisma.userTagDeleteManyNamed id remove d1
  else d1.

Definition updateTagsCalls (add remove : list jsstring) : list StoreCall :=
  [Call_transaction; Call_user_findUnique]
  ++ attachCalls add
  ++ (if (0 <? List.length remove)%nat
      then [Call_userTag_deleteMany (Some remove)]
      else [])
  ++ [Call_user_findUniqueOrThrow].

(** The rows and the trace [create] leaves when it resets the stored user
    [e]. *)
Definition resetData (input_name : jsstring) (input : CreateUserInput)
  : Prisma.UserUpdateData :=
  {| Prisma.data_name := Some input_name;
     Prisma.data_email := None;
     Prisma.data_phone := c_phone input |}.

Definition resetCleared (e : UserRow) (tagNames : list jsstring) (d : Db)
  : Db :=
  attachAllDb (u_id e) tagNames
    (Prisma.userTagDeleteMany (u_id e)
       (Prisma.busySlotDeleteMany (u_id e) d)).

Definition resetRow (e : UserRow) (input_name : jsstring)
    (input : CreateUserInput) (now : Z) : UserRow :=
  Prisma.applyUpdate (resetData input_name input) now e.

Definition resetDb (e : UserRow) (input_name : jsstring)
    (input : CreateUserInput) (tagNames : list jsstring) (now : Z) (d : Db)
  : Db :=
  let d3 := resetCleared e tagNames d in
  Prisma.setUser
    (map (fun u => if eqs (u_id u) (u_id e)
                   then resetRow e input_name input now else u) (user d3))
    d3.

Definition resetCalls (tagNames : list jsstring) : list StoreCall :=
  [Call_user_create; Call_user_findUnique; Call_transaction;
   Call_busySlot_deleteMany; Call_userTag_deleteMany None]
  ++ attachCalls tagNames ++ [Call_user_update].

(** The world after calls [cs] that left the rows [d]. *)
Definition advance (d : Db) (cs : list StoreCall) (w : World) : World :=
  {| store := d; reachable := reachable w; now := now w;
     calls := calls w ++ cs |}.

(** The rows [update] leaves before its [user.update], the calls of a run
    that finds the user, and whether another user has the new email. *)
Definition updateTagged (uid : jsstring) (input : UpdateUserInput) (d : Db)
  : Db :=
  match up_tags input with
  | Some l => attachAllDb uid (normalizeTags l) (Prisma.userTagDeleteMany uid d)
  | None => d
  end.

Definition updateData (input : UpdateUserInput) : Prisma.UserUpdateData :=
  {| Prisma.data_name := up_name input;
     Prisma.data_email := up_email input;
     Prisma.data_phone := up_phone input |}.

Definition updateCalls (input : UpdateUserInput) : list StoreCall :=
  [Call_transaction; Call_user_findUnique]
  ++ match up_tags input with
     | Some l => Call_userTag_deleteMany None :: attachCalls (normalizeTags l)
     | None => []
     end
  ++ [Call_user_update].

Definition emailTaken (uid : jsstring) (input : UpdateUserInput) (d : Db)
  : bool :=
  match up_email input with
  | Some e =>
      existsb (fun u => eqs (u_email u) e && negb (eqs (u_id u) uid)) (user d)
  | None => false
  end.

(** A field of [update] passes validation: left out, or not blank. *)
Definition acceptable (v : option jsstring) : Prop :=
  v = None \/ blank v = false.

(** ** The availability predicates, in the words of the specification *)

Module Spec.

(** Half-open intervals [[a_from, a_to)] and [[b_from, b_to)] overlap. *)
Definition overlaps (a_from a_to b_from b_to : Z) : Prop :=
  a_from < b_to /\ b_from < a_to.

(** No busy slot of the user overlaps the window. *)
Definition free (d : Db) (userId : jsstring) (w_from w_to : Z) : Prop :=
  forall s, In s (busySlot d) -> b_userId s = userId ->
            ~ overlaps (b_from s) (b_to s) w_from w_to.

(** The user has at least one tag association with that exact name. *)
Definition holdsTag (d : Db) (userId name : jsstring) : Prop :=
  exists r t, In r (userTag d) /\ ut_userId r = userId /\
              In t (tag d) /\ t_id t = ut_tagId r /\ t_name t = name.

Definition matchesTags (d : Db) (userId : jsstring) (required : list jsstring)
  : Prop :=
  forall n, In n required -> holdsTag d userId n.

(** The tag catalog: the names of the stored tags. *)
Definition catalog (d : Db) : list jsstring := map t_name (tag d).

(** A timestamp input that is missing or does not parse. *)
Definition badTimestamp {runtime : DateRuntime} (value : option jsstring)
  : Prop :=
  value = None \/ exists s, value = Some s /\ Date_getTime s = None.

(** The input carries the window [[from, to)]. *)
Definition window {runtime : DateRuntime} (v_from v_to : option jsstring)
    (from to : Z) : Prop :=
  exists f t, v_from = Some f /\ v_to = Some t /\
              blank v_from = false /\ blank v_to = false /\
              Date_getTime f = Some from /\ Date_getTime t = Some to.

End Spec.

(** ** A runtime and a store for concrete runs *)

Module Sample.

Fixpoint number (acc : Z) (s : jsstring) : option Z :=
  match s with
  | [] => Some acc
  | c :: r =>
      if ((48 <=? c) && (c <=? 57))%N
      then number (10 * acc + Z.of_N (c - 48)) r
      else None
  end.

Definition field (s : jsstring) (start len : nat) : option Z :=
  number 0 (firstn len (skipn start s)).

Definition at_ (s : jsstring) (i : nat) (c : N) : bool :=
  match nth_error s i with
  | Some x => (x =? c)%N
  | None => false
  end.

(** Days from 1970-01-01 of a date of the proleptic Gregorian calendar. *)
Definition daysFromCivil (y m d : Z) : Z :=
  let y1 := if m <=? 2 then y - 1 else y in
  let era := y1 / 400 in
  let yoe := y1 - era * 400 in
  let doy := (153 * (if m >? 2 then m - 3 else m + 9) + 2) / 5 + d - 1 in
  let doe := yoe * 365 + yoe / 4 - yoe / 100 + doy in
  era * 146097 + doe - 719468.

Definition civilFromDays (z : Z) : Z * Z * Z :=
  let z1 := z + 719468 in
  let era := z1 / 146097 in
  let doe := z1 - era * 146097 in
  let yoe := (doe - doe / 1460 + doe / 36524 - doe / 146096) / 365 in
  let doy := doe - (365 * yoe + yoe / 4 - yoe / 100) in
  let mp := (5 * doy + 2) / 153 in
  let d := doy - (153 * mp + 2) / 5 + 1 in
  let m := if mp <? 10 then mp + 3 else mp - 9 in
  (if m <=? 2 then yoe + era * 400 + 1 else yoe + era * 400, m, d).

(** Reads the UTC format of the end-to-end test, [YYYY-MM-DDTHH:mm:ssZ],
    and nothing else. *)
Definition readIso (s : jsstring) : option Z :=
  if (List.length s =? 20)%nat && at_ s 4 45 && at_ s 7 45 && at_ s 10 84
     && at_ s 13 58 && at_ s 16 58 && at_ s 19 90
  then
    match field s 0 4, field s 5 2, field s 8 2,
          field s 11 2, field s 14 2, field s 17 2 with
    | Some y, Some m, Some d, Some h, Some mi, Some se =>
        if (1 <=? m) && (m <=? 12) && (1 <=? d) && (d <=? 31)
           && (h <=? 23) && (mi <=? 59) && (se <=? 59)
        then Some ((daysFromCivil y m d * 86400 + h * 3600 + mi * 60 + se)
                   * 1000)
        else None
    | _, _, _, _, _, _ => None
    end
  else None.

Definition digits (width : nat) (z : Z) : jsstring :=
  map (fun k => (48 + Z.to_N ((z / 10 ^ Z.of_nat k) mod 10))%N)
    (rev (seq 0 width)).

(** Writes [YYYY-MM-DDTHH:mm:ss.sssZ]. *)
Definition writeIso (ms : Z) : jsstring :=
  let '(y, m, d) := civilFromDays (ms / 86400000) in
  let r := ms mod 86400000 in
  digits 4 y ++ lit "-" ++ digits 2 m ++ lit "-" ++ digits 2 d ++ lit "T"
  ++ digits 2 (r / 3600000) ++ lit ":" ++ digits 2 (r / 60000 mod 60)
  ++ lit ":" ++ digits 2 (r / 1000 mod 60) ++ lit "." ++ digits 3 (r mod 1000)
  ++ lit "Z".

(** The column of the fixture accepts the years 0001 to 9999. *)
Definition fits (ms : Z) : bool :=
  (-62135596800000 <=? ms) && (ms <=? 253402300799999).

Definition runtime : DateRuntime :=
  {| Date_getTime := readIso; Date_toISOString := writeIso;
     Timestamp_fits := fits |}.

Definition emptyDb : Db :=
  {| user := []; tag := []; userTag := []; busySlot := [] |}.

Definition start : World :=
  {| store := emptyDb; reachable := true; now := 1770370000000; calls := [] |}.

Definition offline (w : World) : World :=
  {| store := store w; reachable := false; now := now w; calls := calls w |}.

(** The world [m] leaves, whatever its outcome. *)
Definition after {A} (m : Async A) (w : World) : World := snd (m w).

Definition newUser (name email : string) : CreateUserInput :=
  {| c_name := Some (lit name); c_email := Some (lit email);
     c_phone := None; c_tags := Some [] |}.

Definition addTag (t : string) : UpdateUserTagsInput :=
  {| add := Some [lit t]; remove := Some [] |}.

Definition busyOn (from to reason : string) : MarkBusyInput :=
  {| mb_from := Some (lit from); mb_to := Some (lit to);
     mb_reason := Some (lit reason) |}.

Definition u1 : jsstring := lit "usr_aaaaaaaa".
Definition u2 : jsstring := lit "usr_bbbbbbbb".
Definition u3 : jsstring := lit "usr_cccccccc".

(** The world the end-to-end test builds before it queries. *)
Definition board : World :=
  fold_left (fun w (step : World -> World) => step w)
    [ after (create (runtime := runtime) (lit "aaaaaaaa")
               (newUser "User One" "user1@example.com"));
      after (create (runtime := runtime) (lit "bbbbbbbb")
               (newUser "User Two" "user2@example.com"));
      after (create (runtime := runtime) (lit "cccccccc")
               (newUser "User Three" "user3@example.com"));
      after (updateTags (runtime := runtime) u1 (addTag "backend"));
      after (updateTags (runtime := runtime) u2 (addTag "frontend"));
      after (updateTags (runtime := runtime) u3 (addTag "backend"));
      after (markBusy (runtime := runtime) u1
               (busyOn "2026-02-06T11:00:00Z" "2026-02-06T12:30:00Z"
                  "User1 meeting"));
      after (markBusy (runtime := runtime) u2
               (busyOn "2026-02-06T11:15:00Z" "2026-02-06T11:45:00Z"
                  "User2 focus"));
      after (markBusy (runtime := runtime) u3
               (busyOn "2026-02-06T12:00:00Z" "2026-02-06T13:00:00Z"
                  "User3 interview")) ]
    start.

(** A user with a phone, a tag and a busy slot, and a second [create] with
    the same email and no phone. *)
Definition firstInput : CreateUserInput :=
  {| c_name := Some (lit "Old Name"); c_email := Some (lit "dup@example.com");
     c_phone := Some (lit "555-0100"); c_tags := Some [lit "ops"] |}.

Definition u4 : jsstring := lit "usr_dddddddd".

Definition registered : World :=
  after (markBusy (runtime := runtime) u4
           (busyOn "2026-02-06T09:00:00Z" "2026-02-06T10:00:00Z" "standup"))
    (after (create (runtime := runtime) (lit "dddddddd") firstInput) board).

Definition secondInput : CreateUserInput :=
  {| c_name := Some (lit "New Name"); c_email := Some (lit "dup@example.com");
     c_phone := None; c_tags := Some [lit " backend "; lit "sre"] |}.

Definition row4 : UserRow :=
  {| u_id := u4; u_name := lit "Old Name"; u_email := lit "dup@example.com";
     u_phone := Some (lit "555-0100"); u_createdAt := 1770370000000;
     u_updatedAt := 1770370000000 |}.

Definition swapTags : UpdateUserTagsInput :=
  {| add := Some [lit "backend"; lit " oncall "];
     remove := Some [lit "oncall"; lit "frontend"] |}.


Definition late : MarkBusyInput :=
  busyOn "2026-02-06T15:00:00Z" "2026-02-06T16:00:00Z" "review".



Definition query (from to : string) (t : RawTags) : GetFreeUsersInput :=
  {| q_from := Some (lit from); q_to := Some (lit to); q_tags := t |}.

(** The four queries of the end-to-end test, and some more. *)
Definition backend_11_12 : GetFreeUsersInput :=
  query "2026-02-06T11:00:00Z" "2026-02-06T12:00:00Z"
    (TagsString (lit "backend")).
Definition backend_1230_13 : GetFreeUsersInput :=
  query "2026-02-06T12:30:00Z" "2026-02-06T13:00:00Z"
    (TagsString (lit "backend")).
Definition frontend_11_12 : GetFreeUsersInput :=
  query "2026-02-06T11:00:00Z" "2026-02-06T12:00:00Z"
    (TagsString (lit "frontend")).
Definition frontend_1145_1230 : GetFreeUsersInput :=
  query "2026-02-06T11:45:00Z" "2026-02-06T12:30:00Z"
    (TagsString (lit "frontend")).
Definition Frontend_1145_1230 : GetFreeUsersInput :=
  query "2026-02-06T11:45:00Z" "2026-02-06T12:30:00Z"
    (TagsString (lit "Frontend")).
Definition anyone_1145_1230 : GetFreeUsersInput :=
  query "2026-02-06T11:45:00Z" "2026-02-06T12:30:00Z" TagsAbsent.
Definition not_a_date : GetFreeUsersInput :=
  query "not-a-date" "2026-02-06T12:30:00Z" TagsAbsent.
Definition empty_window : GetFreeUsersInput :=
  query "2026-02-06T12:30:00Z" "2026-02-06T12:30:00Z" TagsAbsent.

Definition t_1145 : Z := 1770378300000.
Definition t_1230 : Z := 1770381000000.
Definition t_1500 : Z := 1770390000000.
Definition t_1600 : Z := 1770393600000.

Definition row1 : UserRow :=
  {| u_id := u1; u_name := lit "User One"; u_email := lit "user1@example.com";
     u_phone := None; u_createdAt := 1770370000000;
     u_updatedAt := 1770370000000 |}.

End Sample.

(** A computation keeps the store consistent, whatever its outcome. *)
Definition preserves {A} (m : Async A) : Prop :=
  forall w o w1, consistent (store w) -> m w = (o, w1) ->
                 consistent (store w1).

(** A decidable form of [consistent], for stores given in full. *)
Fixpoint distinct {A} (eqb : A -> A -> bool) (l : list A) : bool :=
  match l with
  | [] => true
  | x :: r => negb (existsb (eqb x) r) && distinct eqb r
  end.

Definition consistentb (d : Db) : bool :=
  distinct eqs (map u_id (user d))
  && distinct eqs (map u_email (user d))
  && distinct eqs (map t_id (tag d))
  && distinct eqs (map t_name (tag d))
  && distinct (fun a b => eqs (fst a) (fst b) && eqs (snd a) (snd b))
       (map (fun r => (ut_userId r, ut_tagId r)) (userTag d))
  && distinct eqs (map b_id (busySlot d))
  && forallb (fun r => existsb (eqs (ut_userId r)) (map u_id (user d)))
       (userTag d)
  && forallb (fun r => existsb (eqs (ut_tagId r)) (map t_id (tag d)))
       (userTag d)
  && forallb (fun s => existsb (eqs (b_userId s)) (map u_id (user d)))
       (busySlot d).

(** * Properties *)

(** ** Lists, [keepFirst] and the normalisation loop *)

Lemma remove_filter_neq (x : jsstring) (l : list jsstring) :
  List.remove jsstring_dec x l = filter (fun y => negb (eqs x y)) l.
Proof.
  induction l as [|y l IH]; simpl; [reflexivity|].
  unfold eqs at 1. destruct (jsstring_dec x y); simpl; rewrite IH; reflexivity.
Qed.

Lemma filter_twice {A} (f g : A -> bool) (l : list A) :
  filter f (filter g l) = filter (fun x => g x && f x) l.
Proof.
  induction l as [|x l IH]; simpl; [reflexivity|].
  destruct (g x); simpl; [destruct (f x)|]; rewrite IH; reflexivity.
Qed.

Lemma filter_all {A} (f : A -> bool) (l : list A) :
  (forall x, In x l -> f x = true) -> filter f l = l.
Proof.
  induction l as [|x l IH]; simpl; intros H; [reflexivity|].
  rewrite (H x (or_introl eq_refl)), IH; [reflexivity|].
  intros y Hy. apply H. right. exact Hy.
Qed.

Lemma filter_none {A} (f : A -> bool) (l : list A) :
  (forall x, In x l -> f x = false) -> filter f l = [].
Proof.
  induction l as [|x l IH]; simpl; intros H; [reflexivity|].
  rewrite (H x (or_introl eq_refl)). apply IH.
  intros y Hy. apply H. right. exact Hy.
Qed.

Lemma eqs_true (a b : jsstring) : eqs a b = true <-> a = b.
Proof. unfold eqs. destruct (jsstring_dec a b); split; congruence. Qed.

Lemma eqs_refl (a : jsstring) : eqs a a = true.
Proof. apply eqs_true. reflexivity. Qed.

Lemma existsb_eqs (x : jsstring) (l : list jsstring) :
  existsb (eqs x) l = true <-> In x l.
Proof.
  rewrite existsb_exists. split.
  - intros [y [Hy E]]. apply eqs_true in E. subst. assumption.
  - intros H. exists x. split; [assumption | apply eqs_refl].
Qed.

Lemma keepFirst_In (x : jsstring) (l : list jsstring) :
  In x (TagSpec.keepFirst l) <-> In x l.
Proof.
  induction l as [|y l IH]; simpl; [tauto|].
  split.
  - intros [E | H]; [left; assumption|].
    apply in_remove in H. right. apply IH, H.
  - intros [E | H]; [left; assumption|].
    destruct (jsstring_dec y x) as [E | N]; [left; assumption|].
    right. apply in_in_remove; [congruence | apply IH, H].
Qed.

Lemma NoDup_remove_list (x : jsstring) (l : list jsstring) :
  NoDup l -> NoDup (List.remove jsstring_dec x l).
Proof.
  intros H. rewrite remove_filter_neq. apply NoDup_filter, H.
Qed.

Lemma keepFirst_NoDup (l : list jsstring) : NoDup (TagSpec.keepFirst l).
Proof.
  induction l as [|y l IH]; simpl; constructor.
  - apply remove_In.
  - apply NoDup_remove_list, IH.
Qed.

(** The loop, started from any [out] with [seen] holding the same names,
    appends the first occurrences of the names not yet in [out]. *)
Lemma normalizeLoop_from (raw out seen : list jsstring) :
  (forall x, In x seen <-> In x out) ->
  let st := fold_left normalizeStep raw (out, seen) in
  fst st =
    out ++ filter (fun y => negb (existsb (eqs y) out))
             (TagSpec.keepFirst (filter truthy (map trim raw)))
  /\ (forall x, In x (snd st) <-> In x (fst st)).
Proof.
  revert out seen. induction raw as [|t raw IH]; intros out seen Hs; simpl.
  - rewrite app_nil_r. split; [reflexivity | exact Hs].
  - destruct (truthy (trim t)) eqn:Ht; simpl.
    + destruct (existsb (eqs (trim t)) seen) eqn:Hseen.
      * assert (Hout : existsb (eqs (trim t)) out = true).
        { apply existsb_eqs, Hs, existsb_eqs, Hseen. }
        rewrite Hout. simpl.
        destruct (IH out seen Hs) as [E1 E2]. split; [|exact E2].
        rewrite E1. f_equal. rewrite remove_filter_neq.
        rewrite filter_twice. apply filter_ext_in. intros y _.
        destruct (eqs (trim t) y) eqn:Ey; simpl.
        -- apply eqs_true in Ey. subst y. rewrite Hout. reflexivity.
        -- reflexivity.
      * assert (Hout : existsb (eqs (trim t)) out = false).
        { destruct (existsb (eqs (trim t)) out) eqn:E; [|reflexivity].
          apply existsb_eqs, Hs, existsb_eqs in E. congruence. }
        rewrite Hout. simpl.
        assert (Hs' : forall x, In x (seen ++ [trim t]) <-> In x (out ++ [trim t])).
        { intros x. rewrite !in_app_iff, Hs. tauto. }
        destruct (IH (out ++ [trim t]) (seen ++ [trim t]) Hs') as [E1 E2].
        split; [|exact E2].
        rewrite E1, <- app_assoc. simpl. do 2 f_equal.
        rewrite remove_filter_neq, filter_twice. apply filter_ext_in.
        intros y _. rewrite existsb_app. simpl. rewrite orb_false_r.
        rewrite negb_orb, andb_comm. do 2 f_equal.
        unfold eqs. destruct (jsstring_dec (trim t) y), (jsstring_dec y (trim t));
          congruence.
    + apply IH, Hs.
Qed.

Lemma normalizeLoop_keepFirst (raw : list jsstring) :
  normalizeLoop raw = TagSpec.keepFirst (filter truthy (map trim raw)).
Proof.
  unfold normalizeLoop.
  destruct (@normalizeLoop_from raw [] []) as [E _]; [tauto|].
  rewrite E. simpl. apply filter_all. reflexivity.
Qed.


Lemma freshId_fresh (used : list jsstring) : ~ In (freshId used) used.
Proof.
  intros H.
  assert (Hle : (List.length (freshId used) <= list_max (map (@List.length N) used))%nat).
  { assert (F : Forall (fun k => (k <= list_max (map (@List.length N) used))%nat)
                  (map (@List.length N) used)) by (apply list_max_le; lia).
    rewrite Forall_forall in F. apply F, in_map, H. }
  unfold freshId in Hle. rewrite repeat_length in Hle. lia.
Qed.


Example board_runs :
  map (fun u => (u_id u, u_name u)) (user (store Sample.board))
  = [(Sample.u1, lit "User One"); (Sample.u2, lit "User Two");
     (Sample.u3, lit "User Three")]
  /\ map t_name (tag (store Sample.board)) = [lit "backend"; lit "frontend"]
  /\ map (fun s => (b_userId s, b_from s, b_to s)) (busySlot (store Sample.board))
     = [(Sample.u1, 1770375600000, 1770381000000);
        (Sample.u2, 1770376500000, 1770378300000);
        (Sample.u3, 1770379200000, 1770382800000)]
  /\ Sample.writeIso 1770381000000 = lit "2026-02-06T12:30:00.000Z".
Proof. vm_compute. repeat split. Qed.

(** ** Tag normalisation *)

Example trim_runs :
  trim (lit "  back end	 ") = lit "back end" /\ trim (lit "   ") = [].
Proof. vm_compute. split; reflexivity. Qed.

Example split_runs :
  split comma (lit "a,,b") = [lit "a"; []; lit "b"]
  /\ split comma [] = [[]]
  /\ split comma (lit ",") = [[]; []].
Proof. vm_compute. repeat split. Qed.

Example normalizeTagsFromQuery_runs :
  normalizeTagsFromQuery (TagsString (lit " backend , frontend,,backend,"))
  = [lit "backend"; lit "frontend"]
  /\ normalizeTagsFromQuery
       (TagsArray [lit "b,a"; lit " "; lit "a"; lit "b,a "; lit "a"])
     = [lit "b,a"; lit "a"].
Proof. vm_compute. split; reflexivity. Qed.

Lemma split_nonempty (sep : N) (s : jsstring) : split sep s <> [].
Proof.
  destruct s as [|c r]; simpl; [discriminate|].
  destruct (c =? sep)%N; [discriminate|].
  destruct (split sep r); discriminate.
Qed.

(** Joining the pieces of [split] with the separator gives the string back,
    and no piece holds the separator. *)
Lemma join_split (sep : N) (s : jsstring) : join sep (split sep s) = s.
Proof.
  induction s as [|c r IH]; [reflexivity|].
  simpl. destruct (N.eqb_spec c sep) as [E | E].
  - subst c. pose proof (split_nonempty sep r) as Hne.
    destruct (split sep r) as [|p ps]; [congruence|].
    simpl in *. rewrite IH. reflexivity.
  - pose proof (split_nonempty sep r) as Hne.
    destruct (split sep r) as [|p ps]; [congruence|].
    destruct ps as [|q qs]; simpl in *; rewrite <- IH; reflexivity.
Qed.

Lemma split_pieces (sep : N) (s p : jsstring) :
  In p (split sep s) -> ~ In sep p.
Proof.
  revert p. induction s as [|c r IH]; simpl; intros p H.
  - destruct H as [<- | []]. intros [].
  - destruct (N.eqb_spec c sep) as [E | E].
    + destruct H as [<- | H]; [intros [] | apply IH, H].
    + destruct (split sep r) as [|q qs].
      * destruct H as [<- | []]. intros [F | []]. congruence.
      * destruct H as [<- | H].
        -- intros [F | F]; [congruence|]. apply (IH q); [left; reflexivity | exact F].
        -- apply IH. right. exact H.
Qed.

(** [keepFirst] keeps the order of first occurrences: it is the list with
    every later occurrence filtered out, element by element. *)
Lemma keepFirst_app_new (l : list jsstring) (x : jsstring) :
  ~ In x l -> TagSpec.keepFirst (l ++ [x]) = TagSpec.keepFirst l ++ [x].
Proof.
  induction l as [|y l IH]; simpl; intros H; [reflexivity|].
  rewrite IH by tauto. f_equal. rewrite remove_app. simpl.
  destruct (jsstring_dec y x) as [E | _]; [exfalso; apply H; left; exact E|].
  reflexivity.
Qed.

Lemma keepFirst_app_old (l : list jsstring) (x : jsstring) :
  In x l -> TagSpec.keepFirst (l ++ [x]) = TagSpec.keepFirst l.
Proof.
  induction l as [|y l IH]; simpl; intros H; [contradiction|].
  f_equal. destruct (jsstring_dec y x) as [E | N].
  - subst y. destruct (in_dec jsstring_dec x l) as [I | I].
    + rewrite IH by exact I. reflexivity.
    + rewrite keepFirst_app_new by exact I. rewrite remove_app. simpl.
      destruct (jsstring_dec x x); [|congruence]. apply app_nil_r.
  - rewrite IH; [reflexivity|]. destruct H; [congruence | assumption].
Qed.

(** C5. The required-tag set [normalizeTagsFromQuery] derives from a raw
    tag specification is the one the specification describes: the
    candidates are the pieces of a single string split on commas, or the
    elements of a list as they are; each is trimmed, the ones empty after
    trimming are dropped, and of equal names only the first occurrence is
    kept, in first-seen order; an absent specification gives the empty set.
    The result has no duplicate, and holds exactly the non-empty trimmed
    candidates. *)
Theorem normalizeTagsFromQuery_requiredTags (raw : RawTags) :
  normalizeTagsFromQuery raw = TagSpec.requiredTags raw
  /\ normalizeTagsFromQuery TagsAbsent = []
  /\ NoDup (normalizeTagsFromQuery raw)
  /\ (forall n, In n (normalizeTagsFromQuery raw) <->
                n <> [] /\ exists c, In c (TagSpec.candidates raw) /\ trim c = n).
Proof.
  assert (E : normalizeTagsFromQuery raw = TagSpec.requiredTags raw).
  { unfold normalizeTagsFromQuery, TagSpec.requiredTags.
    rewrite normalizeLoop_keepFirst. destruct raw; reflexivity. }
  split; [exact E|]. split; [reflexivity|]. rewrite E. split.
  - apply keepFirst_NoDup.
  - intros n. unfold TagSpec.requiredTags.
    rewrite keepFirst_In, filter_In, in_map_iff. split.
    + intros [[c [Hc Hin]] Ht]. split.
      * intros ->. discriminate.
      * exists c. split; assumption.
    + intros [Hne [c [Hin Hc]]]. split.
      * exists c. split; assumption.
      * destruct n; [congruence | reflexivity].
Qed.

(** ** Running client calls *)

Lemma call_reachable {A} (c : StoreCall) (f : Z -> Db -> Outcome A * Db)
    (w : World) :
  reachable w = true ->
  call c f w = (fst (f (now w) (store w)),
                withStore (snd (f (now w) (store w))) (record c w)).
Proof.
  intros H. unfold call. rewrite H. destruct (f (now w) (store w)); reflexivity.
Qed.

Lemma call_unreachable {A} (c : StoreCall) (f : Z -> Db -> Outcome A * Db)
    (w : World) :
  reachable w = false ->
  call c f w = (Thrown P1001, record c w).
Proof. intros H. unfold call. rewrite H. reflexivity. Qed.

(** A call that returns was issued on a reachable database. *)
Lemma call_returned {A} (c : StoreCall) (f : Z -> Db -> Outcome A * Db)
    (w w1 : World) (a : A) :
  call c f w = (Returned a, w1) -> reachable w = true.
Proof.
  unfold call. destruct (reachable w); [reflexivity | discriminate].
Qed.

Section ServiceFacts.

Context {runtime : DateRuntime}.

Lemma parseIsoDate_window (v_from v_to : option jsstring) (from to : Z)
    (f1 f2 : string) (w : World) :
  Spec.window v_from v_to from to ->
  parseIsoDate v_from f1 w = (Returned from, w)
  /\ parseIsoDate v_to f2 w = (Returned to, w).
Proof.
  intros [f [t [Ef [Et [Bf [Bt [Pf Pt]]]]]]].
  unfold parseIsoDate. rewrite Bf, Bt. subst v_from v_to.
  rewrite Pf, Pt. split; reflexivity.
Qed.

(** [parseIsoDate] touches nothing, and throws nothing but bad requests. *)
Lemma parseIsoDate_cases (v : option jsstring) (field : string) (w : World) :
  (exists d s, v = Some s /\ blank v = false /\ Date_getTime s = Some d
               /\ parseIsoDate v field w = (Returned d, w))
  \/ ((blank v = true \/ Spec.badTimestamp v)
      /\ exists msg, parseIsoDate v field w = (Thrown (BadRequestException msg), w)).
Proof.
  unfold parseIsoDate. destruct (blank v) eqn:B.
  - right. split; [left; reflexivity|]. eexists. reflexivity.
  - destruct v as [s|]; [|discriminate].
    destruct (Date_getTime s) as [d|] eqn:P.
    + left. exists d, s. repeat split; assumption.
    + right. split.
      * right. right. exists s. split; [reflexivity | assumption].
      * eexists. reflexivity.
Qed.

(** ** The free-users query *)

Lemma satisfies_tag (d : Db) (u : UserRow) (n : jsstring) :
  satisfies d u (WhereTagsSome n) = true <-> Spec.holdsTag d (u_id u) n.
Proof.
  simpl. rewrite existsb_exists. split.
  - intros [r [Hr H]]. apply andb_true_iff in H. destruct H as [H1 H2].
    apply existsb_exists in H2. destruct H2 as [t [Ht H2]].
    apply andb_true_iff in H2. destruct H2 as [H2 H3].
    apply eqs_true in H1, H2, H3. exists r, t. repeat split; assumption.
  - intros [r [t [Hr [H1 [Ht [H2 H3]]]]]]. exists r. split; [assumption|].
    apply andb_true_iff. split; [apply eqs_true; assumption|].
    apply existsb_exists. exists t. split; [assumption|].
    apply andb_true_iff. split; apply eqs_true; assumption.
Qed.

Lemma satisfies_free (d : Db) (u : UserRow) (from to : Z) :
  satisfies d u (WhereBusySlotsNone to from) = true
  <-> Spec.free d (u_id u) from to.
Proof.
  simpl. rewrite negb_true_iff. split.
  - intros H s Hs Hu [H1 H2].
    assert (E : existsb
                  (fun s => eqs (b_userId s) (u_id u) && (b_from s <? to)
                            && (b_to s >? from)) (busySlot d) = true).
    { apply existsb_exists. exists s. split; [assumption|].
      rewrite !andb_true_iff. repeat split.
      - apply eqs_true. assumption.
      - apply Z.ltb_lt. assumption.
      - apply Z.gtb_lt. assumption. }
    congruence.
  - intros H.
    destruct (existsb _ (busySlot d)) eqn:E; [|reflexivity].
    apply existsb_exists in E. destruct E as [s [Hs E]].
    rewrite !andb_true_iff in E. destruct E as [[E1 E2] E3].
    apply eqs_true in E1. apply Z.ltb_lt in E2. apply Z.gtb_lt in E3.
    exfalso. apply (H s Hs E1). split; assumption.
Qed.

(** The filter [getFreeUsers] builds selects the users that hold every
    required tag and are free over the window. *)
Lemma satisfies_query (d : Db) (u : UserRow) (T : list jsstring)
    (from to : Z) :
  satisfies d u (WhereAND (map WhereTagsSome T ++ [WhereBusySlotsNone to from]))
  = true
  <-> Spec.matchesTags d (u_id u) T /\ Spec.free d (u_id u) from to.
Proof.
  change (satisfies d u (WhereAND ?l)) with (forallb (satisfies d u) l).
  rewrite forallb_app, andb_true_iff.
  change (forallb (satisfies d u) [WhereBusySlotsNone to from])
    with (satisfies d u (WhereBusySlotsNone to from) && true).
  rewrite andb_true_r, satisfies_free, forallb_forall.
  split; intros [H1 H2]; (split; [|exact H2]).
  - intros n Hn. apply satisfies_tag, H1, in_map, Hn.
  - intros x Hx. apply in_map_iff in Hx. destruct Hx as [n [<- Hn]].
    apply satisfies_tag, H1, Hn.
Qed.

Lemma getFreeUsers_run (input : GetFreeUsersInput) (from to : Z) (w : World) :
  Spec.window (q_from input) (q_to input) from to -> from < to ->
  getFreeUsers input w =
    if reachable w
    then (Returned (map toApiUser
                      (Prisma.userFindMany
                         (freeUsersWhere from to (q_tags input)) (store w))),
          record Call_user_findMany w)
    else (Thrown P1001, record Call_user_findMany w).
Proof.
  intros W Hlt.
  destruct (parseIsoDate_window "from" "to" w W) as [Pf Pt].
  unfold getFreeUsers, bind. rewrite Pf, Pt.
  destruct (Z.geb_spec from to) as [Hge | _]; [lia|].
  unfold Prisma.user_findMany.
  destruct (reachable w) eqn:R.
  - rewrite call_reachable by exact R. reflexivity.
  - rewrite call_unreachable by exact R. reflexivity.
Qed.

Lemma getFreeUsers_ids (input : GetFreeUsersInput) (from to : Z) (d : Db)
    (uid : jsstring) :
  In uid (map id (map toApiUser
                    (Prisma.userFindMany
                       (freeUsersWhere from to (q_tags input)) d)))
  <-> In uid (map u_id (user d))
      /\ Spec.matchesTags d uid (normalizeTagsFromQuery (q_tags input))
      /\ Spec.free d uid from to.
Proof.
  unfold Prisma.userFindMany. rewrite !map_map. simpl.
  rewrite !in_map_iff. split.
  - intros [u [<- Hu]]. apply filter_In in Hu. destruct Hu as [Hu Hs].
    apply satisfies_query in Hs. split; [|exact Hs].
    exists u. split; [reflexivity | exact Hu].
  - intros [[u [<- Hu]] Hs]. exists u. split; [reflexivity|].
    apply filter_In. split; [exact Hu|]. apply satisfies_query, Hs.
Qed.

End ServiceFacts.

Section Availability.

Context {runtime : DateRuntime}.

(** The overlap test of the specification: symmetric, false on intervals
    that touch, true on an interval that holds the other. *)
Lemma overlaps_sym (a_from a_to b_from b_to : Z) :
  Spec.overlaps a_from a_to b_from b_to
  <-> Spec.overlaps b_from b_to a_from a_to.
Proof. unfold Spec.overlaps. tauto. Qed.

Lemma overlaps_touching (a_from a_to b_to : Z) :
  ~ Spec.overlaps a_from a_to a_to b_to.
Proof. unfold Spec.overlaps. lia. Qed.

Lemma overlaps_contained (a_from a_to b_from b_to : Z) :
  a_from <= b_from -> b_from < b_to -> b_to <= a_to ->
  Spec.overlaps a_from a_to b_from b_to.
Proof. unfold Spec.overlaps. lia. Qed.



(** C3. When [from] or [to] is missing, blank or unparseable, or when the
    parsed [from] is not strictly before the parsed [to], [getFreeUsers]
    throws a [BadRequestException] and leaves the world as it found it: no
    client call is issued and the stored rows are untouched. *)
Theorem getFreeUsers_rejects_bad_window (input : GetFreeUsersInput)
    (w : World) :
  blank (q_from input) = true \/ Spec.badTimestamp (q_from input)
  \/ blank (q_to input) = true \/ Spec.badTimestamp (q_to input)
  \/ (exists from to, Spec.window (q_from input) (q_to input) from to
                      /\ from >= to) ->
  exists msg w1,
    getFreeUsers input w = (Thrown (BadRequestException msg), w1)
    /\ w1 = w /\ calls w1 = calls w /\ store w1 = store w.
Proof.
  intros H.
  assert (G : exists msg,
             getFreeUsers input w = (Thrown (BadRequestException msg), w)).
  { unfold getFreeUsers, bind.
    destruct (parseIsoDate_cases (q_from input) "from" w)
      as [[a [f [Ef [Bf [Pf Rf]]]]] | [_ [msg Rf]]]; rewrite Rf;
      [|exists msg; reflexivity].
    destruct (parseIsoDate_cases (q_to input) "to" w)
      as [[b [t [Et [Bt [Pt Rt]]]]] | [_ [msg Rt]]]; rewrite Rt;
      [|exists msg; reflexivity].
    destruct (Z.geb_spec a b) as [Hge | Hlt]; [eexists; reflexivity|].
    exfalso.
    assert (Nf : ~ Spec.badTimestamp (q_from input)).
    { intros [E | [s [E P]]]; [congruence|]. rewrite Ef in E.
      injection E as <-. congruence. }
    assert (Nt : ~ Spec.badTimestamp (q_to input)).
    { intros [E | [s [E P]]]; [congruence|]. rewrite Et in E.
      injection E as <-. congruence. }
    destruct H as [H | [H | [H | [H | H]]]]; try congruence; try tauto.
    destruct H as [from [to [[f' [t' [Ef' [Et' [_ [_ [Pf' Pt']]]]]]] Hge]]].
    rewrite Ef in Ef'. rewrite Et in Et'.
    injection Ef' as <-. injection Et' as <-.
    rewrite Pf in Pf'. rewrite Pt in Pt'.
    injection Pf' as <-. injection Pt' as <-. lia. }
  destruct G as [msg G]. exists msg, w. repeat split. exact G.
Qed.

(** C6. Over the same store and window, asking for one more tag never adds
    a user: when the required-tag set of [input'] is that of [input] with
    the name [x] added, every user [getFreeUsers] returns for [input'] it
    also returns for [input]. *)
Theorem getFreeUsers_tag_monotone (input input' : GetFreeUsersInput)
    (x : jsstring) (from to : Z) (w : World) :
  Spec.window (q_from input) (q_to input) from to -> from < to ->
  q_from input' = q_from input -> q_to input' = q_to input ->
  (forall n, In n (normalizeTagsFromQuery (q_tags input')) <->
             In n (normalizeTagsFromQuery (q_tags input)) \/ n = x) ->
  forall us' w1', getFreeUsers input' w = (Returned us', w1') ->
  exists us w1, getFreeUsers input w = (Returned us, w1)
                /\ (forall u, In u us' -> In u us)
                /\ (forall uid, In uid (map id us') -> In uid (map id us)).
Proof.
  intros W Hlt Ef Et HT us' w1' E'.
  assert (W' : Spec.window (q_from input') (q_to input') from to)
    by (rewrite Ef, Et; exact W).
  rewrite (getFreeUsers_run input' w W' Hlt) in E'.
  pose proof (getFreeUsers_run input w W Hlt) as Run.
  destruct (reachable w); [|discriminate].
  injection E' as <- _.
  eexists. eexists. split; [exact Run|].
  assert (Sub : forall u, In u (map toApiUser
                                  (Prisma.userFindMany
                                     (freeUsersWhere from to (q_tags input'))
                                     (store w))) ->
                          In u (map toApiUser
                                  (Prisma.userFindMany
                                     (freeUsersWhere from to (q_tags input))
                                     (store w)))).
  { intros u Hu. unfold Prisma.userFindMany in *.
    rewrite map_map in *. apply in_map_iff in Hu.
    destruct Hu as [row [<- Hrow]].
    apply in_map_iff. exists row. split; [reflexivity|].
    apply filter_In in Hrow. destruct Hrow as [Hrow Hs].
    apply filter_In. split; [exact Hrow|].
    apply satisfies_query in Hs. apply satisfies_query.
    destruct Hs as [Hm Hf]. split; [|exact Hf].
    intros n Hn. apply Hm, HT. left. exact Hn. }
  split; [exact Sub|].
  intros uid Hu. apply in_map_iff in Hu. destruct Hu as [u [<- Hu]].
  apply in_map, Sub, Hu.
Qed.

End Availability.

(** *** Concrete runs of the query *)

(** The four expectations of the end-to-end test; tag names are matched
    with their case; without tags, every free user is returned. *)
Example getFreeUsers_board :
  let run q := fst (getFreeUsers (runtime := Sample.runtime) q Sample.board) in
  let ids o := match o with Returned us => Some (map id us) | Thrown _ => None end in
  ids (run Sample.backend_11_12) = Some [Sample.u3]
  /\ ids (run Sample.backend_1230_13) = Some [Sample.u1]
  /\ ids (run Sample.frontend_11_12) = Some []
  /\ ids (run Sample.frontend_1145_1230) = Some [Sample.u2]
  /\ ids (run Sample.Frontend_1145_1230) = Some []
  /\ ids (run Sample.anyone_1145_1230) = Some [Sample.u2].
Proof. vm_compute. repeat split. Qed.

Lemma window_intro {runtime : DateRuntime} (f t : jsstring) (from to : Z) :
  blank (Some f) = false -> blank (Some t) = false ->
  Date_getTime f = Some from -> Date_getTime t = Some to ->
  Spec.window (Some f) (Some t) from to.
Proof. intros. exists f, t. repeat split; assumption. Qed.





Lemma getFreeUsers_rejects_bad_window_witness :
  (exists msg w1,
     getFreeUsers (runtime := Sample.runtime) Sample.not_a_date Sample.board
     = (Thrown (BadRequestException msg), w1)
     /\ w1 = Sample.board /\ calls w1 = calls Sample.board
     /\ store w1 = store Sample.board)
  /\ (exists msg w1,
        getFreeUsers (runtime := Sample.runtime) Sample.empty_window
          Sample.board
        = (Thrown (BadRequestException msg), w1)
        /\ w1 = Sample.board /\ calls w1 = calls Sample.board
        /\ store w1 = store Sample.board).
Proof.
  split.
  - apply (getFreeUsers_rejects_bad_window (runtime := Sample.runtime)).
    right. left. right. exists (lit "not-a-date").
    split; vm_compute; reflexivity.
  - apply (getFreeUsers_rejects_bad_window (runtime := Sample.runtime)).
    do 4 right. exists Sample.t_1230, Sample.t_1230. split.
    + apply window_intro; vm_compute; reflexivity.
    + vm_compute. discriminate.
Defined.

Lemma getFreeUsers_tag_monotone_witness :
  exists us w1,
    getFreeUsers (runtime := Sample.runtime) Sample.anyone_1145_1230
      Sample.board = (Returned us, w1)
    /\ In Sample.u2 (map id us).
Proof.
  assert (W : Spec.window (runtime := Sample.runtime)
                (q_from Sample.anyone_1145_1230) (q_to Sample.anyone_1145_1230)
                Sample.t_1145 Sample.t_1230)
    by (apply window_intro; vm_compute; reflexivity).
  assert (T : forall n,
             In n (normalizeTagsFromQuery (q_tags Sample.frontend_1145_1230))
             <-> In n (normalizeTagsFromQuery (q_tags Sample.anyone_1145_1230))
                 \/ n = lit "frontend").
  { intros n. vm_compute. intuition congruence. }
  destruct (@getFreeUsers_tag_monotone Sample.runtime
              Sample.anyone_1145_1230 Sample.frontend_1145_1230
              (lit "frontend") Sample.t_1145 Sample.t_1230 Sample.board
              W eq_refl eq_refl eq_refl T
              (match fst (getFreeUsers (runtime := Sample.runtime)
                                   Sample.frontend_1145_1230 Sample.board) with
                      | Returned us => us
                      | Thrown _ => []
                      end)
              (snd (getFreeUsers (runtime := Sample.runtime)
                             Sample.frontend_1145_1230 Sample.board)))
    as [us [w1 [E [_ Ids]]]].
  - vm_compute. reflexivity.
  - exists us, w1. split; [exact E|]. apply Ids. vm_compute. left. reflexivity.
Defined.

(** ** Looking users up *)

Lemma userExists_In (id : jsstring) (d : Db) :
  Prisma.userExists id d = true <-> In id (map u_id (user d)).
Proof.
  unfold Prisma.userExists. rewrite existsb_exists, in_map_iff.
  split; intros [u [H1 H2]]; exists u.
  - apply eqs_true in H2. split; assumption.
  - split; [assumption | apply eqs_true; assumption].
Qed.

Lemma find_id_none (id : jsstring) (l : list UserRow) :
  find (fun u => eqs (u_id u) id) l = None <-> ~ In id (map u_id l).
Proof.
  induction l as [|u l IH]; simpl; [tauto|].
  destruct (eqs (u_id u) id) eqn:E.
  - apply eqs_true in E. split; [discriminate | tauto].
  - assert (u_id u <> id) by (intros F; apply eqs_true in F; congruence).
    tauto.
Qed.

Lemma find_id_some (id : jsstring) (l : list UserRow) :
  In id (map u_id l) ->
  exists u, find (fun u => eqs (u_id u) id) l = Some u
            /\ u_id u = id /\ In u l.
Proof.
  intros H. destruct (find (fun u => eqs (u_id u) id) l) as [u|] eqn:F.
  - exists u. apply find_some in F. destruct F as [F1 F2].
    apply eqs_true in F2. repeat split; assumption.
  - apply find_id_none in F. contradiction.
Qed.

Lemma find_ById (id : jsstring) (l : list UserRow) :
  find (Prisma.matchesUnique (Prisma.ById id)) l
  = find (fun u => eqs (u_id u) id) l.
Proof. reflexivity. Qed.

Section Users.

Context {runtime : DateRuntime}.

(** ** [delete] *)

(** C9. Whatever exception the client's [user.delete] throws, [delete]
    throws [NotFoundException "user not found"] in its place: for a user
    that is not stored (P2025), and just as well when the database cannot be
    reached (P1001). *)
Theorem delete_reports_not_found (id : jsstring) (w : World) :
  (forall e w1, Prisma.user_delete id w = (Thrown e, w1) ->
     delete id w = (Thrown (NotFoundException "user not found"), w1))
  /\ (reachable w = true -> ~ In id (map u_id (user (store w))) ->
      Prisma.user_delete id w = (Thrown P2025, record Call_user_delete w)
      /\ delete id w = (Thrown (NotFoundException "user not found"),
                        record Call_user_delete w))
  /\ (reachable w = false ->
      Prisma.user_delete id w
      = (Thrown P1001, record Call_user_delete w)
      /\ delete id w = (Thrown (NotFoundException "user not found"),
                        record Call_user_delete w)).
Proof.
  assert (G : forall e w1, Prisma.user_delete id w = (Thrown e, w1) ->
                delete id w = (Thrown (NotFoundException "user not found"), w1)).
  { intros e w1 E. unfold delete, tryCatch, bind. rewrite E. reflexivity. }
  split; [exact G|]. split.
  - intros R Hn.
    assert (E : Prisma.user_delete id w
                = (Thrown P2025, record Call_user_delete w)).
    { unfold Prisma.user_delete. rewrite call_reachable by exact R.
      unfold Prisma.userDelete. apply find_id_none in Hn. rewrite Hn.
      reflexivity. }
    split; [exact E | apply (G _ _ E)].
  - intros R.
    assert (E : Prisma.user_delete id w
                = (Thrown P1001,
                   record Call_user_delete w)).
    { unfold Prisma.user_delete. apply call_unreachable, R. }
    split; [exact E | apply (G _ _ E)].
Qed.

(** ** [markBusy] *)


End Users.

(** ** The loop that attaches tags *)

Lemma advance_advance (d1 d2 : Db) (cs1 cs2 : list StoreCall) (w : World) :
  advance d2 cs2 (advance d1 cs1 w) = advance d2 (cs1 ++ cs2) w.
Proof. unfold advance. simpl. rewrite app_assoc. reflexivity. Qed.

Lemma store_advance (d : Db) (cs : list StoreCall) (w : World) :
  store (advance d cs w) = d.
Proof. reflexivity. Qed.

Lemma now_advance (d : Db) (cs : list StoreCall) (w : World) :
  now (advance d cs w) = now w.
Proof. reflexivity. Qed.

Lemma two_calls (d1 d2 : Db) (c1 c2 : StoreCall) (w : World) :
  withStore d2 (record c2 (withStore d1 (record c1 w)))
  = advance d2 [c1; c2] w.
Proof. unfold advance, withStore, record. simpl. rewrite <- app_assoc. reflexivity. Qed.

Lemma advance_nil (w : World) : advance (store w) [] w = w.
Proof. destruct w. unfold advance. simpl. rewrite app_nil_r. reflexivity. Qed.

Lemma tagExists_In (i : jsstring) (d : Db) :
  Prisma.tagExists i d = true <-> In i (map t_id (tag d)).
Proof.
  unfold Prisma.tagExists. rewrite existsb_exists, in_map_iff.
  split; intros [t [H1 H2]]; exists t.
  - apply eqs_true in H2. split; assumption.
  - split; [assumption | apply eqs_true; assumption].
Qed.

Lemma hasUserTag_In (userId tagId : jsstring) (d : Db) :
  Prisma.hasUserTag userId tagId d = true
  <-> In {| ut_userId := userId; ut_tagId := tagId |} (userTag d).
Proof.
  unfold Prisma.hasUserTag. rewrite existsb_exists. split.
  - intros [[a b] [H1 H2]]. simpl in H2. apply andb_true_iff in H2.
    destruct H2 as [E1 E2]. apply eqs_true in E1, E2. subst. exact H1.
  - intros H. eexists. split; [exact H|]. simpl.
    rewrite !eqs_refl. reflexivity.
Qed.

Lemma find_name_none (n : jsstring) (l : list TagRow) :
  find (fun t => eqs (t_name t) n) l = None <-> ~ In n (map t_name l).
Proof.
  induction l as [|t l IH]; simpl; [tauto|].
  destruct (eqs (t_name t) n) eqn:E.
  - apply eqs_true in E. split; [discriminate | tauto].
  - assert (t_name t <> n) by (intros F; apply eqs_true in F; congruence).
    tauto.
Qed.

(** The tag [tagUpsert] returns is stored under the name asked for; the tag
    table is as it was, or has that one new row under an unused id. *)
Lemma tagUpsert_spec (n : jsstring) (d : Db) :
  let t := fst (Prisma.tagUpsert n d) in
  let d1 := snd (Prisma.tagUpsert n d) in
  user d1 = user d /\ userTag d1 = userTag d /\ busySlot d1 = busySlot d
  /\ In t (tag d1) /\ t_name t = n
  /\ ((In t (tag d) /\ d1 = d)
      \/ (tag d1 = tag d ++ [t] /\ ~ In (t_id t) (map t_id (tag d))
          /\ ~ In n (map t_name (tag d)))).
Proof.
  unfold Prisma.tagUpsert.
  destruct (find (fun t => eqs (t_name t) n) (tag d)) as [t|] eqn:F; simpl.
  - apply find_some in F. destruct F as [F1 F2]. apply eqs_true in F2.
    repeat split; try assumption. left. split; [assumption | reflexivity].
  - repeat split.
    + apply in_or_app. right. left. reflexivity.
    + right. repeat split.
      * apply freshId_fresh.
      * apply find_name_none, F.
Qed.

(** One turn of the loop, for a stored user on a reachable database. *)
Lemma attach_run (userId n : jsstring) (w : World) :
  reachable w = true -> In userId (map u_id (user (store w))) ->
  attach userId n w
  = (Returned tt,
     advance (attachDb userId n (store w))
       [Call_tag_upsert n; Call_userTag_upsert] w).
Proof.
  intros R Hu. unfold attach, bind, Prisma.tag_upsert.
  rewrite call_reachable by exact R.
  unfold attachDb.
  destruct (tagUpsert_spec n (store w)) as [Eu [_ [_ [Ht _]]]].
  destruct (Prisma.tagUpsert n (store w)) as [t d1] eqn:U. simpl in *.
  unfold Prisma.userTag_upsert. rewrite call_reachable by exact R.
  unfold Prisma.userTagUpsert. simpl.
  destruct (Prisma.hasUserTag userId (t_id t) d1) eqn:H; simpl.
  - unfold ret. rewrite two_calls. reflexivity.
  - assert (E1 : Prisma.userExists userId d1 = true).
    { apply userExists_In. rewrite Eu. exact Hu. }
    assert (E2 : Prisma.tagExists (t_id t) d1 = true).
    { apply tagExists_In, in_map, Ht. }
    rewrite E1, E2. simpl. unfold ret. rewrite two_calls. reflexivity.
Qed.

Lemma attachDb_user (userId n : jsstring) (d : Db) :
  user (attachDb userId n d) = user d
  /\ busySlot (attachDb userId n d) = busySlot d.
Proof.
  unfold attachDb.
  destruct (tagUpsert_spec n d) as [Eu [_ [Eb _]]].
  destruct (Prisma.tagUpsert n d) as [t d1]. simpl in *.
  unfold Prisma.userTagUpsert.
  destruct (Prisma.hasUserTag userId (t_id t) d1); simpl; [tauto|].
  destruct (negb (Prisma.userExists userId d1)
            || negb (Prisma.tagExists (t_id t) d1)); simpl; tauto.
Qed.

Lemma attachAllDb_user (userId : jsstring) (names : list jsstring) (d : Db) :
  user (attachAllDb userId names d) = user d
  /\ busySlot (attachAllDb userId names d) = busySlot d.
Proof.
  revert d. induction names as [|n names IH]; intros d; simpl; [tauto|].
  destruct (IH (attachDb userId n d)) as [E1 E2].
  destruct (attachDb_user userId n d) as [E3 E4].
  unfold attachAllDb in *. simpl. rewrite E1, E2, E3, E4. tauto.
Qed.

Lemma forOf_attach_run (userId : jsstring) (names : list jsstring)
    (w : World) :
  reachable w = true -> In userId (map u_id (user (store w))) ->
  forOf names (attach userId) w
  = (Returned tt,
     advance (attachAllDb userId names (store w)) (attachCalls names) w).
Proof.
  revert w. induction names as [|n names IH]; intros w R Hu; simpl.
  - unfold ret. rewrite advance_nil. reflexivity.
  - unfold bind. rewrite attach_run by assumption.
    rewrite IH.
    + rewrite advance_advance. reflexivity.
    + exact R.
    + simpl. destruct (attachDb_user userId n (store w)) as [E _].
      rewrite E. exact Hu.
Qed.

(** What one turn leaves: possibly one new tag, named [n], under an unused
    id; possibly one new association, of the user with the tag named [n];
    and the user holds [n]. *)
Lemma attachDb_spec (userId n : jsstring) (d : Db) :
  In userId (map u_id (user d)) ->
  let d' := attachDb userId n d in
  (NoDup (map t_id (tag d)) -> NoDup (map t_id (tag d')))
  /\ (exists extra, tag d' = tag d ++ extra
                    /\ forall t, In t extra -> t_name t = n)
  /\ (exists extra, userTag d' = userTag d ++ extra
                    /\ forall r, In r extra ->
                         ut_userId r = userId
                         /\ exists t, In t (tag d') /\ t_id t = ut_tagId r
                                      /\ t_name t = n)
  /\ Spec.holdsTag d' userId n.
Proof.
  intros Hu. unfold attachDb.
  destruct (tagUpsert_spec n d) as [Eu [Er [_ [Ht [Hn Hc]]]]].
  destruct (Prisma.tagUpsert n d) as [t d1]. simpl in *.
  assert (T : (NoDup (map t_id (tag d)) -> NoDup (map t_id (tag d1)))
              /\ exists extra, tag d1 = tag d ++ extra
                               /\ forall t, In t extra -> t_name t = n).
  { destruct Hc as [[_ ->] | [E [F _]]].
    - split; [tauto|]. exists []. rewrite app_nil_r. split; [reflexivity|].
      intros ? [].
    - split.
      + intros ND. rewrite E, map_app. simpl.
        apply NoDup_app; [exact ND | repeat constructor; intros [] | ].
        intros a Ha [<- | []]. contradiction.
      + exists [t]. split; [exact E|]. intros t' [<- | []]. exact Hn. }
  unfold Prisma.userTagUpsert.
  destruct (Prisma.hasUserTag userId (t_id t) d1) eqn:H; simpl.
  - apply hasUserTag_In in H.
    split; [tauto|]. split; [tauto|]. split.
    + exists []. rewrite app_nil_r. split; [exact Er|]. intros ? [].
    + exists {| ut_userId := userId; ut_tagId := t_id t |}, t.
      repeat split; assumption.
  - assert (E1 : Prisma.userExists userId d1 = true).
    { apply userExists_In. rewrite Eu. exact Hu. }
    assert (E2 : Prisma.tagExists (t_id t) d1 = true).
    { apply tagExists_In, in_map, Ht. }
    rewrite E1, E2. simpl.
    split; [tauto|]. split; [tauto|]. split.
    + exists [{| ut_userId := userId; ut_tagId := t_id t |}].
      rewrite Er. split; [reflexivity|]. intros r [<- | []]. simpl.
      split; [reflexivity|]. exists t. repeat split; assumption.
    + exists {| ut_userId := userId; ut_tagId := t_id t |}, t. simpl.
      repeat split; try assumption. apply in_or_app. right. left. reflexivity.
Qed.

(** What the whole loop leaves. *)
Lemma attachAllDb_spec (userId : jsstring) (names : list jsstring) (d : Db) :
  In userId (map u_id (user d)) ->
  let d' := attachAllDb userId names d in
  (NoDup (map t_id (tag d)) -> NoDup (map t_id (tag d')))
  /\ (exists extra, tag d' = tag d ++ extra
                    /\ forall t, In t extra -> In (t_name t) names)
  /\ (exists extra, userTag d' = userTag d ++ extra
                    /\ forall r, In r extra ->
                         ut_userId r = userId
                         /\ exists t, In t (tag d') /\ t_id t = ut_tagId r
                                      /\ In (t_name t) names)
  /\ (forall n, In n names -> Spec.holdsTag d' userId n).
Proof.
  revert d. induction names as [|n names IH]; intros d Hu; simpl.
  - split; [tauto|]. split; [|split].
    + exists []. rewrite app_nil_r. split; [reflexivity | intros ? []].
    + exists []. rewrite app_nil_r. split; [reflexivity | intros ? []].
    + intros ? [].
  - destruct (@attachDb_spec userId n d Hu) as [N1 [[xt [T1 T2]] [[xr [R1 R2]] H1]]].
    assert (Hu' : In userId (map u_id (user (attachDb userId n d)))).
    { destruct (attachDb_user userId n d) as [E _]. rewrite E. exact Hu. }
    destruct (IH (attachDb userId n d) Hu')
      as [N2 [[yt [T3 T4]] [[yr [R3 R4]] H2]]].
    change (attachAllDb userId (n :: names) d)
      with (attachAllDb userId names (attachDb userId n d)).
    split; [tauto|]. split; [|split].
    + exists (xt ++ yt). rewrite T3, T1, app_assoc. split; [reflexivity|].
      intros t Ht. apply in_app_or in Ht. destruct Ht as [Ht | Ht].
      * left. symmetry. apply T2, Ht.
      * right. apply T4, Ht.
    + exists (xr ++ yr). rewrite R3, R1, app_assoc. split; [reflexivity|].
      intros r Hr. apply in_app_or in Hr. destruct Hr as [Hr | Hr].
      * destruct (R2 r Hr) as [E [t [Ht [Ei En]]]]. split; [exact E|].
        exists t. split; [|split; [exact Ei | left; symmetry; exact En]].
        rewrite T3. apply in_or_app. left. exact Ht.
      * destruct (R4 r Hr) as [E [t [Ht [Ei En]]]]. split; [exact E|].
        exists t. split; [exact Ht|]. split; [exact Ei | right; exact En].
    + intros m [<- | Hm]; [|apply H2, Hm].
      destruct H1 as [r [t [Hr [Er [Ht [Ei En]]]]]].
      exists r, t. split; [rewrite R3; apply in_or_app; left; exact Hr|].
      split; [exact Er|].
      split; [rewrite T3; apply in_or_app; left; exact Ht|].
      split; assumption.
Qed.

(** The tag names a view shows are the ones the user holds. *)
Lemma view_tags_hold {runtime : DateRuntime} (d : Db) (u : UserRow)
    (n : jsstring) :
  In n (tags (toApiUser (includeRelations d u)))
  <-> Spec.holdsTag d (u_id u) n.
Proof.
  simpl. rewrite in_map_iff. split.
  - intros [t [En Ht]]. apply in_flat_map in Ht. destruct Ht as [r [Hr Ht]].
    apply filter_In in Hr, Ht. destruct Hr as [Hr Eu]. destruct Ht as [Ht Ei].
    apply eqs_true in Eu, Ei. exists r, t. repeat split; assumption.
  - intros [r [t [Hr [Eu [Ht [Ei En]]]]]]. exists t. split; [exact En|].
    apply in_flat_map. exists r.
    split; apply filter_In; (split; [assumption | apply eqs_true; assumption]).
Qed.

(** ** [updateTags] *)

Lemma record_advance (c : StoreCall) (w : World) :
  record c w = advance (store w) [c] w.
Proof. reflexivity. Qed.

Lemma withStore_advance (d d1 : Db) (cs : list StoreCall) (w : World) :
  withStore d (advance d1 cs w) = advance d cs w.
Proof. reflexivity. Qed.

Lemma updateTags_run {runtime : DateRuntime} (id : jsstring)
    (input : UpdateUserTagsInput) (w : World) :
  reachable w = true -> In id (map u_id (user (store w))) ->
  let adds := normalizeTags (orEmpty (add input)) in
  let removes := normalizeTags (orEmpty (remove input)) in
  let d' := updateTagsDb id adds removes (store w) in
  exists row,
    In row (user (store w)) /\ u_id row = id
    /\ updateTags id input w
       = (Returned (toApiUser (includeRelations d' row)),
          advance d' (updateTagsCalls adds removes) w).
Proof.
  intros R Hu adds removes d'.
  destruct (find_id_some id (user (store w)) Hu) as [row [F [Ei Hr]]].
  exists row. split; [exact Hr|]. split; [exact Ei|].
  unfold updateTags, bind, transaction. rewrite R.
  fold adds. fold removes.
  unfold Prisma.user_findUnique.
  rewrite call_reachable by exact R. unfold Prisma.reading. simpl fst. simpl snd.
  change (store (record Call_transaction w)) with (store w).
  rewrite find_ById, F.
  rewrite forOf_attach_run; [|exact R|exact Hu].
  rewrite !record_advance, withStore_advance, !advance_advance.
  set (d1 := attachAllDb id adds (store w)).
  assert (F1 : forall d2, user d2 = user (store w) ->
                find (Prisma.matchesUnique (Prisma.ById id)) (user d2)
                = Some row).
  { intros d2 E. rewrite E, find_ById. exact F. }
  assert (U1 : user d1 = user (store w)) by apply attachAllDb_user.
  unfold d', updateTagsDb, updateTagsCalls. fold d1.
  destruct (0 <? List.length removes)%nat.
  - unfold Prisma.userTag_deleteMany_named.
    rewrite call_reachable by exact R. unfold Prisma.writing. simpl fst. simpl snd.
    rewrite !record_advance, withStore_advance, !advance_advance.
    unfold Prisma.user_findUniqueOrThrow_include.
    rewrite call_reachable by exact R. simpl store.
    rewrite F1 by exact U1. simpl fst. simpl snd.
    rewrite !record_advance, withStore_advance, !advance_advance.
    unfold ret. simpl app. rewrite <- app_assoc. reflexivity.
  - unfold ret at 1.
    unfold Prisma.user_findUniqueOrThrow_include.
    rewrite call_reachable by exact R. simpl store.
    rewrite F1 by exact U1. simpl fst. simpl snd.
    rewrite !record_advance, withStore_advance, !advance_advance.
    unfold ret. simpl app. reflexivity.
Qed.

(** *** Detaching by name *)

Lemma deleteNamed_tables (id : jsstring) (names : list jsstring) (d : Db) :
  user (Prisma.userTagDeleteManyNamed id names d) = user d
  /\ tag (Prisma.userTagDeleteManyNamed id names d) = tag d
  /\ busySlot (Prisma.userTagDeleteManyNamed id names d) = busySlot d.
Proof. repeat split. Qed.





Lemma NoDup_map_inj {A B} (f : A -> B) (l : list A) (x y : A) :
  NoDup (map f l) -> In x l -> In y l -> f x = f y -> x = y.
Proof.
  induction l as [|a l IH]; simpl; intros ND Hx Hy E; [contradiction|].
  inversion ND as [|? ? Hn ND']; subst.
  destruct Hx as [-> | Hx], Hy as [-> | Hy].
  - reflexivity.
  - exfalso. apply Hn. rewrite E. apply in_map, Hy.
  - exfalso. apply Hn. rewrite <- E. apply in_map, Hx.
  - apply IH; assumption.
Qed.



Section TagUpdates.

Context {runtime : DateRuntime}.




End TagUpdates.

(** ** [create] on an email already stored *)

Lemma find_unique_key {K} (key : UserRow -> K) (eqb : K -> K -> bool)
    (l : list UserRow) (e : UserRow) :
  (forall a b, eqb a b = true <-> a = b) ->
  NoDup (map key l) -> In e l ->
  find (fun u => eqb (key u) (key e)) l = Some e.
Proof.
  intros Heq ND Hin.
  destruct (find (fun u => eqb (key u) (key e)) l) as [u|] eqn:F.
  - apply find_some in F. destruct F as [Hu E]. apply Heq in E.
    f_equal. apply (NoDup_map_inj key l); assumption.
  - exfalso. pose proof (find_none _ _ F e Hin) as N. simpl in N.
    assert (T : eqb (key e) (key e) = true) by (apply Heq; reflexivity).
    congruence.
Qed.

Lemma blank_false (v : option jsstring) :
  blank v = false -> exists s, v = Some s.
Proof. destruct v as [s|]; [exists s; reflexivity | discriminate]. Qed.

(** *** Running sequenced calls *)

Lemma bind_returned {A B} (m : Async A) (k : A -> Async B) (w w1 : World)
    (a : A) :
  m w = (Returned a, w1) -> bind m k w = k a w1.
Proof. intros E. unfold bind. rewrite E. reflexivity. Qed.

Lemma bind_thrown {A B} (m : Async A) (k : A -> Async B) (w w1 : World)
    (e : Exception) :
  m w = (Thrown e, w1) -> bind m k w = (Thrown e, w1).
Proof. intros E. unfold bind. rewrite E. reflexivity. Qed.

Lemma tryCatch_thrown {A} (m : Async A) (h : Exception -> Async A)
    (w w1 : World) (e : Exception) :
  m w = (Thrown e, w1) -> tryCatch m h w = h e w1.
Proof. intros E. unfold tryCatch. rewrite E. reflexivity. Qed.

Lemma transaction_returned {A} (body : Async A) (w w2 : World) (a : A) :
  reachable w = true ->
  body (advance (store w) [Call_transaction] w) = (Returned a, w2) ->
  transaction body w = (Returned a, w2).
Proof.
  intros R E. unfold transaction. rewrite R, record_advance, E. reflexivity.
Qed.

Lemma writing_run (c : StoreCall) (f : Db -> Db) (w : World) :
  reachable w = true ->
  call c (Prisma.writing f) w = (Returned tt, advance (f (store w)) [c] w).
Proof. intros R. rewrite call_reachable by exact R. reflexivity. Qed.

Lemma reading_run {A} (c : StoreCall) (f : Db -> A) (w : World) :
  reachable w = true ->
  call c (Prisma.reading f) w = (Returned (f (store w)), advance (store w) [c] w).
Proof. intros R. rewrite call_reachable by exact R. reflexivity. Qed.

Lemma create_reset_run {runtime : DateRuntime} (suffix : jsstring)
    (input : CreateUserInput) (input_name : jsstring) (e : UserRow)
    (w : World) :
  reachable w = true -> consistent (store w) ->
  c_name input = Some input_name -> blank (c_name input) = false ->
  blank (c_email input) = false ->
  In e (user (store w)) -> c_email input = Some (u_email e) ->
  let tagNames := normalizeTags (orEmpty (c_tags input)) in
  let d' := resetDb e input_name input tagNames (now w) (store w) in
  create suffix input w
  = (Returned (toApiUser
                 (includeRelations d' (resetRow e input_name input (now w)))),
     advance d' (resetCalls tagNames) w).
Proof.
  intros R C En Bn Be Hin Ee tagNames d'.
  unfold create. rewrite Bn, Be, En, Ee. fold tagNames.
  (* the insert fails on the unique index *)
  assert (H1 : Prisma.user_create (generateUserId suffix) input_name
                 (u_email e) (c_phone input) tagNames w
               = (Thrown P2002, advance (store w) [Call_user_create] w)).
  { unfold Prisma.user_create. rewrite call_reachable by exact R.
    unfold Prisma.userCreate.
    assert (X : existsb (fun u => eqs (u_id u) (generateUserId suffix)
                                  || eqs (u_email u) (u_email e))
                  (user (store w)) = true).
    { apply existsb_exists. exists e. split; [exact Hin|].
      rewrite eqs_refl. apply orb_true_r. }
    rewrite X. reflexivity. }
  erewrite tryCatch_thrown by (apply bind_thrown; exact H1).
  change (negb (isP2002 P2002)) with false. cbv iota.
  (* the stored user is found by email *)
  assert (Fe : find (Prisma.matchesUnique (Prisma.ByEmail (u_email e)))
                 (user (store w)) = Some e).
  { apply (find_unique_key u_email eqs); [apply eqs_true | apply C | exact Hin]. }
  erewrite bind_returned
    by (unfold Prisma.user_findUnique_include; apply reading_run; exact R).
  rewrite !store_advance, Fe. cbn [option_map]. cbv beta iota.
  change (p_user (includeRelations (store w) e)) with e.
  rewrite advance_advance.
  (* the transaction *)
  set (w2 := advance (store w) ([Call_user_create] ++ [Call_user_findUnique]) w).
  assert (R2 : reachable w2 = true) by exact R.
  assert (Fi : forall d2, user d2 = user (store w) ->
                 find (fun u => eqs (u_id u) (u_id e)) (user d2) = Some e).
  { intros d2 E. rewrite E.
    apply (find_unique_key u_id eqs); [apply eqs_true | apply C | exact Hin]. }
  set (d3 := resetCleared e tagNames (store w)).
  assert (U3 : user d3 = user (store w)).
  { unfold d3, resetCleared.
    destruct (attachAllDb_user (u_id e) tagNames
                (Prisma.userTagDeleteMany (u_id e)
                   (Prisma.busySlotDeleteMany (u_id e) (store w)))) as [E _].
    rewrite E. reflexivity. }
  erewrite bind_returned; [unfold ret; reflexivity|].
  apply transaction_returned; [exact R2|].
  erewrite bind_returned
    by (unfold Prisma.busySlot_deleteMany; apply writing_run; exact R).
  erewrite bind_returned
    by (unfold Prisma.userTag_deleteMany; apply writing_run; exact R).
  erewrite bind_returned
    by (apply forOf_attach_run; [exact R | apply in_map; exact Hin]).
  unfold Prisma.user_update. rewrite call_reachable by exact R.
  subst w2.
  rewrite !record_advance, !advance_advance, !store_advance, !now_advance.
  fold (resetCleared e tagNames (store w)). fold d3.
  unfold Prisma.userUpdate. rewrite (Fi d3 U3). simpl Prisma.data_email.
  cbv iota. simpl fst. simpl snd.
  rewrite withStore_advance. unfold resetCalls. simpl app.
  reflexivity.
Qed.


Lemma holdsTag_same_tables (d d' : Db) (uid n : jsstring) :
  userTag d' = userTag d -> tag d' = tag d ->
  Spec.holdsTag d' uid n <-> Spec.holdsTag d uid n.
Proof. intros E1 E2. unfold Spec.holdsTag. rewrite E1, E2. reflexivity. Qed.

Section Create.

Context {runtime : DateRuntime}.


End Create.

(** ** Checking consistency of a store given in full *)

Lemma distinct_NoDup {A} (eqb : A -> A -> bool) (l : list A) :
  (forall a b, eqb a b = true <-> a = b) ->
  distinct eqb l = true -> NoDup l.
Proof.
  intros Heq. induction l as [|x l IH]; simpl; intros H; constructor.
  - apply andb_true_iff in H. destruct H as [H _].
    apply negb_true_iff in H. intros Hin.
    assert (T : existsb (eqb x) l = true).
    { apply existsb_exists. exists x. split; [exact Hin | apply Heq; reflexivity]. }
    congruence.
  - apply IH. apply andb_true_iff in H. tauto.
Qed.

Lemma covered_In (x : jsstring) (l : list jsstring) :
  existsb (eqs x) l = true -> In x l.
Proof. apply existsb_eqs. Qed.

Lemma consistentb_sound (d : Db) : consistentb d = true -> consistent d.
Proof.
  unfold consistentb. rewrite !andb_true_iff.
  intros [[[[[[[[H1 H2] H3] H4] H5] H6] H7] H8] H9].
  constructor.
  - apply (distinct_NoDup eqs); [apply eqs_true | exact H1].
  - apply (distinct_NoDup eqs); [apply eqs_true | exact H2].
  - apply (distinct_NoDup eqs); [apply eqs_true | exact H3].
  - apply (distinct_NoDup eqs); [apply eqs_true | exact H4].
  - apply (distinct_NoDup
             (fun a b => eqs (fst a) (fst b) && eqs (snd a) (snd b)));
      [|exact H5].
    intros [a1 a2] [b1 b2]. simpl. rewrite andb_true_iff, !eqs_true.
    split; [intros [-> ->]; reflexivity | intros E; injection E; tauto].
  - apply (distinct_NoDup eqs); [apply eqs_true | exact H6].
  - intros r Hr. rewrite forallb_forall in H7. apply covered_In, H7, Hr.
  - intros r Hr. rewrite forallb_forall in H8. apply covered_In, H8, Hr.
  - intros s Hs. rewrite forallb_forall in H9. apply covered_In, H9, Hs.
Qed.

(** ** Concrete runs of the user operations *)

Example registered_runs :
  map u_id (user (store Sample.registered))
  = [Sample.u1; Sample.u2; Sample.u3; Sample.u4]
  /\ In Sample.row4 (user (store Sample.registered))
  /\ map t_name (tag (store Sample.registered))
     = [lit "backend"; lit "frontend"; lit "ops"]
  /\ List.length (busySlot (store Sample.registered)) = 4%nat
  /\ consistentb (store Sample.registered) = true.
Proof. vm_compute. repeat split. right. right. right. left. reflexivity. Qed.

Example create_reset_runs :
  match fst (create (runtime := Sample.runtime) (lit "eeeeeeee")
               Sample.secondInput Sample.registered) with
  | Returned v =>
      id v = Sample.u4 /\ name v = lit "New Name"
      /\ email v = lit "dup@example.com"
      /\ phone v = Some (lit "555-0100")
      /\ tags v = [lit "backend"; lit "sre"] /\ busy v = []
  | Thrown _ => False
  end.
Proof. vm_compute. repeat split. Qed.



Lemma notIn_intro (x : jsstring) (l : list jsstring) :
  existsb (eqs x) l = false -> ~ In x l.
Proof. intros H Hin. apply existsb_eqs in Hin. congruence. Qed.

Lemma delete_reports_not_found_witness :
  Prisma.user_delete Sample.u1 (Sample.offline Sample.board)
  = (Thrown P1001,
     record Call_user_delete (Sample.offline Sample.board))
  /\ delete Sample.u1 (Sample.offline Sample.board)
     = (Thrown (NotFoundException "user not found"),
        record Call_user_delete (Sample.offline Sample.board))
  /\ delete (lit "usr_zzzzzzzz") Sample.board
     = (Thrown (NotFoundException "user not found"),
        record Call_user_delete Sample.board).
Proof.
  destruct (delete_reports_not_found Sample.u1 (Sample.offline Sample.board))
    as [_ [_ Off]].
  destruct (delete_reports_not_found (lit "usr_zzzzzzzz") Sample.board)
    as [_ [Missing _]].
  destruct (Off eq_refl) as [E1 E2].
  destruct Missing as [_ E3]; [reflexivity | |].
  - apply notIn_intro. vm_compute. reflexivity.
  - split; [exact E1|]. split; [exact E2 | exact E3].
Defined.




Example updateTags_runs :
  match fst (updateTags (runtime := Sample.runtime) Sample.u2 Sample.swapTags
               Sample.board) with
  | Returned u => tags u = [lit "backend"]
  | Thrown _ => False
  end
  /\ map t_name
       (tag (store (Sample.after
                      (updateTags (runtime := Sample.runtime) Sample.u2
                         Sample.swapTags) Sample.board)))
     = [lit "backend"; lit "frontend"; lit "oncall"].
Proof. vm_compute. split; reflexivity. Qed.

(** ** The store stays consistent

    Every client call keeps the constraints of the migration, so every
    service call does, whatever its outcome. *)

Lemma filter_keeps_keys_distinct {R K} (key : R -> K) (keep : R -> bool)
    (rows : list R) :
  NoDup (map key rows) -> NoDup (map key (filter keep rows)).
Proof.
  intros ND. induction rows as [|r rows IH]; simpl in *; [constructor|].
  inversion ND as [|? ? Hn ND']; subst.
  destruct (keep r); simpl; [constructor|]; auto.
  intros Hin. apply Hn. apply in_map_iff in Hin.
  destruct Hin as [y [E Hy]]. apply filter_In in Hy.
  rewrite <- E. apply in_map. tauto.
Qed.

Lemma NoDup_map_snoc {A B} (f : A -> B) (l : list A) (x : A) :
  NoDup (map f l) -> ~ In (f x) (map f l) -> NoDup (map f (l ++ [x])).
Proof.
  intros ND Hn. rewrite map_app. simpl.
  apply NoDup_app; [exact ND | repeat constructor; intros [] |].
  intros a Ha [<- | []]. contradiction.
Qed.

Lemma in_map_snoc {A B} (f : A -> B) (l : list A) (x : A) (b : B) :
  In b (map f l) -> In b (map f (l ++ [x])).
Proof. intros H. rewrite map_app. apply in_or_app. left. exact H. Qed.

Lemma tagUpsert_consistent (n : jsstring) (d : Db) :
  consistent d -> consistent (snd (Prisma.tagUpsert n d)).
Proof.
  intros C. destruct (tagUpsert_spec n d) as [Eu [Er [Eb [_ [En H]]]]].
  destruct H as [[_ ->] | [Et [Hid Hname]]]; [exact C|].
  destruct C. constructor; rewrite ?Eu, ?Er, ?Eb, ?Et; try assumption.
  - apply NoDup_map_snoc; assumption.
  - apply NoDup_map_snoc; [assumption | rewrite En; exact Hname].
  - intros r Hr. apply in_map_snoc. auto.
Qed.

Lemma userTagUpsert_consistent (userId tagId : jsstring) (d : Db) :
  consistent d -> consistent (snd (Prisma.userTagUpsert userId tagId d)).
Proof.
  intros C. unfold Prisma.userTagUpsert.
  destruct (Prisma.hasUserTag userId tagId d) eqn:H; [exact C|].
  destruct (Prisma.userExists userId d) eqn:Hu; [|exact C].
  destruct (Prisma.tagExists tagId d) eqn:Ht; [|exact C].
  simpl. apply userExists_In in Hu. apply tagExists_In in Ht.
  destruct C. constructor; simpl; try assumption.
  - apply (NoDup_map_snoc (fun r => (ut_userId r, ut_tagId r)));
      [assumption|].
    simpl. intros Hin. apply in_map_iff in Hin.
    destruct Hin as [[a b] [E Hr]]. simpl in E. injection E as -> ->.
    apply hasUserTag_In in Hr. congruence.
  - intros r Hr. apply in_app_or in Hr.
    destruct Hr as [Hr | [<- | []]]; auto.
  - intros r Hr. apply in_app_or in Hr.
    destruct Hr as [Hr | [<- | []]]; auto.
Qed.

Lemma attachDb_consistent (userId n : jsstring) (d : Db) :
  consistent d -> consistent (attachDb userId n d).
Proof.
  intros C. unfold attachDb.
  pose proof (tagUpsert_consistent n C) as C1.
  destruct (Prisma.tagUpsert n d) as [t d1]. simpl in C1.
  apply userTagUpsert_consistent, C1.
Qed.

Lemma filtered_consistent (d : Db) (pu : UserRow -> bool)
    (pr : UserTagRow -> bool) (ps : BusySlotRow -> bool) :
  consistent d ->
  (forall r, In r (userTag d) -> pr r = true ->
             In (ut_userId r) (map u_id (filter pu (user d)))) ->
  (forall s, In s (busySlot d) -> ps s = true ->
             In (b_userId s) (map u_id (filter pu (user d)))) ->
  consistent {| user := filter pu (user d); tag := tag d;
                userTag := filter pr (userTag d);
                busySlot := filter ps (busySlot d) |}.
Proof.
  intros C Hr Hs. destruct C. constructor; simpl;
    try (apply filter_keeps_keys_distinct; assumption); try assumption.
  - intros r H. apply filter_In in H. apply Hr; tauto.
  - intros r H. apply filter_In in H. apply UserTag_tagId_fkey0. tauto.
  - intros s H. apply filter_In in H. apply Hs; tauto.
Qed.

Lemma filter_true {A} (l : list A) : filter (fun _ => true) l = l.
Proof. apply filter_all. reflexivity. Qed.

(** Deleting associations or busy slots only. *)
Lemma rows_filtered_consistent (d : Db) (pr : UserTagRow -> bool)
    (ps : BusySlotRow -> bool) :
  consistent d ->
  consistent {| user := user d; tag := tag d;
                userTag := filter pr (userTag d);
                busySlot := filter ps (busySlot d) |}.
Proof.
  intros C.
  pose proof (@filtered_consistent d (fun _ => true) pr ps C) as H.
  rewrite filter_true in H. apply H; intros; apply C; assumption.
Qed.

Lemma busySlotDeleteMany_consistent (id : jsstring) (d : Db) :
  consistent d -> consistent (Prisma.busySlotDeleteMany id d).
Proof.
  intros C.
  pose proof (@rows_filtered_consistent d (fun _ => true)
                (fun s => negb (eqs (b_userId s) id)) C) as H.
  rewrite filter_true in H. exact H.
Qed.

Lemma userTagDeleteMany_consistent (id : jsstring) (d : Db) :
  consistent d -> consistent (Prisma.userTagDeleteMany id d).
Proof.
  intros C.
  pose proof (@rows_filtered_consistent d
                (fun r => negb (eqs (ut_userId r) id)) (fun _ => true) C) as H.
  rewrite filter_true in H. exact H.
Qed.

Lemma userTagDeleteManyNamed_consistent (id : jsstring)
    (names : list jsstring) (d : Db) :
  consistent d -> consistent (Prisma.userTagDeleteManyNamed id names d).
Proof.
  intros C.
  pose proof (@rows_filtered_consistent d
                (fun r => negb (dropped id names d r)) (fun _ => true) C) as H.
  rewrite filter_true in H. exact H.
Qed.

Lemma userDelete_consistent (id : jsstring) (d : Db) :
  consistent d -> consistent (snd (Prisma.userDelete id d)).
Proof.
  intros C. unfold Prisma.userDelete.
  destruct (find (fun u => eqs (u_id u) id) (user d)) as [found|];
    [|exact C]. simpl.
  apply filtered_consistent; [exact C | |].
  - intros r Hr Hp. apply negb_true_iff in Hp.
    destruct C. specialize (UserTag_userId_fkey0 r Hr).
    apply in_map_iff in UserTag_userId_fkey0.
    destruct UserTag_userId_fkey0 as [u [E Hu]].
    apply in_map_iff. exists u. split; [exact E|].
    apply filter_In. split; [exact Hu|]. rewrite E, Hp. reflexivity.
  - intros s Hs Hp. apply negb_true_iff in Hp.
    destruct C. specialize (BusySlot_userId_fkey0 s Hs).
    apply in_map_iff in BusySlot_userId_fkey0.
    destruct BusySlot_userId_fkey0 as [u [E Hu]].
    apply in_map_iff. exists u. split; [exact E|].
    apply filter_In. split; [exact Hu|]. rewrite E, Hp. reflexivity.
Qed.

Lemma busySlotCreate_consistent {runtime : DateRuntime} (id : jsstring)
    (from to : Z) (reason : option jsstring) (now : Z) (d : Db) :
  consistent d ->
  consistent (snd (Prisma.busySlotCreate id from to reason now d)).
Proof.
  intros C. unfold Prisma.busySlotCreate.
  destruct (Timestamp_fits from && Timestamp_fits to); [|exact C]. simpl.
  destruct (Prisma.userExists id d) eqn:Hu; [|exact C]. simpl.
  apply userExists_In in Hu.
  destruct C. constructor; simpl; try assumption.
  - apply NoDup_map_snoc; [assumption | apply freshId_fresh].
  - intros s Hs. apply in_app_or in Hs.
    destruct Hs as [Hs | [<- | []]]; auto.
Qed.

Lemma existsb_false {A} (f : A -> bool) (l : list A) (x : A) :
  existsb f l = false -> In x l -> f x = false.
Proof.
  intros H Hx. destruct (f x) eqn:E; [|reflexivity].
  assert (existsb f l = true) by (apply existsb_exists; exists x; tauto).
  congruence.
Qed.

Lemma createUserTags_consistent (userId : jsstring) (names : list jsstring)
    (d d2 : Db) :
  consistent d -> In userId (map u_id (user d)) ->
  Prisma.createUserTags userId names d = inr d2 -> consistent d2.
Proof.
  revert d. induction names as [|n names IH]; simpl; intros d C Hu E.
  - injection E as <-. exact C.
  - pose proof (tagUpsert_consistent n C) as C1.
    destruct (tagUpsert_spec n d) as [Eu [_ [_ [Ht _]]]].
    destruct (Prisma.tagUpsert n d) as [t d1]. simpl in *.
    destruct (Prisma.hasUserTag userId (t_id t) d1) eqn:H; [discriminate|].
    apply IH in E; [exact E | | simpl; rewrite Eu; exact Hu].
    pose proof (userTagUpsert_consistent userId (t_id t) C1) as C2.
    unfold Prisma.userTagUpsert in C2. rewrite H in C2.
    assert (E1 : Prisma.userExists userId d1 = true)
      by (apply userExists_In; rewrite Eu; exact Hu).
    assert (E2 : Prisma.tagExists (t_id t) d1 = true)
      by (apply tagExists_In, in_map, Ht).
    rewrite E1, E2 in C2. exact C2.
Qed.

Lemma userCreate_consistent (id name email : jsstring)
    (phone : option jsstring) (tagNames : list jsstring) (now : Z) (d : Db) :
  consistent d ->
  consistent (snd (Prisma.userCreate id name email phone tagNames now d)).
Proof.
  intros C. unfold Prisma.userCreate.
  destruct (existsb _ (user d)) eqn:X; [exact C|].
  set (u := {| u_id := id; u_name := name; u_email := email; u_phone := phone;
               u_createdAt := now; u_updatedAt := now |}).
  destruct (Prisma.createUserTags id tagNames
              (Prisma.setUser (user d ++ [u]) d)) as [e | d2] eqn:E;
    [exact C|]. simpl.
  apply (createUserTags_consistent id tagNames
           (d := Prisma.setUser (user d ++ [u]) d)); [| |exact E].
  - assert (N : forall v, In v (user d) -> u_id v <> id /\ u_email v <> email).
    { intros v Hv.
      pose proof (existsb_false _ _ v X Hv) as F. simpl in F.
      apply orb_false_iff in F. destruct F as [F1 F2].
      split; intros G; apply eqs_true in G; congruence. }
    destruct C. constructor; simpl; try assumption.
    + apply NoDup_map_snoc; [assumption|]. intros Hin.
      apply in_map_iff in Hin. destruct Hin as [v [Ev Hv]].
      apply (proj1 (N v Hv)). exact Ev.
    + apply NoDup_map_snoc; [assumption|]. intros Hin.
      apply in_map_iff in Hin. destruct Hin as [v [Ev Hv]].
      apply (proj2 (N v Hv)). exact Ev.
    + intros r Hr. apply in_map_snoc. auto.
    + intros s Hs. apply in_map_snoc. auto.
  - simpl. rewrite map_app. apply in_or_app. right. left. reflexivity.
Qed.

(** Replacing the row of one id by a row of the same id, whose email no
    other row has. *)
Lemma replaced_rows (l : list UserRow) (u0 u1 : UserRow) :
  NoDup (map u_id l) -> NoDup (map u_email l) -> In u0 l ->
  u_id u1 = u_id u0 ->
  (forall u, In u l -> u_id u <> u_id u0 -> u_email u <> u_email u1) ->
  let l' := map (fun u => if eqs (u_id u) (u_id u0) then u1 else u) l in
  map u_id l' = map u_id l /\ NoDup (map u_email l').
Proof.
  intros NI NE Hin Eid Hother l'. subst l'. split.
  - clear NI NE Hin Hother. induction l as [|x l IH]; simpl; [reflexivity|].
    rewrite IH. f_equal. destruct (eqs (u_id x) (u_id u0)) eqn:E;
      [|reflexivity].
    apply eqs_true in E. congruence.
  - assert (Unch : forall l0, ~ In (u_id u0) (map u_id l0) ->
              map (fun u => if eqs (u_id u) (u_id u0) then u1 else u) l0 = l0).
    { induction l0 as [|x l0 IH0]; simpl; intros Hn; [reflexivity|].
      rewrite IH0 by tauto.
      destruct (eqs (u_id x) (u_id u0)) eqn:E; [|reflexivity].
      apply eqs_true in E. exfalso. apply Hn. left. exact E. }
    induction l as [|x l IH]; simpl; [constructor|].
    simpl in NI, NE. inversion NI as [|? ? Hni NI']; subst.
    inversion NE as [|? ? Hne NE']; subst.
    destruct (eqs (u_id x) (u_id u0)) eqn:E.
    + apply eqs_true in E. rewrite Unch by (rewrite <- E; exact Hni).
      constructor; [|exact NE'].
      intros H. apply in_map_iff in H. destruct H as [v [Ev Hv]].
      apply (Hother v); [right; exact Hv | | exact Ev].
      intros F. apply Hni. rewrite E, <- F. apply in_map, Hv.
    + assert (Hx : u_id x <> u_id u0)
        by (intros F; apply eqs_true in F; congruence).
      destruct Hin as [-> | Hin]; [congruence|].
      constructor.
      * intros H. apply in_map_iff in H. destruct H as [v [Ev Hv]].
        apply in_map_iff in Hv. destruct Hv as [v0 [Ev0 Hv0]].
        destruct (eqs (u_id v0) (u_id u0)); subst v.
        -- apply (Hother x); [left; reflexivity | exact Hx | ].
           symmetry. exact Ev.
        -- apply Hne. rewrite <- Ev. apply in_map, Hv0.
      * apply IH; try assumption.
        intros u Hu. apply Hother. right. exact Hu.
Qed.

Lemma userUpdate_consistent (id : jsstring) (data : Prisma.UserUpdateData)
    (now : Z) (d : Db) :
  consistent d -> consistent (snd (Prisma.userUpdate id data now d)).
Proof.
  intros C. unfold Prisma.userUpdate.
  destruct (find (fun u => eqs (u_id u) id) (user d)) as [u0|] eqn:F;
    [|exact C].
  apply find_some in F. destruct F as [Hin Eid]. apply eqs_true in Eid.
  destruct (match Prisma.data_email data with
            | Some e => existsb _ (user d)
            | None => false
            end) eqn:T; [exact C|]. simpl.
  assert (Other : forall u, In u (user d) -> u_id u <> u_id u0 ->
                    u_email u <> u_email (Prisma.applyUpdate data now u0)).
  { intros u Hu Hne. simpl. destruct (Prisma.data_email data) as [e|].
    - pose proof (existsb_false _ _ u T Hu) as G. simpl in G.
      intros Ee. apply andb_false_iff in G. destruct G as [G | G].
      + assert (eqs (u_email u) e = true) by (apply eqs_true; exact Ee).
        congruence.
      + apply negb_false_iff, eqs_true in G. congruence.
    - intros Ee. apply Hne. f_equal.
      apply (NoDup_map_inj u_email (user d)); try assumption. apply C. }
  destruct (@replaced_rows (user d) u0 (Prisma.applyUpdate data now u0))
    as [Ids Emails]; try (apply C); try assumption; [reflexivity|].
  rewrite <- Eid in *.
  destruct C. constructor; simpl; try assumption.
  - rewrite Ids. assumption.
  - intros r Hr. rewrite Ids. auto.
  - intros s Hs. rewrite Ids. auto.
Qed.

Lemma preserves_ret {A} (a : A) : preserves (ret a).
Proof. intros w o w1 C E. injection E as _ <-. exact C. Qed.

Lemma preserves_throw {A} (e : Exception) : preserves (@throw A e).
Proof. intros w o w1 C E. injection E as _ <-. exact C. Qed.

Lemma preserves_bind {A B} (m : Async A) (k : A -> Async B) :
  preserves m -> (forall a, preserves (k a)) -> preserves (bind m k).
Proof.
  intros Hm Hk w o w1 C E. unfold bind in E.
  destruct (m w) as [[a | e] w0] eqn:M.
  - apply (Hk a w0 o w1); [apply (Hm _ _ _ C M) | exact E].
  - injection E as _ <-. apply (Hm _ _ _ C M).
Qed.

Lemma preserves_tryCatch {A} (m : Async A) (h : Exception -> Async A) :
  preserves m -> (forall e, preserves (h e)) -> preserves (tryCatch m h).
Proof.
  intros Hm Hh w o w1 C E. unfold tryCatch in E.
  destruct (m w) as [[a | e] w0] eqn:M.
  - injection E as _ <-. apply (Hm _ _ _ C M).
  - apply (Hh e w0 o w1); [apply (Hm _ _ _ C M) | exact E].
Qed.

Lemma preserves_transaction {A} (body : Async A) :
  preserves body -> preserves (transaction body).
Proof.
  intros Hb w o w1 C E. unfold transaction in E.
  destruct (reachable w); [|injection E as _ <-; exact C].
  destruct (body (record Call_transaction w)) as [[a | e] w0] eqn:M.
  - injection E as _ <-. apply (Hb (record Call_transaction w) _ _ C M).
  - injection E as _ <-. exact C.
Qed.

Lemma preserves_call {A} (c : StoreCall) (f : Z -> Db -> Outcome A * Db) :
  (forall t d, consistent d -> consistent (snd (f t d))) ->
  preserves (call c f).
Proof.
  intros Hf w o w1 C E. unfold call in E.
  destruct (reachable w); [|injection E as _ <-; exact C].
  specialize (Hf (now w) (store w) C).
  destruct (f (now w) (store w)) as [r d]. injection E as _ <-. exact Hf.
Qed.

Lemma preserves_forOf {A} (l : list A) (body : A -> Async unit) :
  (forall x, preserves (body x)) -> preserves (forOf l body).
Proof.
  intros Hb. induction l as [|x l IH]; simpl.
  - apply preserves_ret.
  - apply preserves_bind; [apply Hb | intros _; exact IH].
Qed.

Ltac preserved_by known :=
  repeat first
    [ known
    | apply preserves_ret
    | apply preserves_throw
    | apply preserves_bind; [|intros ?]
    | apply preserves_tryCatch; [|intros ?]
    | apply preserves_transaction
    | apply preserves_forOf; intros ?
    | apply preserves_call; intros ? ? ?
    | match goal with
      | |- preserves (if ?b then _ else _) => destruct b
      | |- preserves (match ?x with _ => _ end) => destruct x
      end ].

Ltac preserved := preserved_by fail.

Section Invariant.

Context {runtime : DateRuntime}.

Lemma parseIsoDate_preserves (v : option jsstring) (field : string) :
  preserves (parseIsoDate v field).
Proof. unfold parseIsoDate. preserved. Qed.

Lemma attach_preserves (userId n : jsstring) : preserves (attach userId n).
Proof.
  unfold attach, Prisma.tag_upsert, Prisma.userTag_upsert. preserved.
  - pose proof (@tagUpsert_consistent n d H) as C.
    destruct (Prisma.tagUpsert n d). exact C.
  - apply userTagUpsert_consistent. assumption.
Qed.

(** The constraints of the migration are an invariant of the five service
    calls, whatever their arguments and whatever their outcome. *)
Theorem services_keep_the_store_consistent :
  (forall input, preserves (getFreeUsers input))
  /\ (forall suffix input, preserves (create suffix input))
  /\ (forall id, preserves (delete id))
  /\ (forall id input, preserves (updateTags id input))
  /\ (forall id input, preserves (markBusy id input)).
Proof.
  split; [|split; [|split; [|split]]].
  - intros input. unfold getFreeUsers, Prisma.user_findMany, Prisma.reading.
    preserved_by ltac:(apply parseIsoDate_preserves). assumption.
  - intros suffix input.
    unfold create, Prisma.user_create, Prisma.user_findUnique_include,
      Prisma.busySlot_deleteMany, Prisma.userTag_deleteMany,
      Prisma.user_update, Prisma.reading, Prisma.writing.
    preserved_by ltac:(apply attach_preserves); try assumption.
    + apply userCreate_consistent. assumption.
    + apply busySlotDeleteMany_consistent. assumption.
    + apply userTagDeleteMany_consistent. assumption.
    + apply userUpdate_consistent. assumption.
  - intros id. unfold delete, Prisma.user_delete. preserved.
    apply userDelete_consistent. assumption.
  - intros id input.
    unfold updateTags, Prisma.user_findUnique,
      Prisma.userTag_deleteMany_named,
      Prisma.user_findUniqueOrThrow_include, Prisma.reading, Prisma.writing.
    preserved_by ltac:(apply attach_preserves); try assumption.
    + apply userTagDeleteManyNamed_consistent. assumption.
    + destruct (find _ (user d)); assumption.
  - intros id input.
    unfold markBusy, Prisma.user_findUnique, Prisma.busySlot_create,
      Prisma.reading.
    preserved_by ltac:(apply parseIsoDate_preserves); try assumption.
    apply busySlotCreate_consistent. assumption.
Qed.

End Invariant.

(** * More of the services

    ** Trimming and [normalizeTags] *)

Lemma trimStart_head (s : jsstring) (c : N) (r : jsstring) :
  trimStart s = c :: r -> isWhiteSpace c = false.
Proof.
  induction s as [|x s IH]; simpl; [discriminate|].
  destruct (isWhiteSpace x) eqn:W; [exact IH|].
  intros E. injection E as <- _. exact W.
Qed.

Lemma trimStart_fixed (s : jsstring) : trimStart (trimStart s) = trimStart s.
Proof.
  induction s as [|x s IH]; simpl; [reflexivity|].
  destruct (isWhiteSpace x) eqn:W; [exact IH|]. simpl. rewrite W. reflexivity.
Qed.

Lemma trimStart_snoc (l : jsstring) (c : N) :
  isWhiteSpace c = false -> trimStart (l ++ [c]) = trimStart l ++ [c].
Proof.
  intros W. induction l as [|x l IH]; simpl; [rewrite W; reflexivity|].
  destruct (isWhiteSpace x); [exact IH | reflexivity].
Qed.

Lemma trimEnd_cons (c : N) (r : jsstring) :
  isWhiteSpace c = false -> trimEnd (c :: r) = c :: trimEnd r.
Proof.
  intros W. unfold trimEnd. simpl.
  rewrite trimStart_snoc by exact W. rewrite rev_app_distr. reflexivity.
Qed.

Lemma trimEnd_fixed (s : jsstring) : trimEnd (trimEnd s) = trimEnd s.
Proof. unfold trimEnd. rewrite rev_involutive, trimStart_fixed. reflexivity. Qed.

(** [trim] leaves no white space at either end, and trimming again changes
    nothing. *)
Lemma trim_edges (s : jsstring) (c : N) :
  (hd_error (trim s) = Some c -> isWhiteSpace c = false)
  /\ (hd_error (rev (trim s)) = Some c -> isWhiteSpace c = false).
Proof.
  unfold trim. split.
  - destruct (trimStart s) as [|x r] eqn:T; [discriminate|].
    pose proof (trimStart_head s T) as W.
    rewrite trimEnd_cons by exact W. simpl. intros E. injection E as <-.
    exact W.
  - unfold trimEnd. rewrite rev_involutive.
    destruct (trimStart (rev (trimStart s))) as [|x r] eqn:T; [discriminate|].
    simpl. intros E. injection E as <-. apply (trimStart_head _ T).
Qed.

Lemma trim_fixed (s : jsstring) : trim (trim s) = trim s.
Proof.
  unfold trim. destruct (trimStart s) as [|x r] eqn:T; [reflexivity|].
  pose proof (trimStart_head s T) as W.
  rewrite trimEnd_cons by exact W. simpl. rewrite W.
  rewrite trimEnd_cons by exact W. rewrite trimEnd_fixed. reflexivity.
Qed.

Lemma keepFirst_fixed (l : list jsstring) :
  NoDup l -> TagSpec.keepFirst l = l.
Proof.
  induction l as [|x l IH]; simpl; intros ND; [reflexivity|].
  inversion ND as [|? ? Hn ND']; subst. rewrite IH by exact ND'.
  rewrite notin_remove by exact Hn. reflexivity.
Qed.

Lemma normalizeTags_members (tags : list jsstring) (n : jsstring) :
  In n (normalizeTags tags) <-> truthy n = true /\ exists t, In t tags /\ trim t = n.
Proof.
  unfold normalizeTags. rewrite normalizeLoop_keepFirst, keepFirst_In.
  rewrite filter_In, in_map_iff. split.
  - intros [[t [E Ht]] T]. split; [exact T|]. exists t. tauto.
  - intros [T [t [Ht E]]]. split; [|exact T]. exists t. tauto.
Qed.

(** X13. The names [normalizeTags] returns are pairwise distinct, non-empty
    and free of white space at both ends; normalising them again returns
    them unchanged, and a query's tag array is normalised the same way. *)
Theorem normalizeTags_normal_form (tags : list jsstring) :
  NoDup (normalizeTags tags)
  /\ (forall n, In n (normalizeTags tags) ->
        n <> [] /\ trim n = n
        /\ (forall c, hd_error n = Some c -> isWhiteSpace c = false)
        /\ (forall c, hd_error (rev n) = Some c -> isWhiteSpace c = false))
  /\ normalizeTags (normalizeTags tags) = normalizeTags tags
  /\ normalizeTagsFromQuery (TagsArray tags) = normalizeTags tags.
Proof.
  assert (ND : NoDup (normalizeTags tags)).
  { unfold normalizeTags. rewrite normalizeLoop_keepFirst.
    apply keepFirst_NoDup. }
  assert (M : forall n, In n (normalizeTags tags) ->
                truthy n = true /\ trim n = n).
  { intros n Hn. apply normalizeTags_members in Hn.
    destruct Hn as [T [t [_ <-]]]. split; [exact T | apply trim_fixed]. }
  split; [exact ND|]. split; [|split; [|reflexivity]].
  - intros n Hn. destruct (M n Hn) as [T E]. split; [|split; [exact E|]].
    + intros ->. discriminate.
    + rewrite <- E. split; intros c; apply trim_edges.
  - set (out := normalizeTags tags) in *.
    unfold normalizeTags at 1. rewrite normalizeLoop_keepFirst.
    assert (E1 : map trim out = out).
    { rewrite <- (map_id out) at 2. apply map_ext_in. intros n Hn.
      apply (M n Hn). }
    rewrite E1, filter_all by (intros n Hn; apply (M n Hn)).
    apply keepFirst_fixed, ND.
Qed.

(** ** The messages of a rejected window *)

Section WindowMessages.

Context {runtime : DateRuntime}.

Lemma parseIsoDate_required (v : option jsstring) (field : string) (w : World) :
  blank v = true ->
  parseIsoDate v field w
  = (Thrown (BadRequestException (field ++ " is required")), w).
Proof. intros B. unfold parseIsoDate. rewrite B. reflexivity. Qed.

Lemma parseIsoDate_invalid (s : jsstring) (field : string) (w : World) :
  blank (Some s) = false -> Date_getTime s = None ->
  parseIsoDate (Some s) field w
  = (Thrown (BadRequestException (field ++ " must be a valid ISO datetime")),
     w).
Proof. intros B P. unfold parseIsoDate. rewrite B, P. reflexivity. Qed.

Lemma parseIsoDate_returns (s : jsstring) (d : Z) (field : string) (w : World) :
  blank (Some s) = false -> Date_getTime s = Some d ->
  parseIsoDate (Some s) field w = (Returned d, w).
Proof. intros B P. unfold parseIsoDate. rewrite B, P. reflexivity. Qed.

(** X12. [getFreeUsers] and [markBusy] report the first fault of the window
    by name, before any client call: a missing or blank [from], then a
    [from] that does not parse, then the same two for [to], and last a
    [from] that is not before [to]. *)
Theorem window_faults_are_named (input : GetFreeUsersInput)
    (id : jsstring) (busy_input : MarkBusyInput) (w : World) :
  mb_from busy_input = q_from input -> mb_to busy_input = q_to input ->
  let both (message : string) :=
    rejected (getFreeUsers input) w message
    /\ rejected (markBusy id busy_input) w message in
  (blank (q_from input) = true -> both "from is required"%string)
  /\ (forall f, q_from input = Some f -> blank (Some f) = false ->
        Date_getTime f = None -> both "from must be a valid ISO datetime"%string)
  /\ (forall f a, q_from input = Some f -> blank (Some f) = false ->
        Date_getTime f = Some a ->
        (blank (q_to input) = true -> both "to is required"%string)
        /\ (forall t, q_to input = Some t -> blank (Some t) = false ->
              Date_getTime t = None -> both "to must be a valid ISO datetime"%string)
        /\ (forall t b, q_to input = Some t -> blank (Some t) = false ->
              Date_getTime t = Some b -> a >= b ->
              both "from must be before to"%string)).
Proof.
  intros Ef Et both. unfold both, rejected, getFreeUsers, markBusy.
  rewrite Ef, Et. clear Ef Et both.
  split; [|split].
  - intros B. split; erewrite bind_thrown;
      try reflexivity; apply (@parseIsoDate_required _ "from" w B).
  - intros f E B P. rewrite E. split; erewrite bind_thrown;
      try reflexivity; apply (@parseIsoDate_invalid _ "from" w B P).
  - intros f a E B P. rewrite E.
    pose proof (@parseIsoDate_returns _ _ "from" w B P) as Rf.
    split; [|split].
    + intros B2. split; (erewrite bind_returned by exact Rf);
        erewrite bind_thrown; try reflexivity;
        apply (@parseIsoDate_required _ "to" w B2).
    + intros t E2 B2 P2. rewrite E2.
      split; (erewrite bind_returned by exact Rf);
        erewrite bind_thrown; try reflexivity;
        apply (@parseIsoDate_invalid _ "to" w B2 P2).
    + intros t b E2 B2 P2 Hge. rewrite E2.
      pose proof (@parseIsoDate_returns _ _ "to" w B2 P2) as Rt.
      split; (erewrite bind_returned by exact Rf);
        (erewrite bind_returned by exact Rt);
        destruct (Z.geb_spec a b); try lia; reflexivity.
Qed.

End WindowMessages.

Lemma window_faults_are_named_witness :
  rejected (getFreeUsers (runtime := Sample.runtime) Sample.not_a_date)
    Sample.board "from must be a valid ISO datetime"
  /\ rejected (markBusy (runtime := Sample.runtime) Sample.u1
                 {| mb_from := q_from Sample.not_a_date;
                    mb_to := q_to Sample.not_a_date; mb_reason := None |})
       Sample.board "from must be a valid ISO datetime".
Proof.
  destruct (@window_faults_are_named Sample.runtime Sample.not_a_date
              Sample.u1
              {| mb_from := q_from Sample.not_a_date;
                 mb_to := q_to Sample.not_a_date; mb_reason := None |}
              Sample.board eq_refl eq_refl) as [_ [Invalid _]].
  apply (Invalid (lit "not-a-date")); vm_compute; reflexivity.
Defined.

(** ** More on the free-users query *)

Section QueryFacts.

Context {runtime : DateRuntime}.

(** What a call of [getFreeUsers] that returns has done. *)
Lemma getFreeUsers_returned (input : GetFreeUsersInput) (w w1 : World)
    (us : list User) :
  getFreeUsers input w = (Returned us, w1) ->
  exists from to,
    Spec.window (q_from input) (q_to input) from to /\ from < to
    /\ reachable w = true /\ w1 = record Call_user_findMany w
    /\ us = map toApiUser
              (Prisma.userFindMany (freeUsersWhere from to (q_tags input))
                 (store w)).
Proof.
  intros E.
  destruct (parseIsoDate_cases (q_from input) "from" w)
    as [[a [f [Ef [Bf [Pf Rf]]]]] | [_ [msg Rf]]];
    [|unfold getFreeUsers in E; erewrite bind_thrown in E by exact Rf;
      discriminate].
  destruct (parseIsoDate_cases (q_to input) "to" w)
    as [[b [t [Et [Bt [Pt Rt]]]]] | [_ [msg Rt]]];
    [|unfold getFreeUsers in E; erewrite bind_returned in E by exact Rf;
      erewrite bind_thrown in E by exact Rt; discriminate].
  assert (W : Spec.window (q_from input) (q_to input) a b).
  { exists f, t. repeat split; assumption. }
  destruct (Z.lt_ge_cases a b) as [Hlt | Hge].
  - rewrite (getFreeUsers_run input w W Hlt) in E.
    exists a, b. destruct (reachable w); [|discriminate].
    injection E as <- <-. repeat split; assumption.
  - exfalso. unfold getFreeUsers in E.
    erewrite bind_returned in E by exact Rf.
    erewrite bind_returned in E by exact Rt.
    destruct (Z.geb_spec a b); [discriminate | lia].
Qed.

Lemma userFindMany_same_tags (T T' : list jsstring) (from to : Z) (d : Db) :
  (forall n, In n T <-> In n T') ->
  Prisma.userFindMany
    (WhereAND (map WhereTagsSome T ++ [WhereBusySlotsNone to from])) d
  = Prisma.userFindMany
      (WhereAND (map WhereTagsSome T' ++ [WhereBusySlotsNone to from])) d.
Proof.
  intros H. unfold Prisma.userFindMany. f_equal. apply filter_ext.
  intros u. apply eq_iff_eq_true. rewrite !satisfies_query.
  unfold Spec.matchesTags. split; intros [M F]; (split; [|exact F]);
    intros n Hn; apply M, H, Hn.
Qed.

Lemma sameView_refl (u : User) : sameView u u.
Proof. unfold sameView. repeat split; apply Permutation_refl. Qed.

Lemma sameUsers_refl (us : list User) : sameUsers us us.
Proof.
  exists us. split; [apply Permutation_refl|].
  induction us as [|u us IH]; constructor; [apply sameView_refl | exact IH].
Qed.

Lemma getFreeUsers_same_tags_run (input input' : GetFreeUsersInput)
    (w : World) :
  q_from input' = q_from input -> q_to input' = q_to input ->
  (forall n, In n (normalizeTagsFromQuery (q_tags input)) <->
             In n (normalizeTagsFromQuery (q_tags input'))) ->
  getFreeUsers input' w = getFreeUsers input w.
Proof.
  intros Ef Et H. unfold getFreeUsers, bind. rewrite Ef, Et.
  destruct (parseIsoDate (q_from input) "from" w) as [[a | e] w1];
    [|reflexivity].
  destruct (parseIsoDate (q_to input) "to" w1) as [[b | e] w2];
    [|reflexivity].
  destruct (a >=? b); [reflexivity|].
  unfold Prisma.user_findMany, call, Prisma.reading.
  destruct (reachable w2); [|reflexivity].
  rewrite (@userFindMany_same_tags
             (normalizeTagsFromQuery (q_tags input'))
             (normalizeTagsFromQuery (q_tags input)) a b (store w2));
    [reflexivity|].
  intros n. symmetry. apply H.
Qed.

(** X14. The answer of [getFreeUsers] depends on the tags only through the
    set of normalised names: two inputs with the same [from] and [to] whose
    tag specifications normalise to the same names, in any order and
    whether given as one comma-separated string or as an array, both throw
    the same exception or both return the same users, whatever the order
    of the two lists, of the tags in a view and of its busy slots. *)
Theorem getFreeUsers_same_tag_set (input input' : GetFreeUsersInput)
    (w : World) :
  q_from input' = q_from input -> q_to input' = q_to input ->
  (forall n, In n (normalizeTagsFromQuery (q_tags input)) <->
             In n (normalizeTagsFromQuery (q_tags input'))) ->
  sameAnswer (getFreeUsers input w) (getFreeUsers input' w).
Proof.
  intros Ef Et H. rewrite (getFreeUsers_same_tags_run input input' w Ef Et H).
  unfold sameAnswer. destruct (getFreeUsers input w) as [[us | e] w1].
  - split; [apply sameUsers_refl | reflexivity].
  - split; reflexivity.
Qed.


End QueryFacts.

Lemma getFreeUsers_same_tag_set_witness :
  sameAnswer
    (getFreeUsers (runtime := Sample.runtime)
       (Sample.query "2026-02-06T12:30:00Z" "2026-02-06T13:00:00Z"
          (TagsString (lit "backend, ,backend")))
       Sample.board)
    (getFreeUsers (runtime := Sample.runtime)
       (Sample.query "2026-02-06T12:30:00Z" "2026-02-06T13:00:00Z"
          (TagsArray [lit " backend "; lit ""; lit "backend"]))
       Sample.board)
  /\ exists us w1,
       getFreeUsers (runtime := Sample.runtime)
         (Sample.query "2026-02-06T12:30:00Z" "2026-02-06T13:00:00Z"
            (TagsString (lit "backend, ,backend")))
         Sample.board = (Returned us, w1)
       /\ In Sample.u1 (map id us).
Proof.
  split.
  - apply (getFreeUsers_same_tag_set (runtime := Sample.runtime)).
    + reflexivity.
    + reflexivity.
    + intros n. vm_compute. tauto.
  - exists (match fst (getFreeUsers (runtime := Sample.runtime)
                         (Sample.query "2026-02-06T12:30:00Z"
                            "2026-02-06T13:00:00Z"
                            (TagsString (lit "backend, ,backend")))
                         Sample.board) with
            | Returned us => us
            | Thrown _ => []
            end),
           (snd (getFreeUsers (runtime := Sample.runtime)
                   (Sample.query "2026-02-06T12:30:00Z"
                      "2026-02-06T13:00:00Z"
                      (TagsString (lit "backend, ,backend")))
                   Sample.board)).
    split; [vm_compute; reflexivity | vm_compute; left; reflexivity].
Defined.


(** ** Reading users *)

Lemma readOnly_ret {A} (a : A) : readOnly (ret a).
Proof. intros w o w1 E. injection E as _ <-. reflexivity. Qed.

Lemma readOnly_throw {A} (e : Exception) : readOnly (@throw A e).
Proof. intros w o w1 E. injection E as _ <-. reflexivity. Qed.

Lemma readOnly_bind {A B} (m : Async A) (k : A -> Async B) :
  readOnly m -> (forall a, readOnly (k a)) -> readOnly (bind m k).
Proof.
  intros Hm Hk w o w1 E. unfold bind in E.
  destruct (m w) as [[a | e] w0] eqn:M.
  - rewrite (Hk a w0 o w1 E). apply (Hm _ _ _ M).
  - injection E as _ <-. apply (Hm _ _ _ M).
Qed.

Lemma readOnly_reading {A} (c : StoreCall) (f : Db -> A) :
  readOnly (call c (Prisma.reading f)).
Proof.
  intros w o w1 E. unfold call, Prisma.reading in E.
  destruct (reachable w); injection E as _ <-; reflexivity.
Qed.

Section Reading.

Context {runtime : DateRuntime}.

Lemma parseIsoDate_readOnly (v : option jsstring) (field : string) :
  readOnly (parseIsoDate v field).
Proof.
  intros w o w1 E.
  destruct (parseIsoDate_cases v field w)
    as [[d [s [_ [_ [_ R]]]]] | [_ [msg R]]];
    rewrite R in E; injection E as _ <-; reflexivity.
Qed.

(** X19. The three reading operations, [getFreeUsers], [getById] and
    [listAll], never change a stored row, whatever their input and
    whatever their outcome. *)
Theorem reads_never_write :
  (forall input, readOnly (getFreeUsers input))
  /\ (forall id, readOnly (getById id))
  /\ readOnly listAll.
Proof.
  split; [|split].
  - intros input. unfold getFreeUsers.
    apply readOnly_bind; [apply parseIsoDate_readOnly | intros a].
    apply readOnly_bind; [apply parseIsoDate_readOnly | intros b].
    destruct (a >=? b); [apply readOnly_throw|].
    apply readOnly_bind; [apply readOnly_reading | intros us].
    apply readOnly_ret.
  - intros id. unfold getById.
    apply readOnly_bind; [apply readOnly_reading | intros [u|]].
    + apply readOnly_ret.
    + apply readOnly_throw.
  - unfold listAll.
    apply readOnly_bind; [apply readOnly_reading | intros us].
    apply readOnly_ret.
Qed.

Lemma getById_stored (row : UserRow) (w : World) :
  reachable w = true -> NoDup (map u_id (user (store w))) ->
  In row (user (store w)) ->
  getById (u_id row) w
  = (Returned (toApiUser (includeRelations (store w) row)),
     record Call_user_findUnique w).
Proof.
  intros R ND Hin. unfold getById.
  erewrite bind_returned
    by (unfold Prisma.user_findUnique_include; apply reading_run; exact R).
  rewrite find_ById.
  rewrite (@find_unique_key _ u_id eqs (user (store w)) row eqs_true ND Hin).
  reflexivity.
Qed.

Lemma getById_missing (id : jsstring) (w : World) :
  reachable w = true -> ~ In id (map u_id (user (store w))) ->
  getById id w
  = (Thrown (NotFoundException "user not found"),
     record Call_user_findUnique w).
Proof.
  intros R Hn. unfold getById.
  erewrite bind_returned
    by (unfold Prisma.user_findUnique_include; apply reading_run; exact R).
  rewrite find_ById. apply find_id_none in Hn. rewrite Hn. reflexivity.
Qed.

Lemma view_busy (d : Db) (row : UserRow) (b : BusySlot) :
  In b (busy (toApiUser (includeRelations d row)))
  <-> exists s, In s (busySlot d) /\ b_userId s = u_id row
                /\ b = toApiBusySlot s.
Proof.
  simpl. rewrite in_map_iff. split.
  - intros [s [E Hs]]. apply filter_In in Hs. destruct Hs as [Hs Eu].
    apply eqs_true in Eu. exists s. repeat split; auto.
  - intros [s [Hs [Eu E]]]. exists s. split; [auto|].
    apply filter_In. split; [exact Hs | apply eqs_true, Eu].
Qed.

(** X4. On a reachable store with unique user ids, [getById] throws
    [NotFoundException] for an id that is not stored and, for a stored one,
    returns the view of its row: the row's fields, exactly the tag names
    the user holds, and every busy slot of the user. *)
Theorem getById_finds_the_row (uid : jsstring) (w : World) :
  reachable w = true -> NoDup (map u_id (user (store w))) ->
  (~ In uid (map u_id (user (store w))) ->
   getById uid w = (Thrown (NotFoundException "user not found"),
                    record Call_user_findUnique w))
  /\ (forall row, In row (user (store w)) -> u_id row = uid ->
        exists v,
          getById uid w = (Returned v, record Call_user_findUnique w)
          /\ id v = uid /\ name v = u_name row
          /\ email v = u_email row /\ phone v = u_phone row
          /\ createdAt v = Date_toISOString (u_createdAt row)
          /\ updatedAt v = Date_toISOString (u_updatedAt row)
          /\ (forall n, In n (tags v) <-> Spec.holdsTag (store w) uid n)
          /\ (forall b, In b (busy v) <->
                exists s, In s (busySlot (store w)) /\ b_userId s = uid
                          /\ b = toApiBusySlot s)).
Proof.
  intros R ND. split; [apply getById_missing, R|].
  intros row Hin <-. eexists. split; [apply getById_stored; assumption|].
  repeat split; try reflexivity.
  - apply view_tags_hold.
  - apply view_tags_hold.
  - apply view_busy.
  - apply view_busy.
Qed.

Lemma listAll_run (w : World) :
  reachable w = true ->
  listAll w = (Returned (map (fun u => toApiUser (includeRelations (store w) u))
                           (user (store w))),
               record Call_user_findMany w).
Proof.
  intros R. unfold listAll.
  erewrite bind_returned by (unfold user_findMany_all; apply reading_run, R).
  unfold ret. rewrite map_map. reflexivity.
Qed.

(** X8. On a reachable store [listAll] returns one view per stored user:
    the ids of the views are the stored ids, each as often, in some order.
    Every user [getFreeUsers] returns on that store is there with the same
    view, all its busy slots included; and with unique user ids, each view
    is the one [getById] returns for its id. Two views are the same when
    they differ at most in the order of their tags and busy slots. *)
Theorem listAll_lists_every_user (w : World) :
  reachable w = true ->
  exists all,
    listAll w = (Returned all, record Call_user_findMany w)
    /\ Permutation (map id all) (map u_id (user (store w)))
    /\ (forall input us w1, getFreeUsers input w = (Returned us, w1) ->
          forall u, In u us -> exists u', In u' all /\ sameView u u')
    /\ (NoDup (map u_id (user (store w))) ->
        forall u, In u all ->
          exists u',
            getById (id u) w = (Returned u', record Call_user_findUnique w)
            /\ sameView u u').
Proof.
  intros R. eexists. split; [apply listAll_run, R|]. split; [|split].
  - rewrite map_map. apply Permutation_refl.
  - intros input us w1 E u Hu. exists u. split; [|apply sameView_refl].
    destruct (getFreeUsers_returned input w E) as [a [b [_ [_ [_ [_ ->]]]]]].
    unfold Prisma.userFindMany in Hu. rewrite map_map in Hu.
    apply in_map_iff in Hu. destruct Hu as [row [<- Hrow]].
    apply filter_In in Hrow. apply in_map_iff. exists row. tauto.
  - intros ND u Hu. exists u. split; [|apply sameView_refl].
    apply in_map_iff in Hu. destruct Hu as [row [<- Hrow]].
    apply (getById_stored row w R ND Hrow).
Qed.

End Reading.

Lemma getById_finds_the_row_witness :
  getById (runtime := Sample.runtime) (lit "usr_zzzzzzzz") Sample.board
  = (Thrown (NotFoundException "user not found"),
     record Call_user_findUnique Sample.board)
  /\ exists v,
       getById (runtime := Sample.runtime) Sample.u1 Sample.board
       = (Returned v, record Call_user_findUnique Sample.board)
       /\ name v = lit "User One".
Proof.
  assert (ND : NoDup (map u_id (user (store Sample.board)))).
  { apply (distinct_NoDup eqs); [apply eqs_true | vm_compute; reflexivity]. }
  split.
  - apply (getById_finds_the_row (runtime := Sample.runtime)
             (lit "usr_zzzzzzzz") Sample.board eq_refl ND).
    apply notIn_intro. vm_compute. reflexivity.
  - destruct (getById_finds_the_row (runtime := Sample.runtime)
                Sample.u1 Sample.board eq_refl ND) as [_ Found].
    destruct (Found Sample.row1) as [v [E [_ [Hn _]]]].
    + vm_compute. left. reflexivity.
    + reflexivity.
    + exists v. split; [exact E | exact Hn].
Defined.

Lemma listAll_lists_every_user_witness :
  exists all,
    listAll (runtime := Sample.runtime) Sample.board
    = (Returned all, record Call_user_findMany Sample.board)
    /\ Permutation (map id all) (map u_id (user (store Sample.board))).
Proof.
  destruct (listAll_lists_every_user (runtime := Sample.runtime)
              Sample.board eq_refl) as [all [E [Ids _]]].
  exists all. split; [exact E | exact Ids].
Defined.

(** ** Failures of the writing operations *)

Lemma acceptable_passes (v : option jsstring) :
  acceptable v -> defined v && blank v = false.
Proof. intros [-> | B]; [reflexivity|]. rewrite B. apply andb_false_r. Qed.


Section WriteFailures.

Context {runtime : DateRuntime}.

Lemma find_email_none (e : jsstring) (l : list UserRow) :
  ~ In e (map u_email l) ->
  find (Prisma.matchesUnique (Prisma.ByEmail e)) l = None.
Proof.
  intros Hn. destruct (find _ l) as [u|] eqn:F; [|reflexivity].
  apply find_some in F. destruct F as [Hu E]. simpl in E.
  apply eqs_true in E. exfalso. apply Hn. rewrite <- E. apply in_map, Hu.
Qed.

Lemma create_collision_run (suffix : jsstring) (input : CreateUserInput)
    (input_email : jsstring) (w : World) :
  blank (c_name input) = false -> blank (c_email input) = false ->
  c_email input = Some input_email ->
  reachable w = true ->
  In (generateUserId suffix) (map u_id (user (store w))) ->
  ~ In input_email (map u_email (user (store w))) ->
  create suffix input w
  = (Thrown P2002,
     advance (store w) [Call_user_create; Call_user_findUnique] w).
Proof.
  intros Bn Be Ee R Hid Hem. unfold create.
  rewrite Bn, Be, Ee.
  destruct (blank_false _ Bn) as [input_name En]. rewrite En.
  assert (H1 : Prisma.user_create (generateUserId suffix) input_name
                 input_email (c_phone input)
                 (normalizeTags (orEmpty (c_tags input))) w
               = (Thrown P2002, advance (store w) [Call_user_create] w)).
  { unfold Prisma.user_create. rewrite call_reachable by exact R.
    unfold Prisma.userCreate.
    assert (X : existsb (fun u => eqs (u_id u) (generateUserId suffix)
                                  || eqs (u_email u) input_email)
                  (user (store w)) = true).
    { apply in_map_iff in Hid. destruct Hid as [u [E Hu]].
      apply existsb_exists. exists u. split; [exact Hu|].
      rewrite E, eqs_refl. reflexivity. }
    rewrite X. reflexivity. }
  erewrite tryCatch_thrown by (apply bind_thrown; exact H1).
  change (negb (isP2002 P2002)) with false. cbv iota.
  erewrite bind_returned
    by (unfold Prisma.user_findUnique_include; apply reading_run; exact R).
  rewrite !store_advance, find_email_none by exact Hem.
  cbn [option_map]. cbv beta iota. unfold throw.
  rewrite advance_advance. reflexivity.
Qed.

(** X1. [create] rejects a blank name, then a blank email, with a
    [BadRequestException] and no client call. With a valid input whose
    generated id is already stored while its email is not, the unique
    violation P2002 of [user.create] is thrown on as it is, and the stored
    rows are left as found. *)
Theorem create_failures (suffix : jsstring) (input : CreateUserInput)
    (w : World) :
  (blank (c_name input) = true ->
   rejected (create suffix input) w "name is required")
  /\ (blank (c_name input) = false -> blank (c_email input) = true ->
      rejected (create suffix input) w "email is required")
  /\ (forall input_email,
        blank (c_name input) = false -> blank (c_email input) = false ->
        c_email input = Some input_email ->
        reachable w = true ->
        In (generateUserId suffix) (map u_id (user (store w))) ->
        ~ In input_email (map u_email (user (store w))) ->
        create suffix input w
        = (Thrown P2002,
           advance (store w) [Call_user_create; Call_user_findUnique] w)).
Proof.
  unfold rejected. split; [|split].
  - intros B. unfold create. rewrite B. reflexivity.
  - intros Bn Be. unfold create. rewrite Bn, Be. reflexivity.
  - intros input_email Bn Be Ee R Hid Hem.
    apply (@create_collision_run suffix input input_email w); assumption.
Qed.

(** X6. [updateTags] for an id that is not stored throws
    [NotFoundException] after the transaction's first read: no tag of the
    add list is created, no row changes. *)
Theorem updateTags_unknown_user (uid : jsstring)
    (input : UpdateUserTagsInput) (w : World) :
  reachable w = true -> ~ In uid (map u_id (user (store w))) ->
  updateTags uid input w
  = (Thrown (NotFoundException "user not found"),
     advance (store w) [Call_transaction; Call_user_findUnique] w).
Proof.
  intros R Hn. unfold updateTags, bind, transaction. rewrite R.
  unfold Prisma.user_findUnique. rewrite call_reachable by exact R.
  unfold Prisma.reading. simpl fst. simpl snd.
  change (store (record Call_transaction w)) with (store w).
  rewrite find_ById. apply find_id_none in Hn. rewrite Hn.
  unfold throw, advance, withStore, record. simpl.
  rewrite <- app_assoc. reflexivity.
Qed.

Lemma update_missing_run (uid : jsstring) (input : UpdateUserInput)
    (w : World) :
  acceptable (up_name input) -> acceptable (up_email input) ->
  reachable w = true -> ~ In uid (map u_id (user (store w))) ->
  update uid input w
  = (Thrown (NotFoundException "user not found"),
     advance (store w) [Call_transaction; Call_user_findUnique] w).
Proof.
  intros Hn He R Hu. unfold update.
  rewrite (acceptable_passes Hn), (acceptable_passes He).
  unfold bind, transaction. rewrite R.
  unfold Prisma.user_findUnique. rewrite call_reachable by exact R.
  unfold Prisma.reading. simpl fst. simpl snd.
  change (store (record Call_transaction w)) with (store w).
  rewrite find_ById. apply find_id_none in Hu. rewrite Hu.
  unfold throw, advance, withStore, record. simpl.
  rewrite <- app_assoc. reflexivity.
Qed.

(** X9. [update] rejects a name, then an email, that is given but blank,
    with a [BadRequestException] and no client call; fields left out are
    not checked. With a valid input, an id that is not stored gives a
    [NotFoundException] after the transaction's first read, and no row
    changes, whatever tags the input carries. *)
Theorem update_rejections (uid : jsstring) (input : UpdateUserInput)
    (w : World) :
  (forall s, up_name input = Some s -> blank (Some s) = true ->
     rejected (update uid input) w "name cannot be empty")
  /\ (forall s, acceptable (up_name input) ->
        up_email input = Some s -> blank (Some s) = true ->
        rejected (update uid input) w "email cannot be empty")
  /\ (acceptable (up_name input) -> acceptable (up_email input) ->
      reachable w = true -> ~ In uid (map u_id (user (store w))) ->
      update uid input w
      = (Thrown (NotFoundException "user not found"),
         advance (store w) [Call_transaction; Call_user_findUnique] w)).
Proof.
  unfold rejected. split; [|split].
  - intros s E B. unfold update. rewrite E, B. reflexivity.
  - intros s Hn E B. unfold update.
    rewrite (acceptable_passes Hn), E, B. reflexivity.
  - apply update_missing_run.
Qed.

End WriteFailures.

(** ** Who holds which tag after associations are added *)

Lemma holdsTag_grows (d d2 : Db) (newT : list TagRow)
    (newR : list UserTagRow) (uid n : jsstring) :
  tag d2 = tag d ++ newT -> userTag d2 = userTag d ++ newR ->
  Spec.holdsTag d uid n -> Spec.holdsTag d2 uid n.
Proof.
  intros ET ER [r [t [Hr [Eu [Ht [Ei En]]]]]]. exists r, t.
  rewrite ET, ER. repeat split; try assumption; apply in_or_app; left;
    assumption.
Qed.

(** With tag ids unique and every old association pointing to an old tag,
    a user holds a name afterwards when it held it before or a new
    association of the user points to a tag of that name. *)
Lemma holdsTag_grown (d d2 : Db) (newT : list TagRow)
    (newR : list UserTagRow) (uid n : jsstring) :
  tag d2 = tag d ++ newT -> userTag d2 = userTag d ++ newR ->
  NoDup (map t_id (tag d2)) ->
  (forall r, In r (userTag d) -> In (ut_tagId r) (map t_id (tag d))) ->
  Spec.holdsTag d2 uid n
  <-> Spec.holdsTag d uid n
      \/ exists r t, In r newR /\ ut_userId r = uid /\ In t (tag d2)
                     /\ t_id t = ut_tagId r /\ t_name t = n.
Proof.
  intros ET ER ND FK. split.
  - intros [r [t [Hr [Eu [Ht [Ei En]]]]]].
    rewrite ER in Hr. apply in_app_or in Hr. destruct Hr as [Hr | Hr].
    + left. specialize (FK r Hr). apply in_map_iff in FK.
      destruct FK as [t0 [E0 Ht0]].
      assert (t0 = t).
      { apply (NoDup_map_inj t_id (tag d2)); try assumption; [|congruence].
        rewrite ET. apply in_or_app. left. exact Ht0. }
      subst t0. exists r, t. repeat split; assumption.
    + right. exists r, t. repeat split; assumption.
  - intros [H | [r [t [Hr [Eu [Ht [Ei En]]]]]]].
    + apply (@holdsTag_grows d d2 newT newR uid n ET ER H).
    + exists r, t. rewrite ER. repeat split; try assumption.
      apply in_or_app. right. exact Hr.
Qed.

(** After the loop, the user holds what it held and the names attached;
    nobody else's tags change. *)
Lemma attachAllDb_holds (userId : jsstring) (names : list jsstring) (d : Db)
    (uid n : jsstring) :
  In userId (map u_id (user d)) -> NoDup (map t_id (tag d)) ->
  (forall r, In r (userTag d) -> In (ut_tagId r) (map t_id (tag d))) ->
  Spec.holdsTag (attachAllDb userId names d) uid n
  <-> Spec.holdsTag d uid n \/ (uid = userId /\ In n names).
Proof.
  intros Hu ND FK.
  destruct (@attachAllDb_spec userId names d Hu)
    as [ND' [[xt [ET _]] [[xr [ER Rows]] Hold]]].
  rewrite (@holdsTag_grown d (attachAllDb userId names d) xt xr uid n
             ET ER (ND' ND) FK).
  split; (intros [H | H]; [left; exact H|]).
  - right. destruct H as [r [t [Hr [Eu [Ht [Ei En]]]]]].
    destruct (Rows r Hr) as [Eu' [t' [Ht' [Ei' Hn]]]].
    assert (t' = t).
    { apply (NoDup_map_inj t_id (tag (attachAllDb userId names d)));
        try assumption; [apply ND', ND | congruence]. }
    subst t'. split; [congruence|]. rewrite <- En. exact Hn.
  - destruct H as [-> Hn].
    apply (@holdsTag_grown d (attachAllDb userId names d) xt xr userId n
             ET ER (ND' ND) FK).
    apply Hold, Hn.
Qed.


Section TagSets.

Context {runtime : DateRuntime}.


End TagSets.

(** ** [update] *)

Lemma transaction_thrown {A} (body : Async A) (w w2 : World) (e : Exception) :
  reachable w = true ->
  body (advance (store w) [Call_transaction] w) = (Thrown e, w2) ->
  transaction body w = (Thrown e, withStore (store w) w2).
Proof.
  intros R E. unfold transaction. rewrite R, record_advance, E. reflexivity.
Qed.

Lemma updateTagged_user (uid : jsstring) (input : UpdateUserInput) (d : Db) :
  user (updateTagged uid input d) = user d
  /\ busySlot (updateTagged uid input d) = busySlot d.
Proof.
  unfold updateTagged. destruct (up_tags input) as [l|]; [|tauto].
  destruct (attachAllDb_user uid (normalizeTags l)
              (Prisma.userTagDeleteMany uid d)) as [E1 E2].
  split; [exact E1 | exact E2].
Qed.

Section Update.

Context {runtime : DateRuntime}.

(** The part of the transaction before [user.update]. *)
Lemma update_tags_run (uid : jsstring) (input : UpdateUserInput) (w : World) :
  reachable w = true -> In uid (map u_id (user (store w))) ->
  match option_map normalizeTags (up_tags input) with
  | Some tags => Prisma.userTag_deleteMany uid ;;; forOf tags (attach uid)
  | None => ret tt
  end w
  = (Returned tt,
     advance (updateTagged uid input (store w))
       match up_tags input with
       | Some l => Call_userTag_deleteMany None :: attachCalls (normalizeTags l)
       | None => []
       end w).
Proof.
  intros R Hu. unfold updateTagged.
  destruct (up_tags input) as [l|]; cbn [option_map].
  - erewrite bind_returned
      by (unfold Prisma.userTag_deleteMany; apply writing_run; exact R).
    rewrite forOf_attach_run; [|exact R|exact Hu].
    rewrite advance_advance, store_advance. reflexivity.
  - unfold ret. rewrite advance_nil. reflexivity.
Qed.

Lemma update_run (uid : jsstring) (input : UpdateUserInput) (row : UserRow)
    (w : World) :
  acceptable (up_name input) -> acceptable (up_email input) ->
  reachable w = true ->
  find (fun u => eqs (u_id u) uid) (user (store w)) = Some row ->
  let d1 := updateTagged uid input (store w) in
  let row' := Prisma.applyUpdate (updateData input) (now w) row in
  let d2 :=
    Prisma.setUser
      (map (fun u => if eqs (u_id u) uid then row' else u) (user d1)) d1 in
  update uid input w
  = if emailTaken uid input (store w)
    then (Thrown P2002, advance (store w) (updateCalls input) w)
    else (Returned (toApiUser (includeRelations d2 row')),
          advance d2 (updateCalls input) w).
Proof.
  intros Vn Ve R F d1 row' d2. unfold update.
  rewrite (acceptable_passes Vn), (acceptable_passes Ve).
  assert (Hu : In uid (map u_id (user (store w)))).
  { apply find_some in F. destruct F as [Hin E]. apply eqs_true in E.
    rewrite <- E. apply in_map, Hin. }
  destruct (updateTagged_user uid input (store w)) as [U1 _]. fold d1 in U1.
  assert (Body :
    (exists_ <- Prisma.user_findUnique (Prisma.ById uid) ;;
     match exists_ with
     | None => throw (NotFoundException "user not found")
     | Some _ =>
         match option_map normalizeTags (up_tags input) with
         | Some tags =>
             Prisma.userTag_deleteMany uid ;;; forOf tags (attach uid)
         | None => ret tt
         end ;;;
         Prisma.user_update uid
           {| Prisma.data_name := up_name input;
              Prisma.data_email := up_email input;
              Prisma.data_phone := up_phone input |}
     end) (advance (store w) [Call_transaction] w)
    = if emailTaken uid input (store w)
      then (Thrown P2002, advance d1 (updateCalls input) w)
      else (Returned (includeRelations d2 row'),
            advance d2 (updateCalls input) w)).
  { erewrite bind_returned
      by (unfold Prisma.user_findUnique; apply reading_run; exact R).
    rewrite store_advance, find_ById, F, advance_advance.
    erewrite bind_returned by (apply update_tags_run; [exact R | exact Hu]).
    rewrite advance_advance, store_advance. fold d1.
    unfold Prisma.user_update. rewrite call_reachable by exact R.
    rewrite store_advance, now_advance. unfold Prisma.userUpdate.
    assert (F1 : find (fun u => eqs (u_id u) uid) (user d1) = Some row)
      by (rewrite U1; exact F).
    rewrite F1. fold (updateData input).
    change (match Prisma.data_email (updateData input) with
            | Some e =>
                existsb (fun u => eqs (u_email u) e && negb (eqs (u_id u) uid))
                  (user d1)
            | None => false
            end) with (emailTaken uid input d1).
    assert (ET : emailTaken uid input d1 = emailTaken uid input (store w)).
    { unfold emailTaken. rewrite U1. reflexivity. }
    rewrite ET.
    destruct (emailTaken uid input (store w)); simpl fst; simpl snd;
      rewrite record_advance, withStore_advance, advance_advance;
      unfold updateCalls; rewrite <- !app_assoc; reflexivity. }
  destruct (emailTaken uid input (store w)).
  - erewrite bind_thrown; [reflexivity|].
    erewrite transaction_thrown; [|exact R|exact Body]. reflexivity.
  - erewrite bind_returned; [unfold ret; reflexivity|].
    apply transaction_returned; [exact R | exact Body].
Qed.

End Update.

Lemma userTagDeleteMany_holds (uid : jsstring) (d : Db) (x n : jsstring) :
  Spec.holdsTag (Prisma.userTagDeleteMany uid d) x n
  <-> x <> uid /\ Spec.holdsTag d x n.
Proof.
  unfold Spec.holdsTag. simpl. split.
  - intros [r [t [Hr [Eu [Ht [Ei En]]]]]]. apply filter_In in Hr.
    destruct Hr as [Hr N]. apply negb_true_iff in N. split.
    + intros ->. apply eqs_true in Eu. congruence.
    + exists r, t. repeat split; assumption.
  - intros [Hx [r [t [Hr [Eu [Ht [Ei En]]]]]]]. exists r, t.
    repeat split; try assumption. apply filter_In. split; [exact Hr|].
    apply negb_true_iff. destruct (eqs (ut_userId r) uid) eqn:E;
      [|reflexivity].
    apply eqs_true in E. congruence.
Qed.

Lemma updateTagged_holds (uid : jsstring) (input : UpdateUserInput) (d : Db)
    (x n : jsstring) :
  In uid (map u_id (user d)) -> NoDup (map t_id (tag d)) ->
  (forall r, In r (userTag d) -> In (ut_tagId r) (map t_id (tag d))) ->
  Spec.holdsTag (updateTagged uid input d) x n
  <-> match up_tags input with
      | Some l => (x <> uid /\ Spec.holdsTag d x n)
                  \/ (x = uid /\ In n (normalizeTags l))
      | None => Spec.holdsTag d x n
      end.
Proof.
  intros Hu ND FK. unfold updateTagged.
  destruct (up_tags input) as [l|]; [|reflexivity].
  rewrite attachAllDb_holds; [| exact Hu | exact ND |].
  - rewrite userTagDeleteMany_holds. reflexivity.
  - intros r Hr. simpl in Hr. apply filter_In in Hr. apply FK. tauto.
Qed.

Lemma emailTaken_false (uid : jsstring) (input : UpdateUserInput) (d : Db) :
  (forall other, In other (user d) -> u_id other <> uid ->
                 Some (u_email other) <> up_email input) ->
  emailTaken uid input d = false.
Proof.
  intros H. unfold emailTaken. destruct (up_email input) as [e|];
    [|reflexivity].
  destruct (existsb _ (user d)) eqn:X; [|reflexivity].
  apply existsb_exists in X. destruct X as [u [Hu E]].
  apply andb_true_iff in E. destruct E as [E1 E2].
  apply eqs_true in E1. apply negb_true_iff in E2.
  exfalso. apply (H u Hu); [|congruence].
  intros F. apply eqs_true in F. congruence.
Qed.

Section UpdateFacts.

Context {runtime : DateRuntime}.

(** X10. [update] is atomic. When the new email is the email of another
    user, the call throws the unique violation P2002 of [user.update] and
    the stored rows are the ones it found, although the deletion and the
    upserts for the tags of the input were issued before. *)
Theorem update_email_conflict_rolls_back (uid : jsstring)
    (input : UpdateUserInput) (e : jsstring) (other : UserRow) (w : World) :
  acceptable (up_name input) -> acceptable (up_email input) ->
  reachable w = true -> In uid (map u_id (user (store w))) ->
  up_email input = Some e ->
  In other (user (store w)) -> u_email other = e -> u_id other <> uid ->
  exists w1,
    update uid input w = (Thrown P2002, w1)
    /\ store w1 = store w
    /\ calls w1 = calls w ++ updateCalls input.
Proof.
  intros Vn Ve R Hu Ee Ho Eo Hne.
  destruct (find_id_some uid (user (store w)) Hu) as [row [F _]].
  pose proof (@update_run runtime uid input row w Vn Ve R F) as Run.
  cbv zeta in Run.
  assert (T : emailTaken uid input (store w) = true).
  { unfold emailTaken. rewrite Ee. apply existsb_exists. exists other.
    split; [exact Ho|]. apply andb_true_iff. split; [apply eqs_true, Eo|].
    apply negb_true_iff. destruct (eqs (u_id other) uid) eqn:E;
      [|reflexivity].
    apply eqs_true in E. congruence. }
  rewrite T in Run. eexists. split; [exact Run|]. split; reflexivity.
Qed.

(** X11. [update] of a stored user on a reachable, consistent store, with
    acceptable fields that are text and an email no other user has, returns
    the view of the updated row: name, email and phone are the given ones, or the
    stored ones where the input leaves them out; when one of the three is
    given, [updatedAt] is the time of the call. A given tag list, the empty
    one too, replaces the user's tags by its normalised names; with no tag
    list the tags stay. Busy slots, other users' rows and other users' tags
    are untouched. *)
Theorem update_changes_what_is_given (uid : jsstring)
    (input : UpdateUserInput) (row : UserRow) (w : World) :
  reachable w = true -> consistent (store w) ->
  acceptable (up_name input) -> acceptable (up_email input) ->
  In row (user (store w)) -> u_id row = uid ->
  (forall other, In other (user (store w)) -> u_id other <> uid ->
                 Some (u_email other) <> up_email input) ->
  (forall s, In (Some s) [up_name input; up_email input; up_phone input] ->
             isText s = true) ->
  (forall l n, up_tags input = Some l -> In n (normalizeTags l) ->
               isText n = true) ->
  exists v w1,
    update uid input w = (Returned v, w1)
    /\ id v = uid
    /\ name v = match up_name input with Some s => s | None => u_name row end
    /\ email v
       = match up_email input with Some s => s | None => u_email row end
    /\ phone v
       = match up_phone input with Some s => Some s | None => u_phone row end
    /\ createdAt v = Date_toISOString (u_createdAt row)
    /\ (defined (up_name input) || defined (up_email input)
        || defined (up_phone input) = true ->
        updatedAt v = Date_toISOString (now w))
    /\ (forall n, In n (tags v) <->
          match up_tags input with
          | Some l => In n (normalizeTags l)
          | None => Spec.holdsTag (store w) uid n
          end)
    /\ (forall n, Spec.holdsTag (store w1) uid n <-> In n (tags v))
    /\ (forall other n, other <> uid ->
          (Spec.holdsTag (store w1) other n
           <-> Spec.holdsTag (store w) other n))
    /\ busySlot (store w1) = busySlot (store w)
    /\ (forall other, u_id other <> uid ->
          (In other (user (store w1)) <-> In other (user (store w)))).
Proof.
  intros R C Vn Ve Hin Ei Free _ _.
  assert (F : find (fun u => eqs (u_id u) uid) (user (store w)) = Some row).
  { rewrite <- Ei.
    apply (@find_unique_key _ u_id eqs (user (store w)) row eqs_true);
      [apply C | exact Hin]. }
  pose proof (@update_run runtime uid input row w Vn Ve R F) as Run.
  cbv zeta in Run. rewrite (@emailTaken_false uid input (store w) Free) in Run.
  set (row' := Prisma.applyUpdate (updateData input) (now w) row) in *.
  assert (Ei' : u_id row' = uid) by exact Ei.
  assert (Hu : In uid (map u_id (user (store w)))).
  { rewrite <- Ei. apply in_map, Hin. }
  destruct (updateTagged_user uid input (store w)) as [U1 B1].
  set (d1 := updateTagged uid input (store w)) in *.
  assert (H1 : forall x n, Spec.holdsTag d1 x n <->
                 match up_tags input with
                 | Some l => (x <> uid /\ Spec.holdsTag (store w) x n)
                             \/ (x = uid /\ In n (normalizeTags l))
                 | None => Spec.holdsTag (store w) x n
                 end).
  { intros x n. apply updateTagged_holds; [exact Hu | apply C | apply C]. }
  set (d2 := Prisma.setUser
               (map (fun u => if eqs (u_id u) uid then row' else u) (user d1))
               d1) in *.
  assert (H2 : forall x n, Spec.holdsTag d2 x n <-> Spec.holdsTag d1 x n).
  { intros x n. apply holdsTag_same_tables; reflexivity. }
  assert (Hv : forall n, In n (tags (toApiUser (includeRelations d2 row')))
                         <-> Spec.holdsTag d2 uid n).
  { intros n. rewrite <- Ei'. apply (@view_tags_hold runtime d2 row' n). }
  eexists. eexists. split; [exact Run|]. rewrite store_advance.
  split; [exact Ei|]. split; [reflexivity|]. split; [reflexivity|].
  split; [reflexivity|]. split; [reflexivity|].
  split; [|split; [|split; [|split; [|split]]]].
  - intros D.
    assert (Wf : Prisma.writesField (updateData input) = true).
    { unfold Prisma.writesField, updateData. simpl.
      destruct (up_name input), (up_email input), (up_phone input);
        try reflexivity.
      discriminate D. }
    unfold toApiUser, includeRelations, row', Prisma.applyUpdate. simpl.
    rewrite Wf. reflexivity.
  - intros n. rewrite Hv, H2, H1. destruct (up_tags input); tauto.
  - intros n. rewrite Hv. reflexivity.
  - intros other n Ho. rewrite H2, H1. destruct (up_tags input); tauto.
  - exact B1.
  - intros other Ho. simpl. rewrite U1. rewrite in_map_iff. split.
    + intros [x [Ex Hx]]. destruct (eqs (u_id x) uid) eqn:Eq.
      * exfalso. apply Ho. rewrite <- Ex. exact Ei'.
      * rewrite <- Ex. exact Hx.
    + intros Hx. exists other. split; [|exact Hx].
      destruct (eqs (u_id other) uid) eqn:Eq; [|reflexivity].
      apply eqs_true in Eq. contradiction.
Qed.

End UpdateFacts.

(** ** [create] of a new user *)

Lemma filter_tag_by_id (l : list TagRow) (t : TagRow) :
  NoDup (map t_id l) -> In t l ->
  filter (fun t' => eqs (t_id t') (t_id t)) l = [t].
Proof.
  induction l as [|x l IH]; simpl; intros ND Hin; [contradiction|].
  inversion ND as [|? ? Hn ND']; subst.
  destruct (eqs (t_id x) (t_id t)) eqn:E.
  - apply eqs_true in E.
    assert (x = t).
    { destruct Hin as [H | H]; [exact H|]. exfalso. apply Hn.
      rewrite E. apply in_map, H. }
    subst x. f_equal. apply filter_none. intros y Hy.
    destruct (eqs (t_id y) (t_id t)) eqn:F; [|reflexivity].
    apply eqs_true in F. exfalso. apply Hn. rewrite <- F. apply in_map, Hy.
  - destruct Hin as [-> | Hin]; [rewrite eqs_refl in E; discriminate|].
    apply IH; assumption.
Qed.

(** The nested writes of [user.create] for distinct names, when the
    associations the user already has point to tags of other names: none
    violates a constraint, and one association per name is appended, in
    order. *)
Lemma createUserTags_run (userId : jsstring) (names : list jsstring) (d : Db) :
  NoDup (map t_id (tag d)) -> NoDup names ->
  (forall r, In r (userTag d) -> ut_userId r = userId ->
     exists t, In t (tag d) /\ t_id t = ut_tagId r /\ ~ In (t_name t) names) ->
  exists d2 newT newR,
    Prisma.createUserTags userId names d = inr d2
    /\ user d2 = user d /\ busySlot d2 = busySlot d
    /\ tag d2 = tag d ++ newT /\ NoDup (map t_id (tag d2))
    /\ (forall t, In t newT -> In (t_name t) names)
    /\ userTag d2 = userTag d ++ newR
    /\ Forall2 (fun r n => ut_userId r = userId
                           /\ exists t, In t (tag d2) /\ t_id t = ut_tagId r
                                        /\ t_name t = n) newR names.
Proof.
  revert d. induction names as [|n rest IH]; intros d ND NN Old; simpl.
  - exists d, [], []. rewrite !app_nil_r. repeat split; try assumption.
    + intros t [].
    + constructor.
  - inversion NN as [|? ? Hn NN']; subst.
    destruct (tagUpsert_spec n d) as [Eu [Er [Eb [Ht [En Hc]]]]].
    destruct (Prisma.tagUpsert n d) as [t d1]. simpl in *.
    assert (T1 : exists xt, tag d1 = tag d ++ xt
                            /\ NoDup (map t_id (tag d1))
                            /\ forall t', In t' xt -> t_name t' = n).
    { destruct Hc as [[_ ->] | [E [F _]]].
      - exists []. rewrite app_nil_r. repeat split; [exact ND | intros ? []].
      - exists [t]. split; [exact E|]. split.
        + rewrite E. apply NoDup_map_snoc; assumption.
        + intros t' [<- | []]. exact En. }
    destruct T1 as [xt [ET1 [ND1 Nxt]]].
    assert (H : Prisma.hasUserTag userId (t_id t) d1 = false).
    { destruct (Prisma.hasUserTag userId (t_id t) d1) eqn:H; [|reflexivity].
      apply hasUserTag_In in H. rewrite Er in H.
      destruct (Old _ H eq_refl) as [t' [Ht' [Ei' Nn]]]. simpl in Ei'.
      assert (t' = t).
      { apply (NoDup_map_inj t_id (tag d1)); try assumption.
        rewrite ET1. apply in_or_app. left. exact Ht'. }
      subst t'. exfalso. apply Nn. left. symmetry. exact En. }
    rewrite H.
    set (r0 := {| ut_userId := userId; ut_tagId := t_id t |}).
    destruct (IH (Prisma.setUserTag (userTag d1 ++ [r0]) d1))
      as [d2 [newT [newR [E [U2 [B2 [T2 [ND2 [NT [R2 F2]]]]]]]]]].
    + exact ND1.
    + exact NN'.
    + simpl. intros r Hr Eur. apply in_app_or in Hr.
      destruct Hr as [Hr | [<- | []]].
      * rewrite Er in Hr. destruct (Old r Hr Eur) as [t' [Ht' [Ei' Nn]]].
        exists t'. split; [rewrite ET1; apply in_or_app; left; exact Ht'|].
        split; [exact Ei'|]. intros F. apply Nn. right. exact F.
      * exists t. split; [exact Ht|]. split; [reflexivity|].
        rewrite En. exact Hn.
    + simpl in *. exists d2, (xt ++ newT), (r0 :: newR).
      split; [exact E|]. split; [congruence|]. split; [congruence|].
      split; [rewrite T2, ET1, app_assoc; reflexivity|].
      split; [exact ND2|]. split; [|split].
      * intros t' Ht'. apply in_app_or in Ht'.
        destruct Ht' as [Ht' | Ht']; [left; symmetry; apply Nxt, Ht'|].
        right. apply NT, Ht'.
      * rewrite R2, Er, <- app_assoc. reflexivity.
      * constructor; [|exact F2]. split; [reflexivity|].
        exists t. split; [rewrite T2; apply in_or_app; left; exact Ht|].
        split; [reflexivity | exact En].
Qed.

(** The tag names a view shows for associations appended in order. *)
Lemma joined_names (tagsTable : list TagRow) (newR : list UserTagRow)
    (names : list jsstring) (userId : jsstring) :
  NoDup (map t_id tagsTable) ->
  Forall2 (fun r n => ut_userId r = userId
                      /\ exists t, In t tagsTable /\ t_id t = ut_tagId r
                                   /\ t_name t = n) newR names ->
  map t_name
    (flat_map (fun r => filter (fun t => eqs (t_id t) (ut_tagId r)) tagsTable)
       (filter (fun r => eqs (ut_userId r) userId) newR))
  = names.
Proof.
  intros ND F. induction F as [|r n newR names [Eu [t [Ht [Ei En]]]] F IH];
    simpl; [reflexivity|].
  rewrite Eu, eqs_refl. simpl. rewrite <- Ei.
  rewrite (filter_tag_by_id tagsTable t ND Ht). simpl.
  rewrite IH, En. reflexivity.
Qed.

Lemma normalizeTags_NoDup (l : list jsstring) : NoDup (normalizeTags l).
Proof.
  unfold normalizeTags. rewrite normalizeLoop_keepFirst. apply keepFirst_NoDup.
Qed.

Lemma tryCatch_returned {A} (m : Async A) (h : Exception -> Async A)
    (w w1 : World) (a : A) :
  m w = (Returned a, w1) -> tryCatch m h w = (Returned a, w1).
Proof. intros E. unfold tryCatch. rewrite E. reflexivity. Qed.

Lemma Forall2_left {A B} (P : A -> B -> Prop) (l : list A) (l' : list B)
    (x : A) :
  Forall2 P l l' -> In x l -> exists y, In y l' /\ P x y.
Proof.
  intros F. induction F as [|a b l l' Hab F IH]; intros Hin; [contradiction|].
  destruct Hin as [<- | Hin].
  - exists b. split; [left; reflexivity | exact Hab].
  - destruct (IH Hin) as [y [Hy Py]]. exists y. split; [right; exact Hy | exact Py].
Qed.

Section NewUser.

Context {runtime : DateRuntime}.

Lemma create_fresh_run (suffix : jsstring) (input : CreateUserInput)
    (input_name input_email : jsstring) (w : World) :
  reachable w = true -> consistent (store w) ->
  c_name input = Some input_name -> blank (c_name input) = false ->
  c_email input = Some input_email -> blank (c_email input) = false ->
  ~ In (generateUserId suffix) (map u_id (user (store w))) ->
  ~ In input_email (map u_email (user (store w))) ->
  let names := normalizeTags (orEmpty (c_tags input)) in
  let row := {| u_id := generateUserId suffix; u_name := input_name;
                u_email := input_email; u_phone := c_phone input;
                u_createdAt := now w; u_updatedAt := now w |} in
  exists d2 newT newR,
    create suffix input w
    = (Returned (toApiUser (includeRelations d2 row)),
       advance d2 [Call_user_create] w)
    /\ user d2 = user (store w) ++ [row]
    /\ busySlot d2 = busySlot (store w)
    /\ tag d2 = tag (store w) ++ newT /\ NoDup (map t_id (tag d2))
    /\ (forall t, In t newT -> In (t_name t) names)
    /\ userTag d2 = userTag (store w) ++ newR
    /\ Forall2 (fun r n => ut_userId r = generateUserId suffix
                           /\ exists t, In t (tag d2) /\ t_id t = ut_tagId r
                                        /\ t_name t = n) newR names.
Proof.
  intros R C En Bn Ee Be Hid Hem names row.
  destruct (@createUserTags_run (generateUserId suffix) names
              (Prisma.setUser (user (store w) ++ [row]) (store w)))
    as [d2 [newT [newR [E [U2 [B2 [T2 [ND2 [NT [R2 F2]]]]]]]]]].
  - apply C.
  - apply normalizeTags_NoDup.
  - simpl. intros r Hr Eu. exfalso. apply Hid. rewrite <- Eu.
    apply (UserTag_userId_fkey C r Hr).
  - exists d2, newT, newR. split; [|repeat split; assumption].
    unfold create. rewrite Bn, Be, En, Ee. fold names.
    apply tryCatch_returned. erewrite bind_returned; [reflexivity|].
    unfold Prisma.user_create. rewrite call_reachable by exact R.
    unfold Prisma.userCreate.
    assert (X : existsb (fun u => eqs (u_id u) (generateUserId suffix)
                                  || eqs (u_email u) input_email)
                  (user (store w)) = false).
    { destruct (existsb _ (user (store w))) eqn:X; [|reflexivity].
      apply existsb_exists in X. destruct X as [u [Hu X]].
      apply orb_true_iff in X. exfalso.
      destruct X as [X | X]; apply eqs_true in X;
        [apply Hid | apply Hem]; rewrite <- X; apply in_map, Hu. }
    rewrite X. fold row. rewrite E. reflexivity.
Qed.

(** X2. [create] with a non-blank name, an email no user has and a
    generated id not in use, on a reachable and consistent store, when
    name, email, phone and tag names are text, stores one more user row
    with that id, the given name, email and phone, and returns its view:
    the tags are the normalised names of the input, each once, and there is
    no busy slot. Each name is in the catalog afterwards; busy slots, the
    other users' rows and their tags are as before. *)
Theorem create_registers_a_new_user (suffix : jsstring)
    (input : CreateUserInput) (input_name input_email : jsstring)
    (w : World) :
  reachable w = true -> consistent (store w) ->
  c_name input = Some input_name -> blank (c_name input) = false ->
  c_email input = Some input_email -> blank (c_email input) = false ->
  ~ In (generateUserId suffix) (map u_id (user (store w))) ->
  ~ In input_email (map u_email (user (store w))) ->
  let names := normalizeTags (orEmpty (c_tags input)) in
  isText input_name = true -> isText input_email = true ->
  (forall p, c_phone input = Some p -> isText p = true) ->
  (forall n, In n names -> isText n = true) ->
  exists v w1,
    create suffix input w = (Returned v, w1)
    /\ id v = lit "usr_" ++ suffix /\ name v = input_name
    /\ email v = input_email /\ phone v = c_phone input
    /\ Permutation (tags v) names /\ busy v = []
    /\ createdAt v = Date_toISOString (now w)
    /\ updatedAt v = Date_toISOString (now w)
    /\ (forall row, In row (user (store w1)) <->
          In row (user (store w))
          \/ row = {| u_id := lit "usr_" ++ suffix; u_name := input_name;
                      u_email := input_email; u_phone := c_phone input;
                      u_createdAt := now w; u_updatedAt := now w |})
    /\ busySlot (store w1) = busySlot (store w)
    /\ (forall n, In n (Spec.catalog (store w1)) <->
                  In n (Spec.catalog (store w)) \/ In n names)
    /\ (forall other n, other <> lit "usr_" ++ suffix ->
          (Spec.holdsTag (store w1) other n
           <-> Spec.holdsTag (store w) other n))
    /\ calls w1 = calls w ++ [Call_user_create].
Proof.
  intros R C En Bn Ee Be Hid Hem names _ _ _ _.
  destruct (@create_fresh_run suffix input input_name input_email w
              R C En Bn Ee Be Hid Hem)
    as [d2 [newT [newR [Run [U2 [B2 [T2 [ND2 [NT [R2 F2]]]]]]]]]].
  fold names in NT, F2.
  set (uid := generateUserId suffix) in *.
  assert (NoOld : forall r, In r (userTag (store w)) ->
                    eqs (ut_userId r) uid = false).
  { intros r Hr. destruct (eqs (ut_userId r) uid) eqn:E; [|reflexivity].
    apply eqs_true in E. exfalso. apply Hid. rewrite <- E.
    apply (UserTag_userId_fkey C r Hr). }
  assert (NoSlot : forall s, In s (busySlot (store w)) ->
                     eqs (b_userId s) uid = false).
  { intros s Hs. destruct (eqs (b_userId s) uid) eqn:E; [|reflexivity].
    apply eqs_true in E. exfalso. apply Hid. rewrite <- E.
    apply (BusySlot_userId_fkey C s Hs). }
  eexists. eexists. split; [exact Run|]. rewrite store_advance.
  split; [reflexivity|]. split; [reflexivity|]. split; [reflexivity|].
  split; [reflexivity|]. split; [|split; [|split; [reflexivity|]]].
  - change (tags (toApiUser ?p)) with (map t_name (p_tags p)).
    unfold includeRelations. cbn [p_tags u_id].
    rewrite R2, filter_app, (filter_none _ _ NoOld). simpl app.
    rewrite (@joined_names (tag d2) newR names uid ND2 F2).
    apply Permutation_refl.
  - change (busy (toApiUser ?p)) with (map toApiBusySlot (p_busySlots p)).
    unfold includeRelations. cbn [p_busySlots u_id].
    rewrite B2, (filter_none _ _ NoSlot). reflexivity.
  - split; [reflexivity|]. split.
    { intros row. rewrite U2, in_app_iff. split.
      - intros [H | [<- | []]]; [left; exact H | right; reflexivity].
      - intros [H | ->]; [left; exact H | right; left; reflexivity]. }
    split; [exact B2|].
    split; [|split; [|reflexivity]].
    + intros n. unfold Spec.catalog. rewrite T2, map_app, in_app_iff.
      split; (intros [H | H]; [left; exact H|]).
      * right. apply in_map_iff in H. destruct H as [t [<- Ht]].
        apply NT, Ht.
      * assert (Hn : exists r, In r newR /\ exists t, In t (tag d2)
                       /\ t_id t = ut_tagId r /\ t_name t = n).
        { clear - F2 H. induction F2 as [|r m newR names [_ P] F IH];
            [contradiction|].
          destruct H as [<- | H].
          - exists r. split; [left; reflexivity | exact P].
          - destruct (IH H) as [r' [Hr' P']]. exists r'.
            split; [right; exact Hr' | exact P']. }
        destruct Hn as [r [_ [t [Ht [_ E]]]]].
        rewrite T2 in Ht. apply in_app_or in Ht.
        destruct Ht as [Ht | Ht]; [left | right]; rewrite <- E;
          apply in_map, Ht.
    + intros other n Ho.
      rewrite (@holdsTag_grown (store w) d2 newT newR other n T2 R2 ND2
                 (UserTag_tagId_fkey C)).
      split; [|intros H; left; exact H].
      intros [H | [r [t [Hr [Eu _]]]]]; [exact H|].
      destruct (@Forall2_left _ _ _ newR names r F2 Hr) as [m [_ [Eu' _]]].
      exfalso. apply Ho. rewrite <- Eu, Eu'. reflexivity.
Qed.

End NewUser.

(** ** [delete] of a stored user *)

Lemma filter_others {A} (key : A -> jsstring) (l : list A) (uid rid : jsstring) :
  rid <> uid ->
  filter (fun x => eqs (key x) rid)
    (filter (fun x => negb (eqs (key x) uid)) l)
  = filter (fun x => eqs (key x) rid) l.
Proof.
  intros Hne. rewrite filter_twice. apply filter_ext. intros x.
  destruct (eqs (key x) rid) eqn:E; [|apply andb_false_r].
  apply eqs_true in E. rewrite andb_true_r. apply negb_true_iff.
  destruct (eqs (key x) uid) eqn:F; [|reflexivity].
  apply eqs_true in F. congruence.
Qed.

Section Deleting.

Context {runtime : DateRuntime}.

(** X5. [delete] of a stored id on a reachable store returns, and the
    controller replies [{ deleted: true }]. Afterwards no user row, tag
    association or busy slot carries the id; the tag table and every other
    user's view are as before; [getById] for the id and a second [delete]
    both throw [NotFoundException]. *)
Theorem delete_removes_the_user (uid : jsstring) (w : World) :
  reachable w = true -> In uid (map u_id (user (store w))) ->
  exists w1,
    delete uid w = (Returned tt, w1)
    /\ deleteUser uid w = (Returned {| deleted := true |}, w1)
    /\ calls w1 = calls w ++ [Call_user_delete]
    /\ (forall row, In row (user (store w1)) <->
                    In row (user (store w)) /\ u_id row <> uid)
    /\ (forall r, In r (userTag (store w1)) <->
                  In r (userTag (store w)) /\ ut_userId r <> uid)
    /\ (forall s, In s (busySlot (store w1)) <->
                  In s (busySlot (store w)) /\ b_userId s <> uid)
    /\ tag (store w1) = tag (store w)
    /\ (forall row, u_id row <> uid ->
          toApiUser (includeRelations (store w1) row)
          = toApiUser (includeRelations (store w) row))
    /\ getById uid w1 = (Thrown (NotFoundException "user not found"),
                         record Call_user_findUnique w1)
    /\ delete uid w1 = (Thrown (NotFoundException "user not found"),
                        record Call_user_delete w1).
Proof.
  intros R Hu.
  destruct (find_id_some uid (user (store w)) Hu) as [row0 [F _]].
  set (d1 := {| user := filter (fun u => negb (eqs (u_id u) uid))
                          (user (store w));
                tag := tag (store w);
                userTag := filter (fun r => negb (eqs (ut_userId r) uid))
                             (userTag (store w));
                busySlot := filter (fun s => negb (eqs (b_userId s) uid))
                              (busySlot (store w)) |}).
  assert (D : Prisma.user_delete uid w
              = (Returned row0, advance d1 [Call_user_delete] w)).
  { unfold Prisma.user_delete. rewrite call_reachable by exact R.
    unfold Prisma.userDelete. rewrite F. reflexivity. }
  assert (Run : delete uid w = (Returned tt, advance d1 [Call_user_delete] w)).
  { unfold delete. apply tryCatch_returned.
    erewrite bind_returned by exact D. reflexivity. }
  assert (Keep : forall {A} (key : A -> jsstring) (l : list A) (x : A),
             In x (filter (fun y => negb (eqs (key y) uid)) l)
             <-> In x l /\ key x <> uid).
  { intros A key l x. rewrite filter_In, negb_true_iff. split.
    - intros [H E]. split; [exact H|]. intros G. apply eqs_true in G.
      congruence.
    - intros [H N]. split; [exact H|].
      destruct (eqs (key x) uid) eqn:E; [|reflexivity].
      apply eqs_true in E. contradiction. }
  assert (Gone : ~ In uid (map u_id (user d1))).
  { intros H. apply in_map_iff in H. destruct H as [u [E Hin]].
    apply (Keep _ u_id) in Hin. tauto. }
  exists (advance d1 [Call_user_delete] w). rewrite store_advance.
  split; [exact Run|]. split; [|split; [reflexivity|]].
  { unfold deleteUser. erewrite bind_returned by exact Run. reflexivity. }
  split; [apply (Keep _ u_id)|]. split; [apply (Keep _ ut_userId)|].
  split; [apply (Keep _ b_userId)|]. split; [reflexivity|].
  split; [|split].
  - intros row Hne. unfold toApiUser, includeRelations. simpl.
    rewrite (filter_others ut_userId (userTag (store w)) Hne).
    rewrite (filter_others b_userId (busySlot (store w)) Hne).
    reflexivity.
  - apply getById_missing; [exact R | exact Gone].
  - unfold delete.
    erewrite tryCatch_thrown; [reflexivity|].
    erewrite bind_thrown; [reflexivity|].
    unfold Prisma.user_delete. rewrite call_reachable by exact R.
    unfold Prisma.userDelete. rewrite store_advance.
    apply find_id_none in Gone. rewrite Gone. reflexivity.
Qed.

End Deleting.

(** ** [markBusy], then the query *)

Section BusyThenQuery.

Context {runtime : DateRuntime}.

Lemma markBusy_run (uid : jsstring) (input : MarkBusyInput) (a b : Z)
    (w : World) :
  Spec.window (mb_from input) (mb_to input) a b -> a < b ->
  reachable w = true -> In uid (map u_id (user (store w))) ->
  Timestamp_fits a = true -> Timestamp_fits b = true ->
  let s := {| b_id := freshId (map b_id (busySlot (store w))); b_from := a;
              b_to := b; b_reason := mb_reason input; b_userId := uid;
              b_createdAt := now w |} in
  markBusy uid input w
  = (Returned (toApiBusySlot s),
     advance (Prisma.setBusySlot (busySlot (store w) ++ [s]) (store w))
       [Call_user_findUnique; Call_busySlot_create] w).
Proof.
  intros W Hlt R Hu Fa Fb s.
  destruct (parseIsoDate_window "from" "to" w W) as [Pf Pt].
  unfold markBusy.
  erewrite bind_returned by exact Pf. erewrite bind_returned by exact Pt.
  destruct (Z.geb_spec a b); [lia|].
  erewrite bind_returned
    by (unfold Prisma.user_findUnique; apply reading_run; exact R).
  rewrite find_ById.
  destruct (find_id_some uid (user (store w)) Hu) as [u [F _]]. rewrite F.
  unfold Prisma.busySlot_create. unfold bind.
  rewrite call_reachable by exact R.
  unfold Prisma.busySlotCreate. rewrite store_advance, now_advance.
  rewrite Fa, Fb. simpl andb. simpl negb. cbv iota.
  apply userExists_In in Hu. rewrite Hu. simpl negb. cbv iota.
  simpl fst. simpl snd. rewrite record_advance, withStore_advance.
  rewrite advance_advance. reflexivity.
Qed.

(** The two instants a window names are determined by its two strings. *)
Lemma window_unique (from to : option jsstring) (a b a' b' : Z) :
  Spec.window from to a b -> Spec.window from to a' b' -> a' = a /\ b' = b.
Proof.
  intros [f [t [Ef [Et [_ [_ [Pf Pt]]]]]]] [f' [t' [Ef' [Et' [_ [_ [Pf' Pt']]]]]]].
  rewrite Ef in Ef'. rewrite Et in Et'.
  injection Ef' as <-. injection Et' as <-. split; congruence.
Qed.

(** [markBusy] returns only on a window the column accepts, for a stored
    user, on a database within reach. *)
Lemma markBusy_returned (uid : jsstring) (input : MarkBusyInput)
    (w w1 : World) (slot : BusySlot) :
  markBusy uid input w = (Returned slot, w1) ->
  exists a b, Spec.window (mb_from input) (mb_to input) a b /\ a < b
              /\ reachable w = true /\ In uid (map u_id (user (store w)))
              /\ Timestamp_fits a = true /\ Timestamp_fits b = true.
Proof.
  intros E.
  destruct (parseIsoDate_cases (mb_from input) "from" w)
    as [[a [f [Ef [Bf [Pf Rf]]]]] | [_ [msg Rf]]];
    [|unfold markBusy in E; erewrite bind_thrown in E by exact Rf;
      discriminate].
  destruct (parseIsoDate_cases (mb_to input) "to" w)
    as [[b [t [Et [Bt [Pt Rt]]]]] | [_ [msg Rt]]];
    [|unfold markBusy in E; erewrite bind_returned in E by exact Rf;
      erewrite bind_thrown in E by exact Rt; discriminate].
  unfold markBusy in E.
  erewrite bind_returned in E by exact Rf.
  erewrite bind_returned in E by exact Rt.
  exists a, b. split; [exists f, t; repeat split; assumption|].
  destruct (Z.geb_spec a b) as [Hge | Hlt]; [discriminate|].
  split; [exact Hlt|].
  destruct (reachable w) eqn:R.
  - split; [reflexivity|].
    destruct (in_dec jsstring_dec uid (map u_id (user (store w))))
      as [Hu | Hu].
    + split; [exact Hu|].
      erewrite bind_returned in E
        by (unfold Prisma.user_findUnique; apply reading_run; exact R).
      rewrite find_ById in E.
      destruct (find_id_some uid (user (store w)) Hu) as [u [F _]].
      rewrite F in E.
      unfold Prisma.busySlot_create, bind in E.
      rewrite call_reachable in E by exact R.
      unfold Prisma.busySlotCreate in E.
      rewrite store_advance, now_advance in E.
      destruct (Timestamp_fits a); [|discriminate E].
      destruct (Timestamp_fits b); [|discriminate E].
      split; reflexivity.
    + exfalso. erewrite bind_returned in E
        by (unfold Prisma.user_findUnique; apply reading_run; exact R).
      rewrite find_ById in E. apply find_id_none in Hu. rewrite Hu in E.
      discriminate.
  - exfalso. erewrite bind_thrown in E; [discriminate|].
    unfold Prisma.user_findUnique. apply call_unreachable. exact R.
Qed.

(** X16. Once [markBusy] has returned for the window [[a, b)] of a user,
    the answer of [getFreeUsers] to any valid window of instants the column
    accepts is the answer before less that user when the window overlaps
    [[a, b)], and the same users otherwise: a window that only touches the
    slot keeps the user. *)
Theorem markBusy_then_getFreeUsers (uid : jsstring) (busy_input : MarkBusyInput)
    (a b : Z) (w w1 : World) (slot : BusySlot) :
  Spec.window (mb_from busy_input) (mb_to busy_input) a b ->
  markBusy uid busy_input w = (Returned slot, w1) ->
  forall input from to,
    Spec.window (q_from input) (q_to input) from to -> from < to ->
    Timestamp_fits from = true -> Timestamp_fits to = true ->
    exists before after wa wb,
      getFreeUsers input w = (Returned before, wa)
      /\ getFreeUsers input w1 = (Returned after, wb)
      /\ forall x, In x (map id after) <->
                   In x (map id before)
                   /\ ~ (x = uid /\ Spec.overlaps a b from to).
Proof.
  intros W E.
  destruct (markBusy_returned uid busy_input w E)
    as [a' [b' [W' [Hlt [R [Hu [Fa Fb]]]]]]].
  destruct (window_unique W W') as [-> ->].
  pose proof (@markBusy_run uid busy_input a b w W Hlt R Hu Fa Fb) as Run.
  cbv zeta in Run.
  set (s := {| b_id := freshId (map b_id (busySlot (store w))); b_from := a;
               b_to := b; b_reason := mb_reason busy_input; b_userId := uid;
               b_createdAt := now w |}) in *.
  set (d1 := Prisma.setBusySlot (busySlot (store w) ++ [s]) (store w)) in *.
  rewrite Run in E. injection E as _ <-.
  intros input from to Wq Hq _ _.
  pose proof (getFreeUsers_run input w Wq Hq) as Q0.
  pose proof (getFreeUsers_run input
                (advance d1 [Call_user_findUnique; Call_busySlot_create] w)
                Wq Hq) as Q1.
  change (reachable (advance d1 _ w)) with (reachable w) in Q1.
  rewrite R in Q0, Q1. rewrite store_advance in Q1.
  eexists. eexists. eexists. eexists.
  split; [exact Q0|]. split; [exact Q1|].
  intros x. rewrite !getFreeUsers_ids.
  assert (M : Spec.matchesTags d1 x (normalizeTagsFromQuery (q_tags input))
              <-> Spec.matchesTags (store w) x
                    (normalizeTagsFromQuery (q_tags input))).
  { unfold Spec.matchesTags. split; intros H n Hn; specialize (H n Hn);
      (eapply holdsTag_same_tables; [| |exact H]); reflexivity. }
  assert (Fr : Spec.free d1 x from to
               <-> Spec.free (store w) x from to
                   /\ ~ (x = uid /\ Spec.overlaps a b from to)).
  { unfold Spec.free. simpl. split.
    - intros H. split.
      + intros s0 Hs. apply H. apply in_or_app. left. exact Hs.
      + intros [-> O]. apply (H s); [|reflexivity | exact O].
        apply in_or_app. right. left. reflexivity.
    - intros [H N] s0 Hs Eu O. apply in_app_or in Hs.
      destruct Hs as [Hs | [<- | []]]; [apply (H s0 Hs Eu O)|].
      apply N. split; [symmetry; exact Eu | exact O]. }
  change (user d1) with (user (store w)). rewrite M, Fr. tauto.
Qed.

End BusyThenQuery.

(** ** All operations together *)

Section AllServices.

Context {runtime : DateRuntime}.

Lemma update_preserves (uid : jsstring) (input : UpdateUserInput) :
  preserves (update uid input).
Proof.
  unfold update, Prisma.user_findUnique, Prisma.userTag_deleteMany,
    Prisma.user_update, Prisma.reading, Prisma.writing.
  preserved_by ltac:(apply attach_preserves); try assumption;
    first [ apply userTagDeleteMany_consistent
          | apply userUpdate_consistent ]; assumption.
Qed.

(** X17. The constraints of the migration (primary keys, unique email and
    tag name, foreign keys) are an invariant of every operation of the two
    services and of the controller's [deleteUser]: from a consistent store
    each one leaves a consistent store, whatever its arguments and whether
    it returns or throws. *)
Theorem every_operation_keeps_the_constraints :
  (forall suffix input, preserves (create suffix input))
  /\ (forall uid, preserves (getById uid))
  /\ (forall uid input, preserves (update uid input))
  /\ (forall uid, preserves (delete uid))
  /\ (forall uid, preserves (deleteUser uid))
  /\ (forall uid input, preserves (updateTags uid input))
  /\ (forall uid input, preserves (markBusy uid input))
  /\ preserves listAll
  /\ (forall input, preserves (getFreeUsers input)).
Proof.
  destruct services_keep_the_store_consistent as [Q [C [D [T M]]]].
  split; [exact C|]. split; [|split; [apply update_preserves|]].
  { intros uid. unfold getById, Prisma.user_findUnique_include, Prisma.reading.
    preserved; assumption. }
  split; [exact D|]. split; [|split; [exact T|]].
  { intros uid. unfold deleteUser.
    apply preserves_bind; [apply D | intros _; apply preserves_ret]. }
  split; [exact M|]. split; [|exact Q].
  unfold listAll, user_findMany_all, Prisma.reading.
  preserved; assumption.
Qed.

End AllServices.

(** ** What was written is what is read *)

Lemma replaced_row_in (l : list UserRow) (row row' : UserRow) (uid : jsstring) :
  In row l -> u_id row = uid ->
  In row' (map (fun u => if eqs (u_id u) uid then row' else u) l).
Proof.
  intros Hin E. apply in_map_iff. exists row. split; [|exact Hin].
  rewrite E, eqs_refl. reflexivity.
Qed.

Lemma passes_acceptable (v : option jsstring) :
  defined v && blank v = false -> acceptable v.
Proof.
  destruct v as [s|]; [|left; reflexivity]. simpl. intros H. right. exact H.
Qed.

Section ReadBack.

Context {runtime : DateRuntime}.

Lemma create_returned (suffix : jsstring) (input : CreateUserInput)
    (w w1 : World) (v : User) :
  consistent (store w) ->
  create suffix input w = (Returned v, w1) -> viewOfStored v w1.
Proof.
  intros C E.
  destruct (blank (c_name input)) eqn:Bn;
    [unfold create in E; rewrite Bn in E; discriminate|].
  destruct (blank (c_email input)) eqn:Be;
    [unfold create in E; rewrite Bn, Be in E; discriminate|].
  destruct (blank_false _ Bn) as [nm En].
  destruct (blank_false _ Be) as [em Ee].
  destruct (reachable w) eqn:R.
  - destruct (in_dec jsstring_dec em (map u_email (user (store w))))
      as [Hem | Hem].
    + apply in_map_iff in Hem. destruct Hem as [e [Em He]]. subst em.
      rewrite (@create_reset_run runtime suffix input nm e w
                 R C En Bn Be He Ee) in E.
      injection E as <- <-. split; [exact R|]. rewrite store_advance.
      eexists. split; [|reflexivity]. simpl.
      apply replaced_row_in with (row := e); [|reflexivity].
      unfold resetCleared.
      destruct (attachAllDb_user (u_id e)
                  (normalizeTags (orEmpty (c_tags input)))
                  (Prisma.userTagDeleteMany (u_id e)
                     (Prisma.busySlotDeleteMany (u_id e) (store w))))
        as [U _].
      rewrite U. exact He.
    + destruct (in_dec jsstring_dec (generateUserId suffix)
                  (map u_id (user (store w)))) as [Hid | Hid].
      * rewrite (@create_collision_run runtime suffix input em w
                   Bn Be Ee R Hid Hem) in E. discriminate.
      * destruct (@create_fresh_run runtime suffix input nm em w
                    R C En Bn Ee Be Hid Hem)
          as [d2 [newT [newR [Run [U2 _]]]]].
        rewrite Run in E. injection E as <- <-. split; [exact R|].
        rewrite store_advance. eexists. split; [|reflexivity].
        rewrite U2. apply in_or_app. right. left. reflexivity.
  - exfalso. unfold create in E. rewrite Bn, Be, En, Ee in E.
    erewrite tryCatch_thrown in E.
    2:{ apply bind_thrown. unfold Prisma.user_create.
        apply call_unreachable. exact R. }
    discriminate.
Qed.

Lemma updateTags_returned (uid : jsstring) (input : UpdateUserTagsInput)
    (w w1 : World) (v : User) :
  updateTags uid input w = (Returned v, w1) -> viewOfStored v w1.
Proof.
  intros E. destruct (reachable w) eqn:R.
  - destruct (in_dec jsstring_dec uid (map u_id (user (store w))))
      as [Hu | Hu].
    + destruct (updateTags_run uid input w R Hu) as [row [Hrow [_ Run]]].
      rewrite Run in E. injection E as <- <-. split; [exact R|].
      rewrite store_advance. exists row. split; [|reflexivity].
      unfold updateTagsDb.
      destruct (attachAllDb_user uid (normalizeTags (orEmpty (add input)))
                  (store w)) as [U _].
      destruct (0 <? List.length _)%nat; simpl; rewrite U; exact Hrow.
    + exfalso. unfold updateTags, bind, transaction in E. rewrite R in E.
      unfold Prisma.user_findUnique in E.
      rewrite call_reachable in E by exact R.
      unfold Prisma.reading in E. simpl in E.
      rewrite find_ById in E. apply find_id_none in Hu. rewrite Hu in E.
      discriminate.
  - exfalso. unfold updateTags, bind, transaction in E. rewrite R in E.
    discriminate.
Qed.

Lemma update_returned (uid : jsstring) (input : UpdateUserInput)
    (w w1 : World) (v : User) :
  update uid input w = (Returned v, w1) -> viewOfStored v w1.
Proof.
  intros E.
  destruct (defined (up_name input) && blank (up_name input)) eqn:Vn;
    [unfold update in E; rewrite Vn in E; discriminate|].
  destruct (defined (up_email input) && blank (up_email input)) eqn:Ve;
    [unfold update in E; rewrite Vn, Ve in E; discriminate|].
  apply passes_acceptable in Vn, Ve.
  destruct (reachable w) eqn:R.
  - destruct (find (fun u => eqs (u_id u) uid) (user (store w)))
      as [row|] eqn:F.
    + rewrite (@update_run runtime uid input row w Vn Ve R F) in E.
      destruct (emailTaken uid input (store w)); [discriminate|].
      injection E as <- <-. split; [exact R|]. rewrite store_advance.
      eexists. split; [|reflexivity]. simpl.
      apply find_some in F. destruct F as [Hin Ei]. apply eqs_true in Ei.
      apply replaced_row_in with (row := row); [|exact Ei].
      destruct (updateTagged_user uid input (store w)) as [U _].
      rewrite U. exact Hin.
    + apply find_id_none in F.
      rewrite (@update_missing_run runtime uid input w Vn Ve R F) in E.
      discriminate.
  - exfalso. unfold update in E.
    rewrite (acceptable_passes Vn), (acceptable_passes Ve) in E.
    unfold bind, transaction in E. rewrite R in E. discriminate.
Qed.

(** X3. On a consistent store, what a write returns is what the next read
    returns: after [create], [update] or [updateTags] has returned a view,
    [getById] for its id returns that same view; after [markBusy] has
    returned a slot, [getById] for the user returns a view whose busy list
    has the slot. *)
Theorem reads_return_what_was_written (w : World) :
  consistent (store w) ->
  (forall suffix input v w1,
     create suffix input w = (Returned v, w1) ->
     getById (id v) w1 = (Returned v, record Call_user_findUnique w1))
  /\ (forall uid input v w1,
        update uid input w = (Returned v, w1) ->
        getById (id v) w1 = (Returned v, record Call_user_findUnique w1))
  /\ (forall uid input v w1,
        updateTags uid input w = (Returned v, w1) ->
        getById (id v) w1 = (Returned v, record Call_user_findUnique w1))
  /\ (forall uid input slot w1,
        markBusy uid input w = (Returned slot, w1) ->
        exists v,
          getById uid w1 = (Returned v, record Call_user_findUnique w1)
          /\ In slot (busy v)).
Proof.
  intros C.
  destruct services_keep_the_store_consistent as [_ [PC [_ [PT PM]]]].
  assert (Back : forall v w1, consistent (store w1) -> viewOfStored v w1 ->
            getById (id v) w1 = (Returned v, record Call_user_findUnique w1)).
  { intros v w1 C1 [R1 [row [Hrow ->]]].
    apply (getById_stored row w1 R1 (User_pkey C1) Hrow). }
  split; [|split; [|split]].
  - intros suffix input v w1 E. apply Back.
    + apply (PC suffix input w _ w1 C E).
    + apply (@create_returned suffix input w w1 v C E).
  - intros uid input v w1 E. apply Back.
    + apply (@update_preserves runtime uid input w _ w1 C E).
    + apply (@update_returned uid input w w1 v E).
  - intros uid input v w1 E. apply Back.
    + apply (PT uid input w _ w1 C E).
    + apply (@updateTags_returned uid input w w1 v E).
  - intros uid input slot w1 E.
    destruct (@markBusy_returned runtime uid input w w1 slot E)
      as [a [b [W [Hlt [R [Hu [Fa Fb]]]]]]].
    pose proof (PM uid input w _ w1 C E) as C1.
    rewrite (@markBusy_run runtime uid input a b w W Hlt R Hu Fa Fb) in E.
    injection E as <- <-.
    set (s := {| b_id := freshId (map b_id (busySlot (store w)));
                 b_from := a; b_to := b; b_reason := mb_reason input;
                 b_userId := uid; b_createdAt := now w |}) in *.
    destruct (find_id_some uid (user (store w)) Hu) as [row [_ [Ei Hrow]]].
    eexists. split.
    + rewrite <- Ei. apply getById_stored;
        [exact R | apply (User_pkey C1) | exact Hrow].
    + apply view_busy. exists s. split; [|split; [symmetry; exact Ei|]].
      * rewrite store_advance. simpl. apply in_or_app. right. left.
        reflexivity.
      * reflexivity.
Qed.

(** X18. When the database cannot be reached, every operation but [delete]
    throws the client's error P1001 as it is, and nothing is stored:
    [create] throws on an error whose code is not P2002, and the other
    operations catch nothing. Inputs are taken to pass validation, and the
    instants of a query to be ones the column accepts. *)
Theorem store_failures_pass_through (w : World) :
  reachable w = false ->
  (forall uid, getById uid w = outOfReach Call_user_findUnique w)
  /\ listAll w = outOfReach Call_user_findMany w
  /\ (forall uid input,
        updateTags uid input w = outOfReach Call_transaction w)
  /\ (forall uid input,
        acceptable (up_name input) -> acceptable (up_email input) ->
        update uid input w = outOfReach Call_transaction w)
  /\ (forall suffix input,
        blank (c_name input) = false -> blank (c_email input) = false ->
        create suffix input w = outOfReach Call_user_create w)
  /\ (forall uid input a b,
        Spec.window (mb_from input) (mb_to input) a b -> a < b ->
        markBusy uid input w = outOfReach Call_user_findUnique w)
  /\ (forall input a b,
        Spec.window (q_from input) (q_to input) a b -> a < b ->
        Timestamp_fits a = true -> Timestamp_fits b = true ->
        getFreeUsers input w = outOfReach Call_user_findMany w).
Proof.
  intros R. unfold outOfReach. repeat split.
  - intros uid. unfold getById. erewrite bind_thrown; [reflexivity|].
    apply call_unreachable, R.
  - unfold listAll. erewrite bind_thrown; [reflexivity|].
    apply call_unreachable, R.
  - intros uid input. unfold updateTags, bind, transaction. rewrite R.
    reflexivity.
  - intros uid input Vn Ve. unfold update.
    rewrite (acceptable_passes Vn), (acceptable_passes Ve).
    unfold bind, transaction. rewrite R. reflexivity.
  - intros suffix input Bn Be. unfold create. rewrite Bn, Be.
    destruct (blank_false _ Bn) as [nm ->].
    destruct (blank_false _ Be) as [em ->].
    erewrite tryCatch_thrown
      by (apply bind_thrown; unfold Prisma.user_create;
          apply call_unreachable, R).
    reflexivity.
  - intros uid input a b W Hlt.
    destruct (parseIsoDate_window "from" "to" w W) as [Pf Pt].
    unfold markBusy.
    erewrite bind_returned by exact Pf. erewrite bind_returned by exact Pt.
    destruct (Z.geb_spec a b); [lia|].
    erewrite bind_thrown; [reflexivity|]. apply call_unreachable, R.
  - intros input a b W Hlt _ _.
    rewrite (getFreeUsers_run input w W Hlt), R. reflexivity.
Qed.

End ReadBack.

(** ** Concrete runs of the other operations *)

Lemma board_consistent : consistent (store Sample.board).
Proof. apply consistentb_sound. vm_compute. reflexivity. Qed.

Lemma board_reachable : reachable Sample.board = true.
Proof. vm_compute. reflexivity. Qed.

Lemma late_window :
  Spec.window (runtime := Sample.runtime) (mb_from Sample.late)
    (mb_to Sample.late) Sample.t_1500 Sample.t_1600.
Proof. apply window_intro; vm_compute; reflexivity. Qed.

Lemma late_run :
  exists slot w1,
    markBusy (runtime := Sample.runtime) Sample.u2 Sample.late Sample.board
    = (Returned slot, w1).
Proof.
  assert (Sample.t_1500 < Sample.t_1600) as Lt by reflexivity.
  assert (In Sample.u2 (map u_id (user (store Sample.board)))) as Known
    by (vm_compute; right; left; reflexivity).
  assert (Timestamp_fits (DateRuntime := Sample.runtime) Sample.t_1500 = true)
    as Fa by (vm_compute; reflexivity).
  assert (Timestamp_fits (DateRuntime := Sample.runtime) Sample.t_1600 = true)
    as Fb by (vm_compute; reflexivity).
  pose proof (@markBusy_run Sample.runtime Sample.u2 Sample.late
                Sample.t_1500 Sample.t_1600 Sample.board late_window Lt
                board_reachable Known Fa Fb) as E.
  eexists. eexists. exact E.
Qed.

Lemma create_failures_witness :
  rejected (create (runtime := Sample.runtime) (lit "ffffffff")
              {| c_name := Some (lit "  "); c_email := None;
                 c_phone := None; c_tags := None |})
    Sample.board "name is required"
  /\ create (runtime := Sample.runtime) (lit "aaaaaaaa")
       (Sample.newUser "Twin" "twin@example.com") Sample.board
     = (Thrown P2002,
        advance (store Sample.board)
          [Call_user_create; Call_user_findUnique] Sample.board).
Proof.
  split.
  - apply (create_failures (runtime := Sample.runtime)).
    vm_compute. reflexivity.
  - destruct (create_failures (runtime := Sample.runtime) (lit "aaaaaaaa")
                (Sample.newUser "Twin" "twin@example.com") Sample.board)
      as [_ [_ Collision]].
    apply (Collision (lit "twin@example.com")).
    + vm_compute. reflexivity.
    + vm_compute. reflexivity.
    + reflexivity.
    + exact board_reachable.
    + vm_compute. left. reflexivity.
    + apply notIn_intro. vm_compute. reflexivity.
Defined.

Lemma create_registers_a_new_user_witness :
  exists v w1,
    create (runtime := Sample.runtime) (lit "ffffffff")
      {| c_name := Some (lit "Fay"); c_email := Some (lit "fay@example.com");
         c_phone := None; c_tags := Some [lit " backend "; lit "golang"] |}
      Sample.board = (Returned v, w1)
    /\ id v = lit "usr_ffffffff"
    /\ Permutation (tags v) [lit "backend"; lit "golang"] /\ busy v = [].
Proof.
  destruct (@create_registers_a_new_user Sample.runtime (lit "ffffffff")
              {| c_name := Some (lit "Fay");
                 c_email := Some (lit "fay@example.com");
                 c_phone := None;
                 c_tags := Some [lit " backend "; lit "golang"] |}
              (lit "Fay") (lit "fay@example.com") Sample.board)
    as [v [w1 [E [Hid [_ [_ [_ [Ht [Hb _]]]]]]]]].
  - exact board_reachable.
  - exact board_consistent.
  - reflexivity.
  - vm_compute. reflexivity.
  - reflexivity.
  - vm_compute. reflexivity.
  - apply notIn_intro. vm_compute. reflexivity.
  - apply notIn_intro. vm_compute. reflexivity.
  - vm_compute. reflexivity.
  - vm_compute. reflexivity.
  - intros p F. discriminate F.
  - intros n Hn. vm_compute in Hn.
    destruct Hn as [<- | [<- | []]]; vm_compute; reflexivity.
  - exists v, w1. split; [exact E|]. split; [exact Hid|].
    split; [exact Ht | exact Hb].
Defined.

Lemma reads_return_what_was_written_witness :
  exists slot w1,
    markBusy (runtime := Sample.runtime) Sample.u2 Sample.late Sample.board
    = (Returned slot, w1)
    /\ exists v,
         getById (runtime := Sample.runtime) Sample.u2 w1
         = (Returned v, record Call_user_findUnique w1)
         /\ In slot (busy v).
Proof.
  destruct (@reads_return_what_was_written Sample.runtime Sample.board
              board_consistent) as [_ [_ [_ Busy]]].
  destruct late_run as [slot [w1 E]].
  exists slot, w1. split; [exact E|]. exact (Busy _ _ _ _ E).
Defined.

Lemma delete_removes_the_user_witness :
  exists w1,
    delete Sample.u1 Sample.board = (Returned tt, w1)
    /\ deleteUser Sample.u1 Sample.board
       = (Returned {| deleted := true |}, w1)
    /\ getById (runtime := Sample.runtime) Sample.u1 w1
       = (Thrown (NotFoundException "user not found"),
          record Call_user_findUnique w1).
Proof.
  destruct (@delete_removes_the_user Sample.runtime Sample.u1 Sample.board)
    as [w1 [E [D [_ [_ [_ [_ [_ [_ [G _]]]]]]]]]].
  - exact board_reachable.
  - vm_compute. left. reflexivity.
  - exists w1. split; [exact E|]. split; [exact D | exact G].
Defined.

Lemma updateTags_unknown_user_witness :
  updateTags (runtime := Sample.runtime) (lit "usr_zzzzzzzz") Sample.swapTags
    Sample.board
  = (Thrown (NotFoundException "user not found"),
     advance (store Sample.board) [Call_transaction; Call_user_findUnique]
       Sample.board).
Proof.
  apply (updateTags_unknown_user (runtime := Sample.runtime)).
  - exact board_reachable.
  - apply notIn_intro. vm_compute. reflexivity.
Defined.


Lemma update_rejections_witness :
  rejected (update (runtime := Sample.runtime) Sample.u1
              {| up_name := Some (lit " "); up_email := None;
                 up_phone := None; up_tags := None |})
    Sample.board "name cannot be empty"
  /\ update (runtime := Sample.runtime) (lit "usr_zzzzzzzz")
       {| up_name := None; up_email := None; up_phone := None;
          up_tags := Some [lit "golang"] |} Sample.board
     = (Thrown (NotFoundException "user not found"),
        advance (store Sample.board) [Call_transaction; Call_user_findUnique]
          Sample.board).
Proof.
  split.
  - destruct (update_rejections (runtime := Sample.runtime) Sample.u1
                {| up_name := Some (lit " "); up_email := None;
                   up_phone := None; up_tags := None |} Sample.board)
      as [Name _].
    apply (Name (lit " ")).
    + reflexivity.
    + vm_compute. reflexivity.
  - apply (update_rejections (runtime := Sample.runtime)).
    + left. reflexivity.
    + left. reflexivity.
    + exact board_reachable.
    + apply notIn_intro. vm_compute. reflexivity.
Defined.

Lemma update_email_conflict_rolls_back_witness :
  exists w1,
    update (runtime := Sample.runtime) Sample.u1
      {| up_name := None; up_email := Some (lit "user2@example.com");
         up_phone := None; up_tags := Some [lit "golang"] |} Sample.board
    = (Thrown P2002, w1)
    /\ store w1 = store Sample.board.
Proof.
  destruct (@update_email_conflict_rolls_back Sample.runtime Sample.u1
              {| up_name := None; up_email := Some (lit "user2@example.com");
                 up_phone := None; up_tags := Some [lit "golang"] |}
              (lit "user2@example.com")
              {| u_id := Sample.u2; u_name := lit "User Two";
                 u_email := lit "user2@example.com"; u_phone := None;
                 u_createdAt := 1770370000000;
                 u_updatedAt := 1770370000000 |} Sample.board)
    as [w1 [E [S _]]].
  - left. reflexivity.
  - right. vm_compute. reflexivity.
  - exact board_reachable.
  - vm_compute. left. reflexivity.
  - reflexivity.
  - vm_compute. right. left. reflexivity.
  - reflexivity.
  - vm_compute. discriminate.
  - exists w1. split; [exact E | exact S].
Defined.

Lemma update_changes_what_is_given_witness :
  exists v w1,
    update (runtime := Sample.runtime) Sample.u1
      {| up_name := Some (lit "Renamed"); up_email := None;
         up_phone := None; up_tags := Some [] |} Sample.board
    = (Returned v, w1)
    /\ name v = lit "Renamed" /\ email v = lit "user1@example.com"
    /\ updatedAt v
       = Date_toISOString (DateRuntime := Sample.runtime) (now Sample.board)
    /\ (forall n, In n (tags v) <-> In n []).
Proof.
  destruct (@update_changes_what_is_given Sample.runtime Sample.u1
              {| up_name := Some (lit "Renamed"); up_email := None;
                 up_phone := None; up_tags := Some [] |}
              Sample.row1 Sample.board)
    as [v [w1 [E [_ [Hn [He [_ [_ [Hu [Ht _]]]]]]]]]].
  - exact board_reachable.
  - exact board_consistent.
  - right. vm_compute. reflexivity.
  - left. reflexivity.
  - vm_compute. left. reflexivity.
  - reflexivity.
  - intros other _ _. discriminate.
  - intros s [H | [H | [H | []]]]; try discriminate H.
    injection H as <-. vm_compute. reflexivity.
  - intros l n H Hn. injection H as <-. destruct Hn.
  - exists v, w1. split; [exact E|]. split; [exact Hn|].
    split; [exact He|]. split; [exact (Hu eq_refl) | exact Ht].
Defined.

Lemma markBusy_then_getFreeUsers_witness :
  exists slot w1,
    markBusy (runtime := Sample.runtime) Sample.u2 Sample.late Sample.board
    = (Returned slot, w1)
    /\ exists before after wa wb,
         getFreeUsers (runtime := Sample.runtime) Sample.anyone_1145_1230
           Sample.board = (Returned before, wa)
         /\ getFreeUsers (runtime := Sample.runtime) Sample.anyone_1145_1230
              w1 = (Returned after, wb)
         /\ (In Sample.u2 (map id after) <->
             In Sample.u2 (map id before)
             /\ ~ (Sample.u2 = Sample.u2
                   /\ Spec.overlaps Sample.t_1500 Sample.t_1600
                        Sample.t_1145 Sample.t_1230)).
Proof.
  destruct late_run as [slot [w1 E]].
  exists slot, w1. split; [exact E|].
  destruct (@markBusy_then_getFreeUsers Sample.runtime Sample.u2 Sample.late
              Sample.t_1500 Sample.t_1600 Sample.board w1 slot late_window E
              Sample.anyone_1145_1230 Sample.t_1145 Sample.t_1230)
    as [before [after [wa [wb [E0 [E1 H]]]]]].
  - apply window_intro; vm_compute; reflexivity.
  - reflexivity.
  - vm_compute. reflexivity.
  - vm_compute. reflexivity.
  - exists before, after, wa, wb. split; [exact E0|].
    split; [exact E1 | exact (H Sample.u2)].
Defined.

Lemma store_failures_pass_through_witness :
  getById (runtime := Sample.runtime) Sample.u1
    (Sample.offline Sample.board)
  = outOfReach Call_user_findUnique (Sample.offline Sample.board)
  /\ updateTags (runtime := Sample.runtime) Sample.u1 Sample.swapTags
       (Sample.offline Sample.board)
     = outOfReach Call_transaction (Sample.offline Sample.board).
Proof.
  destruct (@store_failures_pass_through Sample.runtime
              (Sample.offline Sample.board) eq_refl) as [G [_ [T _]]].
  split; [apply G | apply T].
Defined.

